(** * inks: the repair-and-execute pipeline of [pdf_generator_all_in_one.py]

    A shallow embedding of the four rewrite functions ([auto_fix_*_code]),
    the three execution strategies ([execute_*_code]) and the request
    coordinator ([generate_pdf]), followed by the properties of the
    specification that were checked against them.

    Conventions.
    - A Python [str] is a list of Unicode code points ([N]).  String
      literals of the source are written with [py], which decodes the UTF-8
      bytes of a Rocq string literal, so that the non-ASCII characters of the
      source are copied as they stand.  A double quote inside a literal is
      written [dq].
    - [str.lower()] is modelled on the ASCII letters; every other code point
      is left as it is.  All tags and patterns the source compares against
      are ASCII.
    - Calls to [logger] are not modelled: they have no effect on the values
      the claims speak about. *)

From Stdlib Require Import String Ascii List NArith ZArith Bool Arith Lia.
Import ListNotations.
Local Open Scope string_scope.
Local Open Scope N_scope.
Local Open Scope nat_scope.
Local Open Scope list_scope.

(* ================================================================== *)
(** * Python strings *)
(* ================================================================== *)

Module PyStr.

Definition char := N.
Definition str := list char.

(** UTF-8 decoding of the bytes of a literal. *)
Fixpoint utf8_decode (bs : list N) : str :=
  match bs with
  | [] => []
  | b :: r =>
    if (b <? 128)%N then b :: utf8_decode r
    else if (b <? 224)%N then
      match r with
      | b1 :: r' => ((b - 192) * 64 + (b1 - 128))%N :: utf8_decode r'
      | _ => []
      end
    else if (b <? 240)%N then
      match r with
      | b1 :: b2 :: r' =>
        ((b - 224) * 4096 + (b1 - 128) * 64 + (b2 - 128))%N :: utf8_decode r'
      | _ => []
      end
    else
      match r with
      | b1 :: b2 :: b3 :: r' =>
        ((b - 240) * 262144 + (b1 - 128) * 4096 + (b2 - 128) * 64 + (b3 - 128))%N
          :: utf8_decode r'
      | _ => []
      end
  end.

Definition py (s : string) : str :=
  utf8_decode (map N_of_ascii (list_ascii_of_string s)).

(** The double quote character, U+0022. *)
Definition dq : str := [34%N].
(** The line feed, U+000A. *)
Definition nl : str := [10%N].
(** The backslash, U+005C. *)
Definition bsl : str := [92%N].

Definition eqb_str (a b : str) : bool :=
  if list_eq_dec N.eq_dec a b then true else false.

(** [s.startswith(p)] *)
Fixpoint startswith (s p : str) {struct p} : bool :=
  match p, s with
  | [], _ => true
  | _ :: _, [] => false
  | a :: p', b :: s' => (a =? b)%N && startswith s' p'
  end.

(** [s.endswith(p)] *)
Definition endswith (s p : str) : bool := startswith (rev s) (rev p).

(** [p in s] *)
Fixpoint contains (p s : str) : bool :=
  startswith s p ||
  match s with
  | [] => false
  | _ :: s' => contains p s'
  end.

(** [s.find(sub)] counted from offset [i]: the lowest index, or -1. *)
Fixpoint find_at (s sub : str) (i : Z) : Z :=
  if startswith s sub then i
  else match s with
       | [] => (-1)%Z
       | _ :: s' => find_at s' sub (i + 1)%Z
       end.

Definition find (s sub : str) : Z := find_at s sub 0%Z.

(** [s.find(sub, start)] for [0 <= start]. *)
Definition find_from (s sub : str) (start : Z) : Z :=
  if (Z.of_nat (length s) <? start)%Z then (-1)%Z
  else find_at (skipn (Z.to_nat start) s) sub start.

(** [s[:i]] and [s[i:]] for [0 <= i]. *)
Definition slice_to (s : str) (i : Z) : str := firstn (Z.to_nat i) s.
Definition slice_from (s : str) (i : Z) : str := skipn (Z.to_nat i) s.

(** [s.replace(old, new)] for a non-empty [old]: the occurrences are taken
    from the left and do not overlap.  [skip] counts the characters of the
    occurrence just replaced that are still to be passed over. *)
Fixpoint replace_from (old new : str) (skip : nat) (s : str) : str :=
  match s with
  | [] => []
  | c :: s' =>
    match skip with
    | S k => replace_from old new k s'
    | O =>
      if startswith s old
      then new ++ replace_from old new (length old - 1) s'
      else c :: replace_from old new 0 s'
    end
  end.

(** [s.replace(old, new)]; with an empty [old] Python puts [new] before
    every character and at the end. *)
Definition replace (s old new : str) : str :=
  match old with
  | [] => new ++ flat_map (fun c => c :: new) s
  | _ :: _ => replace_from old new 0 s
  end.

(** [s.split(sep)] for a non-empty [sep]; [cur] holds the piece being read,
    reversed. *)
Fixpoint split_from (sep : str) (skip : nat) (cur : str) (s : str) : list str :=
  match s with
  | [] => [rev cur]
  | c :: s' =>
    match skip with
    | S k => split_from sep k cur s'
    | O =>
      if startswith s sep
      then rev cur :: split_from sep (length sep - 1) [] s'
      else split_from sep 0 (c :: cur) s'
    end
  end.

Definition split (s sep : str) : list str := split_from sep 0 [] s.

(** [str.isspace()] on one code point. *)
Definition is_space (c : char) : bool :=
  ((9 <=? c) && (c <=? 13) || (28 <=? c) && (c <=? 32) || (c =? 133) || (c =? 160)
   || (c =? 5760) || (8192 <=? c) && (c <=? 8202) || (c =? 8232) || (c =? 8233)
   || (c =? 8239) || (c =? 8287) || (c =? 12288))%N.

Fixpoint lstrip (s : str) : str :=
  match s with
  | [] => []
  | c :: s' => if is_space c then lstrip s' else s
  end.

Definition rstrip (s : str) : str := rev (lstrip (rev s)).

(** [s.strip()] *)
Definition strip (s : str) : str := rstrip (lstrip s).

Definition lower_char (c : char) : char :=
  if ((65 <=? c) && (c <=? 90))%N then (c + 32)%N else c.

(** [s.lower()] on the letters A-Z.  On a text of ASCII characters this is
    [str.lower]; cased letters outside ASCII, which [str.lower] changes as
    well, are left as they are. *)
Definition lower (s : str) : str := map lower_char s.

(** The characters of [s] are ASCII characters. *)
Definition is_ascii (s : str) : bool := forallb (fun c => c <? 128)%N s.

(** [sep.join(l)] *)
Fixpoint join (sep : str) (l : list str) : str :=
  match l with
  | [] => []
  | [x] => x
  | x :: r => x ++ sep ++ join sep r
  end.

(** Each line followed by a line feed, as in a triple-quoted literal. *)
Definition unlines (l : list str) : str := flat_map (fun x => x ++ nl) l.

(** The number of (possibly overlapping) places where [p] occurs in [s]. *)
Fixpoint count_sub (p s : str) : nat :=
  (if startswith s p then 1 else 0) +
  match s with
  | [] => 0
  | _ :: s' => count_sub p s'
  end.

(** The number of times the character [c] occurs in [s]. *)
Definition count_char (c : char) (s : str) : nat :=
  length (filter (N.eqb c) s).

(** ** Checks on literals

    [clash a b]: [a] and [b] differ at a position both have.  [clear_of p x]:
    an occurrence of [p] cannot start inside a copy of [x], whatever follows
    the copy.  [untouched p x]: an occurrence of [p] cannot overlap a copy of
    [x], whatever surrounds the copy. *)
Fixpoint clash (a b : str) : bool :=
  match a, b with
  | x :: a', y :: b' => negb (x =? y)%N || clash a' b'
  | _, _ => false
  end.

Fixpoint clear_of (p x : str) : bool :=
  match x with
  | [] => true
  | _ :: x' => clash p x && clear_of p x'
  end.

Definition untouched (p x : str) : bool :=
  match x with
  | [] => false
  | c :: x' => negb (existsb (N.eqb c) p) && clear_of p x'
  end.

(** [settled p x]: at every position of a copy of [x], either [p] occurs
    inside the copy or [p] cannot start there. *)
Fixpoint settled (p x : str) : bool :=
  match x with
  | [] => true
  | _ :: x' => (startswith x p || clash p x) && settled p x'
  end.

(** [trimmed p]: [p] begins and ends with a character that is no white
    space. *)
Definition trimmed (p : str) : bool :=
  match p, rev p with
  | a :: _, b :: _ => negb (is_space a) && negb (is_space b)
  | _, _ => false
  end.

End PyStr.
Import PyStr.


(* ================================================================== *)
(** * Exceptions *)
(* ================================================================== *)

(** The classes the handlers of the source tell apart: [except Exception]
    lets [SystemExit] and [KeyboardInterrupt] through, [except ImportError]
    catches [ImportError] only. *)
Inductive exn_class : Type :=
  | ExceptionClass        (* Exception and its subclasses, ImportError apart *)
  | ImportErrorClass      (* ImportError *)
  | BaseExceptionClass.   (* SystemExit, KeyboardInterrupt: not an Exception *)

Record exn : Type := mkExn { exn_cls : exn_class; exn_str : str }.

Definition is_Exception (e : exn) : bool :=
  match exn_cls e with
  | BaseExceptionClass => false
  | _ => true
  end.

Definition is_ImportError (e : exn) : bool :=
  match exn_cls e with
  | ImportErrorClass => true
  | _ => false
  end.

(** A call returns a value or is left by an exception. *)
Inductive outcome (A : Type) : Type :=
  | Returned (a : A)
  | Raises (e : exn).
Arguments Returned {A} a.
Arguments Raises {A} e.

(* ================================================================== *)
(** * The rewrite rule sets *)
(* ================================================================== *)

Module Rewrite.

(** The two variables a rewrite function works on. *)
Record st : Type := mkSt { code : str; fixes_applied : list str }.

(** A piece of a rewrite body runs on the state and on a countdown: with
    [Some n] the statement executed after [n] more statements raises, with
    [None] no statement raises.  Operations on [str] raise nothing on their
    own; the countdown stands for the failures the [try] blocks of the
    source guard against. *)
Inductive res (A : Type) : Type :=
  | Done (a : A) (s : st) (fault : option nat)
  | Raised (s : st).
Arguments Done {A} a s fault.
Arguments Raised {A} s.

Definition M (A : Type) : Type := st -> option nat -> res A.

Definition ret {A} (a : A) : M A := fun s f => Done a s f.

Definition bind {A B} (m : M A) (k : A -> M B) : M B :=
  fun s f =>
    match m s f with
    | Done a s' f' => k a s' f'
    | Raised s' => Raised s'
    end.

Declare Scope rw_scope.
Delimit Scope rw_scope with rw.
Notation "x <- m ;; k" := (bind m (fun x => k))
  (at level 61, m at next level, right associativity) : rw_scope.
Notation "m ;; k" := (bind m (fun _ => k))
  (at level 61, right associativity) : rw_scope.
Local Open Scope rw_scope.

(** One statement computing a value from the state. *)
Definition eval {A} (e : st -> A) : M A :=
  fun s f =>
    match f with
    | Some O => Raised s
    | Some (S n) => Done (e s) s (Some n)
    | None => Done (e s) s None
    end.

(** One statement changing the state. *)
Definition stmt (g : st -> st) : M unit :=
  fun s f =>
    match f with
    | Some O => Raised s
    | Some (S n) => Done tt (g s) (Some n)
    | None => Done tt (g s) None
    end.

(** [code = g(code)] *)
Definition assign (g : str -> str) : M unit :=
  stmt (fun s => mkSt (g (code s)) (fixes_applied s)).

(** [fixes_applied.append(m)] *)
Definition append_fix (m : str) : M unit :=
  stmt (fun s => mkSt (code s) (fixes_applied s ++ [m])).

(** [if c: t else: e], the condition read on the current [code]. *)
Definition ifM (c : str -> bool) (t e : M unit) : M unit :=
  b <- eval (fun s => c (code s)) ;; if b then t else e.

(** [if c: t] *)
Definition when (c : str -> bool) (t : M unit) : M unit := ifM c t (ret tt).

(** [for x in l: body] *)
Fixpoint for_each {A} (l : list A) (body : A -> M unit) : M unit :=
  match l with
  | [] => ret tt
  | x :: r => body x ;; for_each r body
  end.

(** [for old, new in table.items(): if old in code: code = code.replace(old,
    new); fixes_applied.append(msg)] *)
Definition fix_table (table : list (str * str)) (msg : str -> str -> str) : M unit :=
  for_each table (fun '(old, new) =>
    when (fun code => contains old code)
      (assign (fun code => replace code old new) ;;
       append_fix (msg old new))).

(** The state in which a body starts and the pair a rewrite function returns. *)
Definition init (c : str) : st := mkSt c [].
Definition result (s : st) : str * list str := (code s, fixes_applied s).

(** [try: body except Exception as e: fixes_applied.append(f"Auto-fix
    encountered error: {str(e)}")] followed by [return code, fixes_applied].
    [fault] is the statement that raises, if any, with the text of its
    exception. *)
Definition try_body (body : M unit) (fault : option (nat * str)) (c : str)
  : str * list str :=
  match body (init c) (option_map fst fault) with
  | Done _ s _ => result s
  | Raised s =>
    let e := match fault with Some (_, m) => m | None => [] end in
    (code s, fixes_applied s ++ [py "Auto-fix encountered error: " ++ e])
  end.

(** ** Rules shared by the dialects *)

(** Lines 681-683, 831-833 and 924-926.  As the source file stands, the four
    literals of the test are two plain double quotes and, between two
    triple quotes, the text [ in code or ]; the literal of the third
    [replace] is the text between its two triple quotes. *)
Definition quote_probe : str := py " in code or ".
Definition quote_old3 : str := py ", " ++ dq ++ py "'" ++ dq ++ py ").replace(".

Definition fix_smart_quotes : M unit :=
  when (fun code => contains dq code || contains dq code || contains quote_probe code)
    (assign (fun code =>
       replace (replace (replace code dq dq) dq dq) quote_old3 (py "'")) ;;
     append_fix (py "Fixed smart quotes → regular quotes")).

(** ** [auto_fix_python_code] *)

(** Lines 686-692: three keys follow, then one key that runs from the triple
    quote of line 690 to the triple quote of line 691. *)
Definition unicode_fixes : list (str * str) :=
  [ (py "–", py "-");
    (py "—", py "-");
    (py "…", py "...");
    (py ": " ++ dq ++ py "'" ++ dq ++ py ",  # left single quote" ++ nl
       ++ py "            ", py "'") ].

Definition reportlab_imports : str :=
  unlines
    [ py "from reportlab.lib.pagesizes import A4, letter";
      py "from reportlab.lib import colors";
      py "from reportlab.lib.units import inch, mm, cm, pica";
      py "from reportlab.platypus import (";
      py "    SimpleDocTemplate, BaseDocTemplate, PageTemplate, Frame, Paragraph, Spacer, ";
      py "    Table, TableStyle, PageBreak, KeepTogether, Flowable, Image, NextPageTemplate";
      py ")";
      py "from reportlab.lib.styles import getSampleStyleSheet, ParagraphStyle";
      py "from reportlab.pdfbase import pdfmetrics";
      py "from reportlab.pdfbase.ttfonts import TTFont";
      py "from reportlab.graphics.shapes import Drawing, Rect, Circle, Line";
      py "from reportlab.graphics.charts.linecharts import HorizontalLineChart";
      py "from reportlab.graphics.charts.piecharts import Pie";
      py "import os";
      py "import sys";
      [] ].

Definition path_fixes : list (str * str) :=
  [ (py "/mnt/data/", py "./");
    (py "~/", py "./");
    (py "C:" ++ bsl, py "./");
    (py "D:" ++ bsl, py "./") ].

Definition var_fixes : list (str * str) :=
  [ (py "fileName", py "file_name");
    (py "filename", py "file_path");
    (py "pdfFile", py "pdf_file");
    (py "outputFile", py "output_file") ].

Definition alignment_fixes : list (str * str) :=
  [ (py "alignment=center", py "alignment=1");
    (py "alignment=" ++ dq ++ py "center" ++ dq, py "alignment=1");
    (py "alignment=left", py "alignment=0");
    (py "alignment=" ++ dq ++ py "left" ++ dq, py "alignment=0");
    (py "alignment=right", py "alignment=2");
    (py "alignment=" ++ dq ++ py "right" ++ dq, py "alignment=2");
    (py "alignment=justify", py "alignment=4");
    (py "alignment=" ++ dq ++ py "justify" ++ dq, py "alignment=4") ].

Definition syntax_fixes : list (str * str) :=
  [ (py "colors.hexcolor(", py "colors.HexColor(");
    (py "Colors.HexColor(", py "colors.HexColor(");
    (py "getSampleStylesheet()", py "getSampleStyleSheet()");
    (py "getStyleSheet()", py "getSampleStyleSheet()") ].

Definition main_guard : str :=
  py "if __name__ == " ++ dq ++ py "__main__" ++ dq ++ py ":".

Definition action_words : list str := [py "build"; py "generate"; py "create"].

(** Lines 753-758: the names of the functions whose [def] line holds one of
    the action words. *)
Definition function_names (c : str) : list str :=
  flat_map
    (fun line =>
       if startswith (strip line) (py "def ")
          && existsb (fun word => contains word line) action_words
       then [nth 0 (split (nth 1 (split line (py "def ")) []) (py "(")) []]
       else [])
    (split c nl).

(** Lines 767-771. *)
Definition insert_story (c : str) : option str :=
  let pdf_line_index := find c (py "pdf = SimpleDocTemplate(") in
  let next_line_index := find_from c nl pdf_line_index in
  if (next_line_index =? -1)%Z then None
  else Some (slice_to c next_line_index ++ nl ++ py "story = []"
               ++ slice_from c next_line_index).

Definition error_wrapper : str :=
  py "try:" ++ nl ++
  py "    build_pdf()" ++ nl ++
  py "    print(" ++ dq ++ py "✅ PDF generated successfully!" ++ dq ++ py ")" ++ nl ++
  py "except Exception as e:" ++ nl ++
  py "    print(f" ++ dq ++ py "❌ Error: {e}" ++ dq ++ py ")".

Definition auto_fix_python_body : M unit :=
  (* Fix smart quotes *)
  fix_smart_quotes ;;
  (* Fix common unicode issues *)
  fix_table unicode_fixes
    (fun old new => py "Fixed unicode character: " ++ old ++ py " → " ++ new) ;;
  (* Add missing imports for complex ReportLab code *)
  when (fun code => negb (contains (py "from reportlab") code)
                    && negb (contains (py "import reportlab") code))
    (assign (fun code => reportlab_imports ++ code) ;;
     append_fix (py "Added comprehensive ReportLab imports")) ;;
  (* Fix file paths *)
  fix_table path_fixes
    (fun old new => py "Fixed file path: " ++ old ++ py " → " ++ new) ;;
  (* Fix common variable naming issues *)
  for_each var_fixes (fun '(old, new) =>
    when (fun code => contains (old ++ py " =") code)
      (assign (fun code => replace code (old ++ py " =") (new ++ py " =")) ;;
       append_fix (py "Fixed variable name: " ++ old ++ py " → " ++ new))) ;;
  (* Ensure the main function gets called *)
  ifM (fun code => contains (py "def build_pdf(") code && contains main_guard code)
    (when (fun code => negb (contains (py "build_pdf(") (nth 1 (split code main_guard) [])))
       (assign (fun code =>
          code ++ nl ++ nl ++ py "# Auto-added function call" ++ nl ++ py "build_pdf()") ;;
        append_fix (py "Added missing function call")))
  (ifM (fun code => contains (py "def ") code
                    && (contains (py "build") code || contains (py "generate") code
                        || contains (py "create") code))
    (names <- eval (fun s => function_names (code s)) ;;
     match names with
     | [] => ret tt
     | first :: _ =>
       assign (fun code =>
         code ++ nl ++ nl ++ py "# Auto-added function call" ++ nl ++ first ++ py "()") ;;
       append_fix (py "Added missing " ++ first ++ py "() call")
     end)
  (* For simple ReportLab code patterns *)
  (when (fun code => (contains (py "Paragraph(") code || contains (py "Spacer(") code)
                     && negb (contains (py "story = []") code))
    (when (fun code => contains (py "pdf = SimpleDocTemplate(") code)
       (next <- eval (fun s => insert_story (code s)) ;;
        match next with
        | None => ret tt
        | Some c' => assign (fun _ => c') ;; append_fix (py "Added missing story list")
        end) ;;
     (* Add pdf.build if missing *)
     when (fun code => contains (py "story.append(") code
                       && negb (contains (py "pdf.build(") code)
                       && negb (contains (py "doc.build(") code))
       (assign (fun code => code ++ nl ++ nl ++ py "pdf.build(story)") ;;
        append_fix (py "Added missing pdf.build(story)"))))) ;;
  (* Fix alignment values *)
  fix_table alignment_fixes
    (fun old new => py "Fixed alignment: " ++ old ++ py " → " ++ new) ;;
  (* Fix common syntax errors *)
  fix_table syntax_fixes
    (fun old new => py "Fixed syntax: " ++ old ++ py " → " ++ new) ;;
  (* Add missing error handling *)
  when (fun code => contains (py "def ") code && negb (contains (py "try:") code)
                    && negb (contains (py "except") code))
    (when (fun code => contains (py "build_pdf()") code)
       (assign (fun code => replace code (py "build_pdf()") error_wrapper) ;;
        append_fix (py "Added error handling"))).

Definition auto_fix_python_code (fault : option (nat * str)) (c : str)
  : str * list str :=
  try_body auto_fix_python_body fault c.

(** ** [auto_fix_html_code] *)

(** Lines 852-875: the text before and the text after the place of [{code}]
    in the template. *)
Definition html_open : str :=
  py "<!DOCTYPE html>" ++ nl ++
  py "<html lang=" ++ dq ++ py "en" ++ dq ++ py ">" ++ nl ++
  py "<head>" ++ nl ++
  py "    <meta charset=" ++ dq ++ py "UTF-8" ++ dq ++ py ">" ++ nl ++
  py "    <meta name=" ++ dq ++ py "viewport" ++ dq ++ py " content=" ++ dq
    ++ py "width=device-width, initial-scale=1.0" ++ dq ++ py ">" ++ nl ++
  py "    <title>Generated PDF Document</title>" ++ nl ++
  py "    <style>" ++ nl ++
  py "        body { " ++ nl ++
  py "            font-family: 'Segoe UI', Tahoma, Geneva, Verdana, sans-serif; " ++ nl ++
  py "            margin: 20px; " ++ nl ++
  py "            line-height: 1.6;" ++ nl ++
  py "            color: #333;" ++ nl ++
  py "        }" ++ nl ++
  py "        h1 { color: #213A5C; }" ++ nl ++
  py "        h2 { color: #5A7CA4; }" ++ nl ++
  py "        .container { max-width: 800px; margin: 0 auto; }" ++ nl ++
  py "    </style>" ++ nl ++
  py "</head>" ++ nl ++
  py "<body>" ++ nl ++
  py "    <div class=" ++ dq ++ py "container" ++ dq ++ py ">" ++ nl.

Definition html_close : str :=
  nl ++
  py "    </div>" ++ nl ++
  py "</body>" ++ nl ++
  py "</html>".

Definition html_document (c : str) : str := html_open ++ c ++ html_close.

Definition html_fixes : list (str * str) :=
  [ (py "<br>", py "<br/>");
    (py "<hr>", py "<hr/>");
    (py "<img ", py "<img ");
    (py "&", py "&amp;") ].

Definition charset_meta : str :=
  py "<head>" ++ nl ++ py "    <meta charset=" ++ dq ++ py "UTF-8" ++ dq ++ py ">".

Definition viewport_meta : str :=
  py "<head>" ++ nl ++ py "    <meta name=" ++ dq ++ py "viewport" ++ dq ++ py " content="
    ++ dq ++ py "width=device-width, initial-scale=1.0" ++ dq ++ py ">".

Definition auto_fix_html_body : M unit :=
  (* Fix smart quotes and unicode issues (same as Python) *)
  fix_smart_quotes ;;
  (* Add DOCTYPE if missing *)
  when (fun code => negb (contains (py "<!DOCTYPE") code) && contains (py "<html") code)
    (assign (fun code => py "<!DOCTYPE html>" ++ nl ++ code) ;;
     append_fix (py "Added missing DOCTYPE")) ;;
  (* Add charset if missing *)
  when (fun code => negb (contains (py "<meta charset=") code)
                    && contains (py "<head>") code)
    (assign (fun code => replace code (py "<head>") charset_meta) ;;
     append_fix (py "Added UTF-8 charset")) ;;
  (* Add viewport if missing *)
  when (fun code => negb (contains (py "<meta name=" ++ dq ++ py "viewport" ++ dq) code)
                    && contains (py "<head>") code)
    (assign (fun code => replace code (py "<head>") viewport_meta) ;;
     append_fix (py "Added viewport meta tag")) ;;
  (* Add basic structure if missing *)
  when (fun code => negb (contains (py "<html") code))
    (assign html_document ;;
     append_fix (py "Added complete HTML5 document structure")) ;;
  (* Fix common HTML issues *)
  for_each html_fixes (fun '(old, new) =>
    when (fun code => contains old code && negb (eqb_str old (py "&amp;")))
      (assign (fun code => replace code old new) ;;
       append_fix (py "Fixed HTML: " ++ old ++ py " → " ++ new))) ;;
  (* Add title if missing *)
  when (fun code => negb (contains (py "<title>") code) && contains (py "<head>") code)
    (assign (fun code =>
       replace code (py "</head>")
         (py "    <title>PDF Document</title>" ++ nl ++ py "</head>")) ;;
     append_fix (py "Added missing title tag")).

Definition auto_fix_html_code (fault : option (nat * str)) (c : str)
  : str * list str :=
  try_body auto_fix_html_body fault c.

(** ** [auto_fix_javascript_code] *)

Definition auto_fix_javascript_body : M unit :=
  (* Add jsPDF require if missing *)
  when (fun code => contains (py "jsPDF") code && negb (contains (py "require(") code)
                    && negb (contains (py "import") code))
    (assign (fun code => py "const { jsPDF } = require('jspdf');" ++ nl ++ code) ;;
     append_fix (py "Added jsPDF import")) ;;
  (* Fix common variable issues *)
  when (fun code => negb (contains (py "doc.save(") code)
                    && contains (py "new jsPDF()") code)
    (assign (fun code => code ++ nl ++ py "doc.save('document.pdf');") ;;
     append_fix (py "Added missing doc.save()")).

(** This function has no [try]: an exception raised inside it leaves it. *)
Definition auto_fix_javascript_code (fault : option (nat * str)) (c : str)
  : outcome (str * list str) :=
  match auto_fix_javascript_body (init c) (option_map fst fault) with
  | Done _ s _ => Returned (result s)
  | Raised _ =>
    Raises (mkExn ExceptionClass (match fault with Some (_, m) => m | None => [] end))
  end.

(** ** [auto_fix_matplotlib_code] *)

Definition matplotlib_imports : str :=
  unlines
    [ py "import matplotlib";
      py "matplotlib.use('Agg')  # Backend for server environment";
      py "import matplotlib.pyplot as plt";
      py "import numpy as np";
      py "import pandas as pd" ].

Definition mpl_fixes : list (str * str) :=
  [ (py "plt.show()", py "# plt.show() removed for PDF generation");
    (py "pyplot.show()", py "# pyplot.show() removed for PDF generation");
    (py "plt.ion()", py "# plt.ion() removed for server environment");
    (py "plt.ioff()", py "# plt.ioff() removed for server environment") ].

Definition save_commands : str :=
  nl ++ nl ++ py "# Auto-added save commands" ++ nl ++
  py "plt.tight_layout()" ++ nl ++
  py "plt.savefig('chart.pdf', bbox_inches='tight', dpi=300)" ++ nl ++
  py "plt.close()".

Definition auto_fix_matplotlib_body : M unit :=
  (* Fix smart quotes (same as Python) *)
  fix_smart_quotes ;;
  (* Add comprehensive imports if missing *)
  when (fun code => negb (contains (py "matplotlib") code)
                    && (contains (py "plt.") code || contains (py "pyplot") code))
    (assign (fun code => matplotlib_imports ++ code) ;;
     append_fix (py "Added comprehensive matplotlib imports")) ;;
  (* Add backend setting if missing *)
  when (fun code => negb (contains (py "matplotlib.use(") code)
                    && contains (py "import matplotlib") code)
    (assign (fun code =>
       replace code (py "import matplotlib")
         (py "import matplotlib" ++ nl ++ py "matplotlib.use('Agg')")) ;;
     append_fix (py "Added Agg backend for server environment")) ;;
  (* Add numpy import if array operations detected *)
  when (fun code => (contains (py "np.") code || contains (py "numpy") code)
                    && negb (contains (py "import numpy") code))
    (assign (fun code => py "import numpy as np" ++ nl ++ code) ;;
     append_fix (py "Added numpy import")) ;;
  (* Add pandas import if DataFrame operations detected *)
  when (fun code => (contains (py "pd.") code || contains (py "DataFrame") code)
                    && negb (contains (py "import pandas") code))
    (assign (fun code => py "import pandas as pd" ++ nl ++ code) ;;
     append_fix (py "Added pandas import")) ;;
  (* Fix common matplotlib issues *)
  fix_table mpl_fixes
    (fun old new => py "Fixed matplotlib: " ++ old ++ py " → " ++ new) ;;
  (* Add savefig if missing *)
  when (fun code => contains (py "plt.") code && negb (contains (py "savefig(") code)
                    && negb (contains (py "save(") code))
    (assign (fun code => code ++ save_commands) ;;
     append_fix (py "Added plt.savefig() with tight layout and close")) ;;
  (* Fix file paths *)
  when (fun code => contains (py "savefig(") code)
    (* Ensure PDF extension *)
    (ifM (fun code => contains (py ".png") code)
       (assign (fun code => replace code (py ".png") (py ".pdf")) ;;
        append_fix (py "Changed output format from PNG to PDF"))
       (when (fun code => contains (py ".jpg") code || contains (py ".jpeg") code)
          (assign (fun code =>
             replace (replace code (py ".jpg") (py ".pdf")) (py ".jpeg") (py ".pdf")) ;;
           append_fix (py "Changed output format from JPEG to PDF")))).

Definition auto_fix_matplotlib_code (fault : option (nat * str)) (c : str)
  : str * list str :=
  try_body auto_fix_matplotlib_body fault c.

End Rewrite.
Import Rewrite.

(* ================================================================== *)
(** * The execution strategies *)
(* ================================================================== *)

Module Exec.

(** The part of the host the strategies touch: the working directory, in
    the order [os.listdir('.')] gives it, and the temporary files. *)
Record file : Type := mkFile { f_name : str; f_size : N; f_ctime : N }.
Record temp : Type := mkTemp { t_id : N; t_suffix : str; t_text : str }.
Record world : Type := mkWorld { cwd : list file; temps : list temp; next_temp : N }.

(** What lies outside the program: the failure injected into the rewrite
    call, what running a snippet does, the two renderers, the sending of
    the artifact and the clock. *)
Record env : Type := mkEnv {
  rewrite_fault : option (nat * str);
  run_snippet : str -> world -> world * option exn;
  weasyprint_installed : bool;
  weasyprint_write_pdf : str -> world -> world * option exn;
  wkhtmltopdf : str -> world -> world * option exn;
  send_file : str -> world -> option exn;
  elapsed : N
}.

(** [with tempfile.NamedTemporaryFile(mode='w', suffix=..., delete=False) as
    temp_file: temp_file.write(code); temp_file_path = temp_file.name], for a
    write that succeeds: the strategies are modelled from the point where
    their temporary file is written. *)
Definition named_temporary_file (suffix text : str) (w : world) : N * world :=
  (next_temp w,
   mkWorld (cwd w) (mkTemp (next_temp w) suffix text :: temps w) (next_temp w + 1)%N).

Definition temp_exists (t : N) (w : world) : bool :=
  existsb (fun x => (t_id x =? t)%N) (temps w).

(** The [FileNotFoundError] of [open], [os.unlink] and [os.path.getsize]:
    its class and the text of its errno, without the path that follows the
    text in [str(e)]. *)
Definition file_not_found : exn :=
  mkExn ExceptionClass (py "[Errno 2] No such file or directory").

(** [open(temp_file_path).read()] *)
Definition read_temp (t : N) (w : world) : outcome str :=
  match List.find (fun x => (t_id x =? t)%N) (temps w) with
  | Some x => Returned (t_text x)
  | None => Raises file_not_found
  end.

(** [os.unlink(temp_file_path)] *)
Definition unlink (t : N) (w : world) : world * option exn :=
  if temp_exists t w
  then (mkWorld (cwd w) (filter (fun x => negb (t_id x =? t)%N) (temps w)) (next_temp w),
        None)
  else (w, Some file_not_found).

(** [max(pdf_files, key=os.path.getctime)]: the first of the latest. *)
Fixpoint max_by_ctime (best : file) (l : list file) : file :=
  match l with
  | [] => best
  | f :: r =>
    if (f_ctime best <? f_ctime f)%N then max_by_ctime f r else max_by_ctime best r
  end.

(** [os.path.exists(p)] and [os.path.getsize(p)] for a name of the working
    directory. *)
Definition path_exists (p : str) (w : world) : bool :=
  existsb (fun f => eqb_str (f_name f) p) (cwd w).

Definition getsize (p : str) (w : world) : option N :=
  option_map f_size (List.find (fun f => eqb_str (f_name f) p) (cwd w)).

Section Strategies.
Variable E : env.

(** The handler of [execute_python_code]: [os.unlink(temp_file_path); raise e]. *)
Definition unlink_and_raise (t : N) (e : exn) (w : world)
  : outcome (option str) * world :=
  match unlink t w with
  | (w', None) => (Raises e, w')
  | (w', Some e') => (Raises e', w')
  end.

(** Lines 994-1006: the [try] statement of [execute_python_code]. *)
Definition python_try_block (temp_file_path : N) (w1 : world)
  : outcome (option str) * world :=
  (* try: *)
  match read_temp temp_file_path w1 with
  | Raises e => unlink_and_raise temp_file_path e w1
  | Returned source =>
    match run_snippet E source w1 with
    | (w2, Some e) =>
      (* except Exception as e: *)
      if is_Exception e then unlink_and_raise temp_file_path e w2 else (Raises e, w2)
    | (w2, None) =>
      match unlink temp_file_path w2 with
      | (w3, Some e) => unlink_and_raise temp_file_path e w3
      | (w3, None) =>
        (* Find generated PDF *)
        let pdf_files := filter (fun f => endswith (f_name f) (py ".pdf")) (cwd w3) in
        match pdf_files with
        | f :: r => (Returned (Some (f_name (max_by_ctime f r))), w3)
        | [] => (Returned None, w3)
        end
      end
    end
  end.

Definition execute_python_code (c : str) (w : world) : outcome (option str) * world :=
  let '(temp_file_path, w1) := named_temporary_file (py ".py") c w in
  python_try_block temp_file_path w1.

Definition execute_html_with_wkhtmltopdf (c : str) (w : world)
  : outcome (option str) * world :=
  let '(temp_file_path, w1) := named_temporary_file (py ".html") c w in
  let pdf_path := py "html_document.pdf" in
  match wkhtmltopdf E c w1 with
  | (w2, Some e) => (Raises e, w2)
  | (w2, None) =>
    match unlink temp_file_path w2 with
    | (w3, Some e) => (Raises e, w3)
    | (w3, None) => (Returned (Some pdf_path), w3)
    end
  end.

Definition execute_html_code (c : str) (w : world) : outcome (option str) * world :=
  (* try: import weasyprint *)
  if negb (weasyprint_installed E)
  then (* except ImportError: *) execute_html_with_wkhtmltopdf c w
  else
    let '(temp_file_path, w1) := named_temporary_file (py ".html") c w in
    let pdf_path := py "html_document.pdf" in
    match weasyprint_write_pdf E c w1 with
    | (w2, Some e) =>
      if is_ImportError e then execute_html_with_wkhtmltopdf c w2 else (Raises e, w2)
    | (w2, None) =>
      match unlink temp_file_path w2 with
      | (w3, Some e) =>
        if is_ImportError e then execute_html_with_wkhtmltopdf c w3 else (Raises e, w3)
      | (w3, None) => (Returned (Some pdf_path), w3)
      end
    end.

Definition javascript_advice : str :=
  py "JavaScript execution requires Node.js setup. Please use Python or HTML instead.".

Definition execute_javascript_code (c : str) (w : world)
  : outcome (option str) * world :=
  (Raises (mkExn ExceptionClass javascript_advice), w).

End Strategies.
End Exec.
Import Exec.

(* ================================================================== *)
(** * The coordinator *)
(* ================================================================== *)

Module Pipeline.

Record request : Type := mkRequest {
  form_language : option str;
  form_code : option str;
  http_x_forwarded_for : option str;
  remote_addr : option str
}.

(** [Response(body, status=...)] or [send_file(path, as_attachment=True)]. *)
Inductive response : Type :=
  | Response (body : str) (status : N)
  | SentFile (path : str).

(** The arguments of one call of [log_generation]. *)
Record log_entry : Type := mkLog {
  l_language : str;
  l_code_length : nat;
  l_success : bool;
  l_error_message : option str;
  l_fixes_applied : option (list str);
  l_file_size : option N;
  l_generation_time : option N;
  l_user_ip : str
}.

(** What a request does, in order: calls of a rewrite function, calls of an
    execution strategy, calls of the recorder. *)
Inductive event : Type :=
  | Rewrote (language : str)
  | Executed (language : str) (fixed_code : str)
  | Logged (entry : log_entry).

Record run : Type := mkRun { reply : outcome response; trace : list event; after : world }.

(** [d.get(key, default)] *)
Definition get (field : option str) (default : str) : str :=
  match field with
  | Some v => v
  | None => default
  end.

Definition supported_languages : list str :=
  [py "python"; py "html"; py "matplotlib"; py "javascript"].

Definition dangerous_patterns : list str :=
  [ py "import subprocess"; py "__import__"; py "eval("; py "exec("; py "open(";
    py "file("; py "input("; py "raw_input("; py "compile("; py "globals()";
    py "locals()"; py "vars()"; py "dir()"; py "hasattr("; py "getattr(";
    py "setattr("; py "delattr("; py "reload("; py "memoryview(" ].

Definition safe_contexts : list str :=
  [py "exec(compile(open(temp_file_path).read()"].

(** Lines 1094-1098: the first pattern, in the order of the list, for which
    the test of the loop holds. *)
Fixpoint security_check (patterns : list str) (user_code code_lower : str) : option str :=
  match patterns with
  | [] => None
  | pattern :: rest =>
    if contains pattern code_lower
       && negb (existsb (fun safe => contains safe user_code) safe_contexts)
    then Some pattern
    else security_check rest user_code code_lower
  end.

Definition truthy (pdf_file : option str) : bool :=
  match pdf_file with
  | Some (_ :: _) => true
  | _ => false
  end.

Section Coordinator.
Variable E : env.

(** Lines 1103-1118: the value of [fixes_applied] when the block is left,
    how it is left, and what was called. *)
Definition rewrite_and_execute (language user_code : str) (w : world)
  : list str * outcome (option str) * list event * world :=
  if eqb_str language (py "python") then
    let '(fixed_code, fixes_applied) := auto_fix_python_code (rewrite_fault E) user_code in
    let '(r, w') := execute_python_code E fixed_code w in
    (fixes_applied, r, [Rewrote language; Executed language fixed_code], w')
  else if eqb_str language (py "html") then
    let '(fixed_code, fixes_applied) := auto_fix_html_code (rewrite_fault E) user_code in
    let '(r, w') := execute_html_code E fixed_code w in
    (fixes_applied, r, [Rewrote language; Executed language fixed_code], w')
  else if eqb_str language (py "matplotlib") then
    let '(fixed_code, fixes_applied) :=
      auto_fix_matplotlib_code (rewrite_fault E) user_code in
    let '(r, w') := execute_python_code E fixed_code w in
    (fixes_applied, r, [Rewrote language; Executed language fixed_code], w')
  else if eqb_str language (py "javascript") then
    match auto_fix_javascript_code (rewrite_fault E) user_code with
    | Returned (fixed_code, fixes_applied) =>
      let '(r, w') := execute_javascript_code fixed_code w in
      (fixes_applied, r, [Rewrote language; Executed language fixed_code], w')
    | Raises e => ([], Raises e, [Rewrote language], w)
    end
  else
    ([], Raises (mkExn ExceptionClass (py "Unsupported language: " ++ language)), [], w).

(** Lines 1120-1148: what is recorded and answered once the block of the
    rewrite and the strategy is left. *)
Definition respond (language user_code user_ip : str)
           (attempt : list str * outcome (option str) * list event * world) : run :=
  let '(fixes_applied, r, called, w1) := attempt in
  match r with
  | Raises code_error =>
    (* except Exception as code_error: *)
    if is_Exception code_error then
      let error_msg := py "Code execution error: " ++ exn_str code_error in
      mkRun (Returned (Response error_msg 500))
        (called ++ [Logged (mkLog language (length user_code) false (Some error_msg)
                              (Some fixes_applied) None (Some (elapsed E)) user_ip)]) w1
    else mkRun (Raises code_error) called w1
  | Returned pdf_file =>
    (* Check if PDF was generated *)
    if truthy pdf_file && path_exists (get pdf_file []) w1 then
      let sending_failed (done : list event) (file_error : exn) :=
        (* except Exception as file_error: *)
        if is_Exception file_error then
          let error_msg := py "Error sending file: " ++ exn_str file_error in
          mkRun (Returned (Response error_msg 500))
            (done ++ [Logged (mkLog language (length user_code) false (Some error_msg)
                                (Some fixes_applied) None (Some (elapsed E)) user_ip)]) w1
        else mkRun (Raises file_error) done w1 in
      match getsize (get pdf_file []) w1 with
      | None => sending_failed called file_not_found
      | Some file_size =>
        (* Log successful generation *)
        let recorded :=
          called ++ [Logged (mkLog language (length user_code) true None
                               (Some fixes_applied) (Some file_size)
                               (Some (elapsed E)) user_ip)] in
        match send_file E (get pdf_file []) w1 with
        | None => mkRun (Returned (SentFile (get pdf_file []))) recorded w1
        | Some file_error => sending_failed recorded file_error
        end
      end
    else
      let error_msg := py "No PDF file was generated. Check your code for errors." in
      mkRun (Returned (Response error_msg 400))
        (called ++ [Logged (mkLog language (length user_code) false (Some error_msg)
                              (Some fixes_applied) None (Some (elapsed E)) user_ip)]) w1
  end.

(** Lines 1058-1156.  The outer handler (line 1150) is not reached: every
    [Exception] of the body is caught before it, and it lets through what
    is not an [Exception]. *)
Definition generate_pdf (rq : request) (w : world) : run :=
  let user_ip := get (http_x_forwarded_for rq) (get (remote_addr rq) (py "unknown")) in
  (* Input validation *)
  let language := strip (lower (get (form_language rq) (py "python"))) in
  let user_code := strip (get (form_code rq) []) in
  (* Validate language *)
  if negb (existsb (eqb_str language) supported_languages) then
    let error_msg :=
      py "Unsupported language: " ++ language ++ py ". Supported: "
        ++ join (py ", ") supported_languages in
    mkRun (Returned (Response error_msg 400))
      [Logged (mkLog language (length user_code) false (Some error_msg)
                 None None None user_ip)] w
  else
  match user_code with
  | [] =>
    let error_msg := py "Please enter some code to generate PDF" in
    mkRun (Returned (Response error_msg 400))
      [Logged (mkLog language 0 false (Some error_msg) None None None user_ip)] w
  | _ :: _ =>
  (* Security check - basic validation *)
  let code_lower := lower user_code in
  match security_check dangerous_patterns user_code code_lower with
  | Some pattern =>
    let error_msg := py "Code contains potentially dangerous pattern: " ++ pattern in
    mkRun (Returned (Response error_msg 400))
      [Logged (mkLog language (length user_code) false (Some error_msg)
                 None None None user_ip)] w
  | None =>
    (* Auto-fix code based on language, execute, answer *)
    respond language user_code user_ip (rewrite_and_execute language user_code w)
  end
  end.

End Coordinator.

(** The entries handed to the recorder, in order. *)
Definition logged (tr : list event) : list log_entry :=
  flat_map (fun ev => match ev with Logged e => [e] | _ => [] end) tr.

End Pipeline.
Import Pipeline.

(* ================================================================== *)
(** * Notions used in the statements *)
(* ================================================================== *)

(** [p] occurs in [s]. *)
Definition occ (p s : str) : Prop := exists pre post, s = pre ++ p ++ post.

(** Running a piece of a rewrite body with no failure injected: from a state
    in [P] it finishes, with a value and a state in [Q]. *)
Definition hoare {A} (P : st -> Prop) (m : M A) (Q : A -> st -> Prop) : Prop :=
  forall s, P s -> exists a s', m s None = Done a s' None /\ Q a s'.

(** ** Inferred matplotlib imports *)

Definition agg_directive : str := py "matplotlib.use('Agg')".

(** The rewritten snippet begins with the import block and holds the backend
    directive exactly once. *)
Definition imports_inferred (c : str) : Prop :=
  let out := fst (auto_fix_matplotlib_code None c) in
  startswith out matplotlib_imports = true /\ count_sub agg_directive out = 1.

(** A snippet that calls the plotting interface and holds no import of
    matplotlib. *)
Definition plots_without_import (c : str) : Prop :=
  (contains (py "plt.") c || contains (py "pyplot") c) = true /\
  contains (py "import matplotlib") c = false /\
  contains (py "from matplotlib") c = false.

(** A snippet that mentions matplotlib in a comment only. *)
Definition chart_with_comment : str := py "plt.plot([1, 2])  # matplotlib chart".

(** ** The ampersand rule *)

(** The record the ampersand rule of [html_fixes] appends. *)
Definition amp_fix : str := py "Fixed HTML: & → &amp;".

(** U+003B, the semicolon. *)
Definition semicolon : char := 59%N.

(** ** Requests *)

(** The dialect tag and the snippet as [generate_pdf] reads them (lines
    1067-1068), and the snippet as the form holds it. *)
Definition language_of (rq : request) : str :=
  strip (lower (get (form_language rq) (py "python"))).
Definition user_code_of (rq : request) : str := strip (get (form_code rq) []).
Definition raw_code_of (rq : request) : str := get (form_code rq) [].
Definition user_ip_of (rq : request) : str :=
  get (http_x_forwarded_for rq) (get (remote_addr rq) (py "unknown")).

(** The request passes the validation of lines 1070-1080. *)
Definition validated (rq : request) : Prop :=
  existsb (eqb_str (language_of rq)) supported_languages = true /\
  user_code_of rq <> [].

(** The request passes the safety filter of lines 1082-1098. *)
Definition passes_filter (rq : request) : Prop :=
  security_check dangerous_patterns (user_code_of rq) (lower (user_code_of rq)) = None.

Definition form (language code : str) : request :=
  mkRequest (Some language) (Some code) None (Some (py "127.0.0.1")).

(** ** Inputs the statements are evaluated on *)

(** A story list with an append call and no build call. *)
Definition story_without_build : str :=
  py "story = []" ++ nl ++ py "story.append(Spacer(1, 12))".

(** A snippet with plain double quotes and no typographic character. *)
Definition quoted_assignment : str := py "x = " ++ dq ++ py "a" ++ dq.

Definition smart_quotes_fix : str := py "Fixed smart quotes → regular quotes".

Definition empty_world : world := mkWorld [] [] 0.

(** A host on which nothing fails and snippets leave the files alone. *)
Definition quiet_env : env :=
  mkEnv None (fun _ w => (w, None)) true (fun _ w => (w, None))
        (fun _ w => (w, None)) (fun _ _ => None) 1.

(** A host without weasyprint on which wkhtmltopdf exits with status 1. *)
Definition called_process_error : exn :=
  mkExn ExceptionClass (py "Command returned non-zero exit status 1.").

Definition failing_renderer_env : env :=
  mkEnv None (fun _ w => (w, None)) false (fun _ w => (w, None))
        (fun _ w => (w, Some called_process_error)) (fun _ _ => None) 1.

(** A host on which weasyprint is installed and fails while rendering. *)
Definition failing_weasyprint_env : env :=
  mkEnv None (fun _ w => (w, None)) true
        (fun _ w => (w, Some (mkExn ExceptionClass (py "rendering failed"))))
        (fun _ w => (w, None)) (fun _ _ => None) 1.


(** ** Recorded outcomes *)

Definition entries (E : env) (rq : request) (w : world) : list log_entry :=
  logged (trace (generate_pdf E rq w)).

(** The request reached a strategy, the strategy returned a name, and when
    the answer was prepared a file of that name and of the given size was
    there. *)
Definition artifact_confirmed (E : env) (rq : request) (w : world) (size : N) : Prop :=
  validated rq /\ passes_filter rq /\
  exists fixes p called w1,
    rewrite_and_execute E (language_of rq) (user_code_of rq) w
      = (fixes, Returned (Some p), called, w1) /\
    p <> [] /\ path_exists p w1 = true /\ getsize p w1 = Some size.

(** C1 as stated: success is recorded exactly when an artifact of positive
    size was confirmed, and a recorded success carries a positive size. *)
Definition success_iff_nonempty_artifact (E : env) (rq : request) (w : world) : Prop :=
  ((exists e, In e (entries E rq w) /\ l_success e = true) <->
   (exists size, artifact_confirmed E rq w size /\ (0 < size)%N)) /\
  (forall e, In e (entries E rq w) -> l_success e = true ->
     exists size, l_file_size e = Some size /\ (0 < size)%N).

(** C1 as amended: the size is the size found, whatever it is. *)
Definition success_iff_artifact (E : env) (rq : request) (w : world) : Prop :=
  ((exists e, In e (entries E rq w) /\ l_success e = true) <->
   (exists size, artifact_confirmed E rq w size)) /\
  (forall e, In e (entries E rq w) -> l_success e = true ->
     exists size, artifact_confirmed E rq w size /\ l_file_size e = Some size).

(** A host on which the snippet creates an empty file [empty.pdf]. *)
Definition touch_env : env :=
  mkEnv None
        (fun _ w => (mkWorld (mkFile (py "empty.pdf") 0 1 :: cwd w) (temps w) (next_temp w),
                     None))
        true (fun _ w => (w, None)) (fun _ w => (w, None)) (fun _ _ => None) 1.

Definition touch_request : request :=
  form (py "python") (py "from pathlib import Path; Path('empty.pdf').touch()").

(** ** The safety filter *)

(** Some disallowed pattern occurs in the snippet, letter case apart. *)
Definition has_dangerous_pattern (snippet : str) : Prop :=
  exists p, In p dangerous_patterns /\ contains p (lower snippet) = true.

(** Some allow-listed text occurs in the snippet as it is written. *)
Definition has_carve_out (snippet : str) : Prop :=
  exists safe, In safe safe_contexts /\ contains safe snippet = true.

(** [p] is the first pattern, in the order of the list, that occurs in
    [text]. *)
Definition first_match (p text : str) : Prop :=
  exists before rest,
    dangerous_patterns = before ++ p :: rest /\ contains p text = true /\
    forall q, In q before -> contains q text = false.

(** The request is answered by the filter: status 400, the pattern named,
    one record of a failure, and nothing else called. *)
Definition filter_rejects (E : env) (rq : request) (w : world) (p : str) : Prop :=
  reply (generate_pdf E rq w)
    = Returned (Response (py "Code contains potentially dangerous pattern: " ++ p) 400) /\
  (exists e, trace (generate_pdf E rq w) = [Logged e] /\ l_success e = false) /\
  after (generate_pdf E rq w) = w.

(** ** The dialect tag *)

Definition rejected_as_unsupported (E : env) (rq : request) (w : world) : Prop :=
  exists detail,
    reply (generate_pdf E rq w)
      = Returned (Response (py "Unsupported language: " ++ detail) 400).

(** The same request with the tag [l] written out. *)
Definition tagged (rq : request) (l : str) : request :=
  mkRequest (Some l) (form_code rq) (http_x_forwarded_for rq) (remote_addr rq).

(** The request is processed as dialect [l]: the tag validated is [l]; the
    request is not turned down as an unknown dialect; every record it
    leaves names [l]; its run is the run of the same request with the tag
    [l] written out; and when its snippet is not blank and passes the
    safety filter, the first thing done is the call of the rewrite function
    of dialect [l]. *)
Definition accepted_as (E : env) (rq : request) (w : world) (l : str) : Prop :=
  language_of rq = l /\ ~ rejected_as_unsupported E rq w /\
  (forall e, In e (entries E rq w) -> l_language e = l) /\
  generate_pdf E rq w = generate_pdf E (tagged rq l) w /\
  (user_code_of rq <> [] -> passes_filter rq ->
   exists rest, trace (generate_pdf E rq w) = Rewrote l :: rest).

Definition eval_request : request :=
  form (py "python") (py "x = EVAL('1') or exec('2')").

Definition shouted_request : request :=
  mkRequest (Some (py " PYTHON ")) (Some (py "print(1)")) None None.

(** ** Failures inside a rewrite call *)

(** The body of the rewrite function of a dialect, and the function. *)
Definition rewrite_body (language : str) : option (M unit) :=
  if eqb_str language (py "python") then Some auto_fix_python_body
  else if eqb_str language (py "html") then Some auto_fix_html_body
  else if eqb_str language (py "matplotlib") then Some auto_fix_matplotlib_body
  else if eqb_str language (py "javascript") then Some auto_fix_javascript_body
  else None.

Definition auto_fix (language : str) (fault : option (nat * str)) (c : str)
  : outcome (str * list str) :=
  if eqb_str language (py "python") then Returned (auto_fix_python_code fault c)
  else if eqb_str language (py "html") then Returned (auto_fix_html_code fault c)
  else if eqb_str language (py "matplotlib") then Returned (auto_fix_matplotlib_code fault c)
  else auto_fix_javascript_code fault c.

Definition rewrite_failure_record (msg : str) : str :=
  py "Auto-fix encountered error: " ++ msg.

(** C5 as stated, on one request: when a statement of the rewrite body
    raises, the rewrite function returns the state reached with one record
    more, and the strategy is called on the code reached. *)
Definition failure_contained (E : env) (rq : request) (w : world) : Prop :=
  forall body n msg s,
    rewrite_body (language_of rq) = Some body ->
    rewrite_fault E = Some (n, msg) ->
    body (init (user_code_of rq)) (Some n) = Raised s ->
    auto_fix (language_of rq) (rewrite_fault E) (user_code_of rq)
      = Returned (code s, fixes_applied s ++ [rewrite_failure_record msg]) /\
    exists rest,
      trace (generate_pdf E rq w)
        = Rewrote (language_of rq) :: Executed (language_of rq) (code s) :: rest.

(** What happens instead where the rewrite function has no handler: the
    exception leaves it, the coordinator answers 500 and calls no strategy. *)
Definition failure_escapes (E : env) (rq : request) (w : world) : Prop :=
  forall body n msg s,
    rewrite_body (language_of rq) = Some body ->
    rewrite_fault E = Some (n, msg) ->
    body (init (user_code_of rq)) (Some n) = Raised s ->
    auto_fix (language_of rq) (rewrite_fault E) (user_code_of rq)
      = Raises (mkExn ExceptionClass msg) /\
    reply (generate_pdf E rq w)
      = Returned (Response (py "Code execution error: " ++ msg) 500) /\
    exists e,
      trace (generate_pdf E rq w) = [Rewrote (language_of rq); Logged e] /\
      l_success e = false /\ l_fixes_applied e = Some [].

(** A host on which the first statement of the rewrite call raises. *)
Definition faulty_env (n : nat) : env :=
  mkEnv (Some (n, py "boom")) (fun _ w => (w, None)) true (fun _ w => (w, None))
        (fun _ w => (w, None)) (fun _ _ => None) 1.

Definition javascript_request : request :=
  form (py "javascript") (py "const doc = new jsPDF();").

Definition matplotlib_request : request :=
  form (py "matplotlib") (py "plt.plot([1, 2])").

(* ================================================================== *)
(** * Further notions: the coordinator *)
(* ================================================================== *)

(** A request whose snippet is white space only. *)
Definition blank_request : request :=
  mkRequest (Some (py "html")) (Some (py "   " ++ nl ++ py "  ")) None None.

(** A snippet that quotes the allow-listed text and calls [eval]. *)
Definition carve_out_request : request :=
  form (py "python")
       (py "# exec(compile(open(temp_file_path).read()" ++ nl ++ py "eval('1+1')").

(** A working directory that holds one older PDF. *)
Definition old_report : file := mkFile (py "report.pdf") 1024 7.
Definition world_with_pdf : world := mkWorld [old_report] [] 0.

(** A host on which sending a file fails. *)
Definition broken_pipe : exn := mkExn ExceptionClass (py "[Errno 32] Broken pipe").
Definition broken_pipe_env : env :=
  mkEnv None (fun _ w => (w, None)) true (fun _ w => (w, None))
        (fun _ w => (w, None)) (fun _ _ => Some broken_pipe) 1.

(** A host on which the snippet stops the interpreter. *)
Definition system_exit : exn := mkExn BaseExceptionClass (py "0").
Definition exiting_env : env :=
  mkEnv None (fun _ w => (w, Some system_exit)) true (fun _ w => (w, None))
        (fun _ w => (w, None)) (fun _ _ => None) 1.

Definition print_request : request := form (py "python") (py "print(1)").

(** The file a strategy call writes its snippet to. *)
Definition temp_of (w : world) : N := next_temp w.

(** The names of the working directory that end in [.pdf]. *)
Definition is_pdf (f : file) : bool := endswith (f_name f) (py ".pdf").

(* ================================================================== *)
(** * Further notions: the rewrite rule sets *)
(* ================================================================== *)

(** [reach_free p x]: an occurrence of [p] that starts before a copy of [x]
    cannot reach into the copy.  [apart p x]: an occurrence of [p] cannot
    overlap a copy of [x] at all, whatever surrounds the copy. *)
Fixpoint reach_free (p x : str) : bool :=
  match p with
  | [] => true
  | _ :: p' =>
    match p' with
    | [] => true
    | _ :: _ => clash p' x
    end && reach_free p' x
  end.

Definition apart (p x : str) : bool := clear_of p x && reach_free p x.

(** The two lines [auto_fix_javascript_code] can add. *)
Definition jspdf_require : str := py "const { jsPDF } = require('jspdf');" ++ nl.
Definition jspdf_save : str := nl ++ py "doc.save('document.pdf');".

(** The tests of the two javascript rules. *)
Definition wants_require (c : str) : bool :=
  contains (py "jsPDF") c && negb (contains (py "require(") c)
  && negb (contains (py "import") c).
Definition wants_save (c : str) : bool :=
  negb (contains (py "doc.save(") c) && contains (py "new jsPDF()") c.

(** The record of the rule that comments [plt.show()] out. *)
Definition show_fix : str :=
  py "Fixed matplotlib: plt.show() → # plt.show() removed for PDF generation".

(** U+0023, the number sign. *)
Definition hash : char := 35%N.

(** Nothing was recorded only if nothing was changed. *)
Definition quiet_means_unchanged (c : str) (s : st) : Prop :=
  fixes_applied s = [] -> code s = c.

Definition structure_fix : str := py "Added complete HTML5 document structure".


(** ** The python rules after the import rule *)

(** The record of the import rule (line 718). *)
Definition python_import_record : str := py "Added comprehensive ReportLab imports".

(** The texts the rules after the import rule look for and replace. *)
Definition python_later_olds : list str :=
  map fst path_fixes ++ map (fun entry => fst entry ++ py " =") var_fixes
  ++ map fst alignment_fixes ++ map fst syntax_fixes ++ [py "build_pdf()"].

(** The text the story rule looks for and the line it inserts. *)
Definition template_call : str := py "pdf = SimpleDocTemplate(".
Definition story_line : str := nl ++ py "story = []".
Example py_arrow : py "a → b" = [97; 32; 8594; 32; 98]%N.
Proof. reflexivity. Qed.
Example replace_ex : replace (py "aXXbXXX") (py "XX") (py "-") = py "a-b-X".
Proof. reflexivity. Qed.
Example split_ex : split (py "a, b,c") (py ",") = [py "a"; py " b"; py "c"].
Proof. reflexivity. Qed.
Example strip_ex : strip (lower (py " PYTHON ")) = py "python".
Proof. reflexivity. Qed.
Example find_ex :
  find_from (py "ab" ++ nl ++ py "cd" ++ nl) nl 3 = 5%Z /\ find (py "abc") (py "x") = (-1)%Z.
Proof. split; reflexivity. Qed.


(* ================================================================== *)
(** * Facts about Python strings *)
(* ================================================================== *)

Lemma startswith_spec (s p : str) :
  startswith s p = true <-> exists r, s = p ++ r.
Proof.
  revert s; induction p as [|a p IH]; intros s; simpl.
  - split; [intros _; exists s; reflexivity | reflexivity].
  - destruct s as [|b s].
    + split; [discriminate | intros [r H]; discriminate].
    + rewrite andb_true_iff, N.eqb_eq, IH. split.
      * intros [-> [r ->]]. exists r; reflexivity.
      * intros [r H]. injection H as -> ->. split; [reflexivity | exists r; reflexivity].
Qed.

Lemma startswith_app (p r : str) : startswith (p ++ r) p = true.
Proof. apply startswith_spec. exists r; reflexivity. Qed.

Lemma contains_spec (p s : str) : contains p s = true <-> occ p s.
Proof.
  induction s as [|c s IH]; simpl.
  - rewrite orb_false_r, startswith_spec. split.
    + intros [r H]. exists [], r. exact H.
    + intros [pre [post H]]. destruct pre; [|discriminate].
      exists post. exact H.
  - rewrite orb_true_iff, startswith_spec, IH. split.
    + intros [[r H] | [pre [post H]]].
      * exists [], r. exact H.
      * exists (c :: pre), post. rewrite H. reflexivity.
    + intros [pre [post H]]. destruct pre as [|c' pre].
      * left. exists post. exact H.
      * right. injection H as _ H. exists pre, post. exact H.
Qed.

Lemma contains_false (p s : str) : contains p s = false <-> ~ occ p s.
Proof.
  rewrite <- contains_spec. destruct (contains p s); split; intros H;
    try reflexivity; try discriminate; try (intros H'; discriminate).
  exfalso; apply H; reflexivity.
Qed.

Lemma occ_app_l (p a b : str) : occ p a -> occ p (a ++ b).
Proof.
  intros [pre [post ->]]. exists pre, (post ++ b). now rewrite <- !app_assoc.
Qed.

Lemma occ_app_r (p a b : str) : occ p b -> occ p (a ++ b).
Proof.
  intros [pre [post ->]]. exists (a ++ pre), post. now rewrite <- !app_assoc.
Qed.

Lemma occ_trans (p q s : str) : occ p q -> occ q s -> occ p s.
Proof.
  intros [a [b ->]] [pre [post ->]].
  exists (pre ++ a), (b ++ post). now rewrite <- !app_assoc.
Qed.

Lemma contains_app_l (p a b : str) : contains p a = true -> contains p (a ++ b) = true.
Proof. rewrite !contains_spec. apply occ_app_l. Qed.

Lemma contains_app_r (p a b : str) : contains p b = true -> contains p (a ++ b) = true.
Proof. rewrite !contains_spec. apply occ_app_r. Qed.

(** An occurrence of [p] in [a ++ c :: b] that cannot hold [c] lies in [a]
    or in [b]. *)
Lemma occ_split_char (p a b : str) (c : char) :
  ~ In c p -> occ p (a ++ c :: b) -> occ p a \/ occ p b.
Proof.
  intros Hc [pre [post H]].
  apply app_eq_app in H. destruct H as [l [[Ha Hb] | [Ha Hb]]].
  - (* a = pre ++ l,  p ++ post = l ++ c :: b *)
    symmetry in Hb. apply app_eq_app in Hb. destruct Hb as [l2 [[Hl Hp] | [Hl Hp]]].
    + (* l = p ++ l2 *) left. exists pre, l2. now rewrite Ha, Hl.
    + (* p = l ++ l2,  c :: b = l2 ++ post *)
      destruct l2 as [|x l2].
      * left. exists pre, []. rewrite Ha, Hl, !app_nil_r. reflexivity.
      * injection Hp as -> _. exfalso. apply Hc. rewrite Hl.
        apply in_or_app. right. left. reflexivity.
  - (* pre = a ++ l,  c :: b = l ++ p ++ post *)
    destruct l as [|x l].
    + destruct p as [|y p].
      * left. exists a, []. now rewrite app_nil_r.
      * injection Hb as -> _. exfalso. apply Hc. left. reflexivity.
    + injection Hb as _ Hb. right. exists l, post. exact Hb.
Qed.

Lemma clash_startswith (p x r : str) :
  clash p x = true -> startswith (x ++ r) p = false.
Proof.
  revert x; induction p as [|a p IH]; intros [|b x]; simpl; try discriminate.
  rewrite orb_true_iff, negb_true_iff. intros [H | H].
  - rewrite N.eqb_sym in H. rewrite N.eqb_sym, H. reflexivity.
  - rewrite (IH _ H). apply andb_false_r.
Qed.

(** No occurrence of [p] starts inside [x]. *)
Lemma clear_of_contains (p x r : str) :
  clear_of p x = true -> contains p (x ++ r) = contains p r.
Proof.
  induction x as [|c x IH]; simpl; [reflexivity|].
  rewrite andb_true_iff. intros [Hc Hx].
  pose proof (clash_startswith p (c :: x) r Hc) as E. simpl in E.
  rewrite E. simpl. apply IH, Hx.
Qed.

Lemma existsb_eqb_false (c : char) (p : str) :
  existsb (N.eqb c) p = false -> ~ In c p.
Proof.
  intros H Hin. assert (existsb (N.eqb c) p = true) as H'.
  { apply existsb_exists. exists c. split; [exact Hin | apply N.eqb_refl]. }
  congruence.
Qed.

(** An occurrence of [p] next to a copy of [x] it cannot overlap lies before
    or after the copy. *)
Lemma occ_around (p x a b : str) :
  untouched p x = true -> occ p (a ++ x ++ b) -> occ p a \/ occ p b.
Proof.
  destruct x as [|c x]; simpl; [discriminate|].
  rewrite andb_true_iff, negb_true_iff. intros [Hc Hx] H.
  apply occ_split_char in H; [|apply existsb_eqb_false, Hc].
  destruct H as [H | H]; [left; exact H | right].
  apply contains_spec. rewrite <- (clear_of_contains p x b Hx).
  apply contains_spec, H.
Qed.

Lemma contains_around (p x a b : str) :
  untouched p x = true ->
  contains p (a ++ x ++ b) = contains p a || contains p b.
Proof.
  intros Hx. destruct (contains p (a ++ x ++ b)) eqn:H.
  - apply contains_spec, (occ_around _ _ _ _ Hx) in H. symmetry.
    apply orb_true_iff. rewrite !contains_spec. exact H.
  - symmetry. apply orb_false_iff. split; apply contains_false; intros Ho;
      apply contains_false in H; apply H.
    + apply occ_app_l, Ho.
    + apply occ_app_r, occ_app_r, Ho.
Qed.

(** ** [replace] *)

Lemma replace_from_skip (old new : str) (k : nat) (s : str) :
  replace_from old new k s = replace_from old new 0 (skipn k s).
Proof.
  revert k; induction s as [|c s IH]; intros [|k]; simpl; auto.
Qed.

Lemma replace_from_hit (old new r : str) :
  old <> [] ->
  replace_from old new 0 (old ++ r) = new ++ replace_from old new 0 r.
Proof.
  destruct old as [|a o]; [congruence|]. intros _.
  change ((a :: o) ++ r) with (a :: (o ++ r)).
  cbn [replace_from].
  change (a :: (o ++ r)) with ((a :: o) ++ r). rewrite startswith_app.
  rewrite replace_from_skip. cbn [length]. rewrite Nat.sub_succ, Nat.sub_0_r.
  rewrite skipn_app, skipn_all, Nat.sub_diag. reflexivity.
Qed.

Lemma replace_from_miss (old new : str) (c : char) (s : str) :
  startswith (c :: s) old = false ->
  replace_from old new 0 (c :: s) = c :: replace_from old new 0 s.
Proof. intros H. cbn [replace_from]. rewrite H. reflexivity. Qed.

Lemma replace_nonempty (s old new : str) :
  old <> [] -> replace s old new = replace_from old new 0 s.
Proof. destruct old; [congruence | reflexivity]. Qed.

(** The way [replace] relates its argument to its result: characters that
    start no occurrence are copied, an occurrence is traded for [new]. *)
Lemma replace_rel (old new : str) (R : str -> str -> Prop) :
  old <> [] ->
  R [] [] ->
  (forall c s t, startswith (c :: s) old = false -> R s t -> R (c :: s) (c :: t)) ->
  (forall s t, R s t -> R (old ++ s) (new ++ t)) ->
  forall s, R s (replace s old new).
Proof.
  intros Hold Hnil Hcopy Hhit s. rewrite replace_nonempty by exact Hold.
  remember (length s) as n eqn:Hn. revert s Hn.
  induction n as [n IH] using lt_wf_ind. intros s Hn.
  destruct s as [|c s]; [exact Hnil|].
  destruct (startswith (c :: s) old) eqn:Hs.
  - apply startswith_spec in Hs. destruct Hs as [r Hr]. rewrite Hr.
    rewrite replace_from_hit by exact Hold. apply Hhit.
    apply (IH (length r)); [|reflexivity].
    rewrite Hn, Hr, length_app. destruct old; [congruence | simpl; lia].
  - rewrite replace_from_miss by exact Hs. apply Hcopy; [exact Hs|].
    apply (IH (length s)); [rewrite Hn; simpl; lia | reflexivity].
Qed.

Lemma replace_same (s old : str) : old <> [] -> replace s old old = s.
Proof.
  intros Hold. symmetry.
  apply (replace_rel old old (fun s t => s = t)); try congruence.
Qed.

(** Replacing by a text [p] cannot overlap does not bring [p] in. *)
Lemma replace_keeps_absent (p s old new : str) :
  old <> [] -> untouched p new = true ->
  contains p s = false -> contains p (replace s old new) = false.
Proof.
  intros Hold Hnew H. apply contains_false. apply contains_false in H.
  assert (forall a, ~ occ p (a ++ s) -> ~ occ p (a ++ replace s old new)) as G.
  { apply (replace_rel old new
             (fun s t => forall a, ~ occ p (a ++ s) -> ~ occ p (a ++ t))); try exact Hold.
    - auto.
    - intros c s0 t _ IH a Ha.
      change (a ++ c :: t) with (a ++ [c] ++ t). rewrite app_assoc.
      apply IH. rewrite <- app_assoc. exact Ha.
    - intros s0 t IH a Ha Ho.
      apply (occ_around _ _ _ _ Hnew) in Ho. destruct Ho as [Ho | Ho].
      + apply Ha, occ_app_l, Ho.
      + apply (IH []); [|exact Ho]. simpl. intros Hs.
        apply Ha, occ_app_r, occ_app_r, Hs. }
  apply (G []). exact H.
Qed.

(** Replacing a text [p] cannot overlap does not take [p] out. *)
Lemma replace_keeps_present (p s old new : str) :
  old <> [] -> untouched p old = true ->
  contains p s = true -> contains p (replace s old new) = true.
Proof.
  intros Hold Hp H. apply contains_spec. apply contains_spec in H.
  assert (forall a, occ p (a ++ s) -> occ p (a ++ replace s old new)) as G.
  { apply (replace_rel old new
             (fun s t => forall a, occ p (a ++ s) -> occ p (a ++ t))); try exact Hold.
    - auto.
    - intros c s0 t _ IH a Ha.
      change (a ++ c :: t) with (a ++ [c] ++ t). rewrite app_assoc.
      apply IH. rewrite <- app_assoc. exact Ha.
    - intros s0 t IH a Ha.
      apply (occ_around _ _ _ _ Hp) in Ha. destruct Ha as [Ha | Ha].
      + apply occ_app_l, Ha.
      + apply occ_app_r, occ_app_r. apply (IH []), Ha. }
  apply (G []). exact H.
Qed.

(** A prefix in which no occurrence of [old] can start is copied. *)
Lemma replace_prefix (pre x old new : str) :
  old <> [] -> clear_of old pre = true ->
  replace (pre ++ x) old new = pre ++ replace x old new.
Proof.
  intros Hold. rewrite !replace_nonempty by exact Hold.
  induction pre as [|c pre IH]; [reflexivity|].
  cbn [clear_of]. rewrite andb_true_iff. intros [Hc Hpre].
  change ((c :: pre) ++ x) with (c :: (pre ++ x)).
  rewrite replace_from_miss.
  - rewrite (IH Hpre). reflexivity.
  - apply (clash_startswith old (c :: pre) x Hc).
Qed.



(** ** Counting characters *)

Lemma count_char_app (c : char) (a b : str) :
  count_char c (a ++ b) = count_char c a + count_char c b.
Proof. unfold count_char. rewrite filter_app, length_app. reflexivity. Qed.

Lemma count_char_cons (c x : char) (s : str) :
  count_char c (x :: s) = count_char c [x] + count_char c s.
Proof. apply (count_char_app c [x] s). Qed.

Lemma count_char_replace (c : char) (s old new : str) :
  old <> [] -> count_char c old <= count_char c new ->
  count_char c s <= count_char c (replace s old new).
Proof.
  intros Hold Hle.
  apply (replace_rel old new (fun s t => count_char c s <= count_char c t));
    try exact Hold.
  - lia.
  - intros x s0 t _ IH. rewrite (count_char_cons c x s0), (count_char_cons c x t). lia.
  - intros s0 t IH. rewrite !count_char_app. lia.
Qed.

Lemma count_char_replace_lt (c : char) (s old new : str) :
  old <> [] -> count_char c old < count_char c new ->
  contains old s = true ->
  count_char c s < count_char c (replace s old new).
Proof.
  intros Hold Hlt Hin.
  assert (count_char c s <= count_char c (replace s old new) /\
          (occ old s -> count_char c s < count_char c (replace s old new))) as G.
  { apply (replace_rel old new
      (fun s t => count_char c s <= count_char c t /\
                  (occ old s -> count_char c s < count_char c t))); try exact Hold.
    - split; [lia|]. intros [pre [post H]].
      destruct pre; destruct old; try congruence; discriminate.
    - intros x s0 t Hs [IH1 IH2].
      rewrite (count_char_cons c x s0), (count_char_cons c x t). split; [lia|].
      intros Ho. apply contains_spec in Ho. simpl in Ho. rewrite Hs in Ho. simpl in Ho.
      apply contains_spec, IH2 in Ho. lia.
    - intros s0 t [IH1 IH2]. rewrite !count_char_app. split; lia. }
  apply G, contains_spec, Hin.
Qed.

(** ** Counting occurrences *)

Lemma count_sub_zero (p s : str) : contains p s = false -> count_sub p s = 0.
Proof.
  induction s as [|c s IH]; simpl.
  - rewrite orb_false_r. intros ->. reflexivity.
  - rewrite orb_false_iff. intros [-> H]. rewrite (IH H). reflexivity.
Qed.

Lemma startswith_extend (s p r : str) :
  startswith s p = true -> startswith (s ++ r) p = true.
Proof.
  rewrite !startswith_spec. intros [q ->]. exists (q ++ r). now rewrite app_assoc.
Qed.

Lemma count_sub_settled (p pre x : str) :
  p <> [] -> settled p pre = true ->
  count_sub p (pre ++ x) = count_sub p pre + count_sub p x.
Proof.
  intros Hp. induction pre as [|c pre IH].
  - intros _. destruct p; [congruence | reflexivity].
  - cbn [settled]. rewrite andb_true_iff, orb_true_iff. intros [Hc Hpre].
    change ((c :: pre) ++ x) with (c :: (pre ++ x)). cbn [count_sub].
    rewrite (IH Hpre).
    change (c :: (pre ++ x)) with ((c :: pre) ++ x).
    destruct Hc as [Hc | Hc].
    + rewrite (startswith_extend _ _ x Hc), Hc. lia.
    + rewrite (clash_startswith _ _ x Hc).
      pose proof (clash_startswith _ _ [] Hc) as E. rewrite app_nil_r in E.
      rewrite E. lia.
Qed.

(** ** [strip] and [lower] *)

Lemma lstrip_spaces (pre s : str) :
  forallb is_space pre = true -> lstrip (pre ++ s) = lstrip s.
Proof.
  induction pre as [|c pre IH]; simpl; [reflexivity|].
  rewrite andb_true_iff. intros [-> H]. apply IH, H.
Qed.

Lemma lstrip_length (s : str) : length (lstrip s) <= length s.
Proof.
  induction s as [|c s IH]; simpl; [lia|]. destruct (is_space c); simpl; lia.
Qed.

Lemma lstrip_fixed_app (s r : str) :
  s <> [] -> lstrip s = s -> lstrip (s ++ r) = s ++ r.
Proof.
  destruct s as [|c s]; [congruence|]. intros _. simpl.
  destruct (is_space c); [|reflexivity].
  intros H. pose proof (lstrip_length s) as L. rewrite H in L. simpl in L. lia.
Qed.

(** A text with no white space at either end, between white space, is what
    [strip] returns. *)
Lemma strip_core (pre core post : str) :
  forallb is_space pre = true -> forallb is_space post = true ->
  lstrip core = core -> lstrip (rev core) = rev core ->
  strip (pre ++ core ++ post) = core.
Proof.
  intros Hpre Hpost Hl Hr. unfold strip, rstrip. rewrite (lstrip_spaces _ _ Hpre).
  assert (forallb is_space (rev post) = true) as Hpost'.
  { rewrite forallb_forall in *. intros x Hx. apply Hpost, in_rev, Hx. }
  destruct core as [|c core].
  - simpl. pose proof (lstrip_spaces post [] Hpost) as E.
    rewrite app_nil_r in E. rewrite E. reflexivity.
  - rewrite (lstrip_fixed_app (c :: core) post) by (congruence || exact Hl).
    rewrite rev_app_distr, (lstrip_spaces _ _ Hpost'), Hr. apply rev_involutive.
Qed.

Lemma occ_rev (p s : str) : occ p s -> occ (rev p) (rev s).
Proof.
  intros [pre [post ->]]. exists (rev post), (rev pre).
  rewrite !rev_app_distr, <- app_assoc. reflexivity.
Qed.

Lemma contains_rev (p s : str) : contains (rev p) (rev s) = contains p s.
Proof.
  destruct (contains p s) eqn:H.
  - apply contains_spec, occ_rev, contains_spec, H.
  - apply contains_false. intros Ho. apply contains_false in H. apply H.
    apply occ_rev in Ho. rewrite !rev_involutive in Ho. exact Ho.
Qed.

(** White space at the start of [s] holds no occurrence of a text that
    starts with another character. *)
Lemma contains_lstrip (a : char) (p s : str) :
  is_space a = false -> contains (a :: p) (lstrip s) = contains (a :: p) s.
Proof.
  intros Ha. induction s as [|c s IH]; [reflexivity|].
  cbn [lstrip]. destruct (is_space c) eqn:Hc; [|reflexivity].
  rewrite IH. cbn [contains startswith].
  destruct (N.eqb_spec a c) as [-> | _]; [congruence | reflexivity].
Qed.

Lemma contains_strip (p s : str) (a b : char) (p1 p2 : str) :
  p = a :: p1 -> rev p = b :: p2 -> is_space a = false -> is_space b = false ->
  contains p (strip s) = contains p s.
Proof.
  intros -> Hrev Ha Hb. unfold strip, rstrip.
  rewrite <- contains_rev, rev_involutive, Hrev, (contains_lstrip b p2 _ Hb).
  rewrite <- Hrev, contains_rev. apply (contains_lstrip a p1 _ Ha).
Qed.

Lemma letter_not_space (c : char) : (65 <= c <= 122)%N -> is_space c = false.
Proof.
  intros H. unfold is_space.
  rewrite (proj2 (N.leb_gt c 13)) by lia.
  rewrite (proj2 (N.leb_gt c 32)) by lia.
  rewrite (proj2 (N.eqb_neq c 133)) by lia.
  rewrite (proj2 (N.eqb_neq c 160)) by lia.
  rewrite (proj2 (N.eqb_neq c 5760)) by lia.
  rewrite (proj2 (N.leb_gt 8192 c)) by lia.
  rewrite (proj2 (N.eqb_neq c 8232)) by lia.
  rewrite (proj2 (N.eqb_neq c 8233)) by lia.
  rewrite (proj2 (N.eqb_neq c 8239)) by lia.
  rewrite (proj2 (N.eqb_neq c 8287)) by lia.
  rewrite (proj2 (N.eqb_neq c 12288)) by lia.
  rewrite !andb_false_r. reflexivity.
Qed.

Lemma is_space_lower (c : char) : is_space (lower_char c) = is_space c.
Proof.
  unfold lower_char. destruct ((65 <=? c) && (c <=? 90))%N eqn:H; [|reflexivity].
  apply andb_true_iff in H. destruct H as [H1 H2].
  apply N.leb_le in H1, H2.
  rewrite !letter_not_space by lia. reflexivity.
Qed.

Lemma lstrip_lower (s : str) : lstrip (lower s) = lower (lstrip s).
Proof.
  induction s as [|c s IH]; [reflexivity|]. simpl.
  rewrite is_space_lower. destruct (is_space c); [exact IH | reflexivity].
Qed.

Lemma strip_lower (s : str) : strip (lower s) = lower (strip s).
Proof.
  unfold strip, rstrip, lower. fold (lower s).
  rewrite lstrip_lower. unfold lower.
  rewrite <- map_rev. fold (lower (rev (lstrip s))).
  rewrite lstrip_lower. unfold lower. rewrite map_rev. reflexivity.
Qed.

Lemma lower_spaces (s : str) :
  forallb is_space s = true -> forallb is_space (lower s) = true.
Proof.
  induction s as [|c s IH]; simpl; [reflexivity|].
  rewrite !andb_true_iff, is_space_lower. intros [H1 H2]. split; [exact H1 | apply IH, H2].
Qed.

(* ================================================================== *)
(** * Reasoning on rewrite bodies that run with no failure *)
(* ================================================================== *)

Section HoareRules.
Local Open Scope rw_scope.

Lemma hoare_conseq {A} (P P' : st -> Prop) (Q Q' : A -> st -> Prop) (m : M A) :
  hoare P' m Q' -> (forall s, P s -> P' s) -> (forall a s, Q' a s -> Q a s) ->
  hoare P m Q.
Proof.
  intros H HP HQ s Hs. destruct (H s (HP s Hs)) as [a [s' [E Hq]]].
  exists a, s'. split; [exact E | apply HQ, Hq].
Qed.

Lemma hoare_ret {A} (P : st -> Prop) (Q : A -> st -> Prop) (a : A) :
  (forall s, P s -> Q a s) -> hoare P (ret a) Q.
Proof. intros H s Hs. exists a, s. split; [reflexivity | apply H, Hs]. Qed.

Lemma hoare_bind {A B} (P : st -> Prop) (R : A -> st -> Prop) (Q : B -> st -> Prop)
      (m : M A) (k : A -> M B) :
  hoare P m R -> (forall a, hoare (R a) (k a) Q) -> hoare P (bind m k) Q.
Proof.
  intros Hm Hk s Hs. destruct (Hm s Hs) as [a [s1 [E1 H1]]].
  destruct (Hk a s1 H1) as [b [s2 [E2 H2]]].
  exists b, s2. split; [|exact H2]. unfold bind. rewrite E1. exact E2.
Qed.

Lemma hoare_eval {A} (P : st -> Prop) (Q : A -> st -> Prop) (e : st -> A) :
  (forall s, P s -> Q (e s) s) -> hoare P (eval e) Q.
Proof. intros H s Hs. exists (e s), s. split; [reflexivity | apply H, Hs]. Qed.

Lemma hoare_stmt (P : st -> Prop) (Q : unit -> st -> Prop) (g : st -> st) :
  (forall s, P s -> Q tt (g s)) -> hoare P (stmt g) Q.
Proof. intros H s Hs. exists tt, (g s). split; [reflexivity | apply H, Hs]. Qed.

Lemma hoare_ifM (P : st -> Prop) (Q : unit -> st -> Prop) (c : str -> bool)
      (t e : M unit) :
  hoare (fun s => P s /\ c (code s) = true) t Q ->
  hoare (fun s => P s /\ c (code s) = false) e Q ->
  hoare P (ifM c t e) Q.
Proof.
  intros Ht He. unfold ifM.
  apply (hoare_bind P (fun b s => P s /\ c (code s) = b)).
  - apply hoare_eval. auto.
  - intros [|]; assumption.
Qed.

Lemma hoare_when (P : st -> Prop) (Q : unit -> st -> Prop) (c : str -> bool)
      (t : M unit) :
  hoare (fun s => P s /\ c (code s) = true) t Q ->
  (forall s, P s -> c (code s) = false -> Q tt s) ->
  hoare P (when c t) Q.
Proof.
  intros Ht Hskip. apply hoare_ifM; [exact Ht|].
  apply hoare_ret. intros s [Hs Hc]. apply Hskip; assumption.
Qed.

(** [code = g(code); fixes_applied.append(m)] *)
Lemma hoare_fix (P : st -> Prop) (Q : st -> Prop) (g : str -> str) (m : str) :
  (forall s, P s -> Q (mkSt (g (code s)) (fixes_applied s ++ [m]))) ->
  hoare P (assign g ;; append_fix m) (fun _ => Q).
Proof.
  intros H.
  apply (hoare_bind _ (fun _ s' => exists s, P s /\
                                   s' = mkSt (g (code s)) (fixes_applied s))).
  - apply hoare_stmt. intros s Hs. exists s. auto.
  - intros _. apply hoare_stmt. intros s' [s [Hs ->]]. simpl. apply H, Hs.
Qed.

(** The shape of most rules: [if c: code = g(code); fixes_applied.append(m)]. *)
Lemma hoare_rule (P : st -> Prop) (Q : st -> Prop) (c : str -> bool)
      (g : str -> str) (m : str) :
  (forall s, P s -> c (code s) = true ->
             Q (mkSt (g (code s)) (fixes_applied s ++ [m]))) ->
  (forall s, P s -> c (code s) = false -> Q s) ->
  hoare P (when c (assign g ;; append_fix m)) (fun _ => Q).
Proof.
  intros Hfire Hskip. apply hoare_when; [|exact Hskip].
  apply hoare_fix. intros s [Hs Hc]. apply Hfire; assumption.
Qed.

Lemma hoare_for_each {A} (I : st -> Prop) (l : list A) (body : A -> M unit) :
  (forall x, In x l -> hoare I (body x) (fun _ => I)) ->
  hoare I (for_each l body) (fun _ => I).
Proof.
  induction l as [|x l IH]; intros H; simpl.
  - apply hoare_ret. auto.
  - apply (hoare_bind _ (fun _ => I)).
    + apply H. left. reflexivity.
    + intros _. apply IH. intros y Hy. apply H. right. exact Hy.
Qed.

Lemma hoare_fix_table (I : st -> Prop) (table : list (str * str))
      (msg : str -> str -> str) :
  (forall old new s, In (old, new) table -> I s -> contains old (code s) = true ->
     I (mkSt (replace (code s) old new) (fixes_applied s ++ [msg old new]))) ->
  hoare I (fix_table table msg) (fun _ => I).
Proof.
  intros H. unfold fix_table. apply hoare_for_each. intros [old new] Hin.
  apply hoare_rule; [|auto]. intros s Hs Hc. apply H; assumption.
Qed.

(** A rewrite function called with no failure injected returns the state its
    body ends in. *)
Lemma try_body_hoare (P : st -> Prop) (Q : unit -> st -> Prop) (body : M unit) (c : str) :
  hoare P body Q -> P (init c) ->
  exists s', try_body body None c = result s' /\ Q tt s'.
Proof.
  intros H Hc. destruct (H _ Hc) as [[] [s' [E Hq]]].
  exists s'. split; [|exact Hq]. unfold try_body. simpl. rewrite E. reflexivity.
Qed.

End HoareRules.

(** After a rule of the chain: forget the value it returned. *)
Ltac step := let u := fresh "u" in intros u; cbv beta; clear u.

(* ================================================================== *)
(** * The matplotlib rule set *)
(* ================================================================== *)

Section Matplotlib.
Local Open Scope rw_scope.

Let mpl : str := py "matplotlib".

(** Before the import rule: the word is absent, a plotting call is there. *)
Let plots (s : st) : Prop :=
  contains mpl (code s) = false /\
  (contains (py "plt.") (code s) || contains (py "pyplot") (code s)) = true.

(** After the import rule: the block, then a text without the word. *)
Let headed (s : st) : Prop :=
  exists x, code s = matplotlib_imports ++ x /\ contains mpl x = false.

Lemma quote_old3_nonempty : quote_old3 <> [].
Proof. discriminate. Qed.

Lemma dq_nonempty : dq <> [].
Proof. discriminate. Qed.

(** What the assignment of the quote rule does, as the file stands. *)
Lemma quote_assignment (c : str) :
  replace (replace (replace c dq dq) dq dq) quote_old3 (py "'")
  = replace c quote_old3 (py "'").
Proof. rewrite !(replace_same _ dq dq_nonempty). reflexivity. Qed.

Lemma smart_quotes_keep_plots :
  hoare plots fix_smart_quotes (fun _ => plots).
Proof.
  apply hoare_rule; [|auto].
  intros s [Ha Hp] _. unfold plots. cbn [code]. rewrite quote_assignment. split.
  - apply replace_keeps_absent;
      [apply quote_old3_nonempty | vm_compute; reflexivity | exact Ha].
  - apply orb_true_iff in Hp. apply orb_true_iff. destruct Hp as [Hp | Hp]; [left | right];
      (apply replace_keeps_present;
       [apply quote_old3_nonempty | vm_compute; reflexivity | exact Hp]).
Qed.

Lemma headed_contains (p : str) (s : st) :
  contains p matplotlib_imports = true -> headed s -> contains p (code s) = true.
Proof. intros Hp [x [-> _]]. apply contains_app_l, Hp. Qed.

Lemma headed_replace (old new m : str) (s : st) :
  old <> [] -> clear_of old matplotlib_imports = true -> untouched mpl new = true ->
  headed s ->
  headed (mkSt (replace (code s) old new) (fixes_applied s ++ [m])).
Proof.
  intros Hold Hclear Hnew [x [E Hx]]. exists (replace x old new). cbn [code]. split.
  - rewrite E. apply replace_prefix; assumption.
  - apply replace_keeps_absent; assumption.
Qed.

Lemma headed_append (tail m : str) (s : st) :
  untouched mpl tail = true -> headed s ->
  headed (mkSt (code s ++ tail) (fixes_applied s ++ [m])).
Proof.
  intros Ht [x [E Hx]]. exists (x ++ tail). cbn [code]. split.
  - rewrite E, app_assoc. reflexivity.
  - rewrite <- (app_nil_r tail), (contains_around mpl tail x [] Ht), Hx. reflexivity.
Qed.

Lemma matplotlib_body_headed :
  hoare plots auto_fix_matplotlib_body (fun _ => headed).
Proof.
  unfold auto_fix_matplotlib_body.
  eapply hoare_bind; [apply smart_quotes_keep_plots | step].
  (* Add comprehensive imports if missing *)
  eapply hoare_bind with (R := fun _ => headed).
  { apply hoare_rule.
    - intros s [Ha _] _. exists (code s). split; [reflexivity | exact Ha].
    - intros s [Ha Hp] Hc. fold mpl in Hc. rewrite Ha, Hp in Hc. discriminate. }
  step.
  (* Add backend setting if missing *)
  eapply hoare_bind with (R := fun _ => headed).
  { apply hoare_rule; [|auto]. intros s Hs Hc.
    rewrite (headed_contains (py "matplotlib.use(") s) in Hc;
      [discriminate | vm_compute; reflexivity | exact Hs]. }
  step.
  (* Add numpy import if array operations detected *)
  eapply hoare_bind with (R := fun _ => headed).
  { apply hoare_rule; [|auto]. intros s Hs Hc.
    rewrite (headed_contains (py "import numpy") s), andb_false_r in Hc;
      [discriminate | vm_compute; reflexivity | exact Hs]. }
  step.
  (* Add pandas import if DataFrame operations detected *)
  eapply hoare_bind with (R := fun _ => headed).
  { apply hoare_rule; [|auto]. intros s Hs Hc.
    rewrite (headed_contains (py "import pandas") s), andb_false_r in Hc;
      [discriminate | vm_compute; reflexivity | exact Hs]. }
  step.
  (* Fix common matplotlib issues *)
  eapply hoare_bind with (R := fun _ => headed).
  { apply hoare_fix_table. intros old new s Hin Hs _.
    simpl in Hin.
    destruct Hin as [H | [H | [H | [H | []]]]]; injection H as E1 E2; subst old new;
      (apply headed_replace;
       [discriminate | vm_compute; reflexivity | vm_compute; reflexivity | exact Hs]). }
  step.
  (* Add savefig if missing *)
  eapply hoare_bind with (R := fun _ => headed).
  { apply hoare_rule; [|auto]. intros s Hs _.
    apply headed_append; [vm_compute; reflexivity | exact Hs]. }
  step.
  (* Fix file paths *)
  apply hoare_when; [|auto].
  apply hoare_ifM.
  - apply hoare_fix. intros s [[Hs _] _].
    apply headed_replace;
      [discriminate | vm_compute; reflexivity | vm_compute; reflexivity | exact Hs].
  - apply hoare_rule; [|intros s [[Hs _] _] _; exact Hs].
    intros s [[Hs _] _] _.
    destruct (headed_replace (py ".jpg") (py ".pdf") [] s) as [x [E Hx]];
      [discriminate | vm_compute; reflexivity | vm_compute; reflexivity | exact Hs |].
    cbn [code] in E. exists (replace x (py ".jpeg") (py ".pdf")). cbn [code]. split.
    + rewrite E. apply replace_prefix; [discriminate | vm_compute; reflexivity].
    + apply replace_keeps_absent;
        [discriminate | vm_compute; reflexivity | exact Hx].
Qed.

Lemma headed_result (s : st) :
  headed s ->
  startswith (code s) matplotlib_imports = true /\ count_sub agg_directive (code s) = 1.
Proof.
  intros [x [-> Hx]]. split; [apply startswith_app|].
  rewrite count_sub_settled; [|discriminate | vm_compute; reflexivity].
  rewrite (count_sub_zero agg_directive x).
  - vm_compute. reflexivity.
  - apply contains_false. intros Ho. apply contains_false in Hx. apply Hx.
    apply (occ_trans mpl agg_directive x); [|exact Ho].
    apply contains_spec. vm_compute. reflexivity.
Qed.

End Matplotlib.

(** C4, as amended.  For every matplotlib snippet in which the word
    [matplotlib] occurs nowhere (in no import, comment or string) and which
    holds [plt.] or [pyplot], the rewritten snippet begins with the
    matplotlib/numpy/pandas import block and holds the backend directive
    [matplotlib.use('Agg')] exactly once. *)
Theorem matplotlib_imports_inferred (c : str) :
  contains (py "matplotlib") c = false ->
  (contains (py "plt.") c || contains (py "pyplot") c) = true ->
  imports_inferred c.
Proof.
  intros Ha Hp. unfold imports_inferred, auto_fix_matplotlib_code.
  destruct (try_body_hoare _ _ _ c matplotlib_body_headed) as [s' [E Hs]].
  - split; [exact Ha | exact Hp].
  - rewrite E. cbn [result fst]. cbv beta in Hs. apply headed_result.
    destruct Hs as [x Hx]. exists x. exact Hx.
Qed.

Lemma matplotlib_imports_inferred_witness :
  contains (py "matplotlib") (py "plt.plot([1, 2])") = false /\
  (contains (py "plt.") (py "plt.plot([1, 2])")
   || contains (py "pyplot") (py "plt.plot([1, 2])")) = true /\
  imports_inferred (py "plt.plot([1, 2])").
Proof.
  split; [reflexivity|]. split; [reflexivity|].
  apply (matplotlib_imports_inferred (py "plt.plot([1, 2])")); reflexivity.
Defined.

(** C4, as stated, fails: a snippet that calls [plt.] and imports nothing,
    but mentions matplotlib in a comment, gets neither the import block nor
    a backend directive. *)
Lemma matplotlib_comment_blocks_imports :
  plots_without_import chart_with_comment /\ ~ imports_inferred chart_with_comment.
Proof.
  split.
  - repeat split; vm_compute; reflexivity.
  - intros [H _]. vm_compute in H. discriminate.
Qed.

(* ================================================================== *)
(** * The HTML rule set and the ampersand *)
(* ================================================================== *)

Section Html.
Local Open Scope rw_scope.

(** [p] is the text followed through the rules before the ampersand rule,
    [p'] the text it has become after that rule. *)
Variables p p' : str.
Hypothesis p_quote : untouched p quote_old3 = true.
Hypothesis p_head : untouched p (py "<head>") = true.
Hypothesis p_br : untouched p (py "<br>") = true.
Hypothesis p_hr : untouched p (py "<hr>") = true.
Hypothesis p_img : untouched p (py "<img ") = true.
Hypothesis p_amp : forall s, contains p s = true ->
  contains (py "&") s = true /\ contains p' (replace s (py "&") (py "&amp;")) = true.
Hypothesis p'_head : untouched p' (py "</head>") = true.

Variable n : nat.

Let before (s : st) : Prop :=
  contains p (code s) = true /\ n <= count_char semicolon (code s).

Let after (s : st) : Prop :=
  contains p' (code s) = true /\ In amp_fix (fixes_applied s) /\
  n < count_char semicolon (code s).



End Html.







(* ================================================================== *)
(** * The python rule set on two snippets *)
(* ================================================================== *)

(** C3, evaluated.  The rule that appends [pdf.build(story)] sits in the
    branch taken only when the text [story = []] is absent (line 765): a
    snippet that defines the story list, appends to it and builds nothing is
    returned with the import block in front and no build call at all. *)
Theorem story_list_gets_no_build :
  contains (py "story = []") story_without_build = true /\
  contains (py "story.append(") story_without_build = true /\
  contains (py "pdf.build(") story_without_build = false /\
  contains (py "doc.build(") story_without_build = false /\
  auto_fix_python_code None story_without_build
    = (reportlab_imports ++ story_without_build,
       [py "Added comprehensive ReportLab imports"]) /\
  count_sub (py "pdf.build(story)")
            (fst (auto_fix_python_code None story_without_build)) = 0.
Proof. repeat split; vm_compute; reflexivity. Qed.

(** The same rule does fire when the story list is missing. *)
Example missing_story_list_gets_build :
  let c := py "pdf = SimpleDocTemplate('a.pdf')" ++ nl ++ py "story.append(Paragraph('x'))" in
  count_sub (py "pdf.build(story)") (fst (auto_fix_python_code None c)) = 1 /\
  endswith (fst (auto_fix_python_code None c)) (nl ++ nl ++ py "pdf.build(story)") = true.
Proof. split; vm_compute; reflexivity. Qed.

(** C8, evaluated.  As the file stands the test of the quote rule looks for
    the plain double quote (lines 681, 831, 924), so the rule fires on text
    that holds no typographic quote, changes nothing and fires again on its
    own output: the second call appends the quote record once more. *)
Theorem smart_quote_rule_fires_again :
  let first := auto_fix_python_code None quoted_assignment in
  let second := auto_fix_python_code None (fst first) in
  In smart_quotes_fix (snd first) /\
  fst second = fst first /\
  snd second = [smart_quotes_fix].
Proof. vm_compute. split; [left; reflexivity | split; reflexivity]. Qed.

Example smart_quote_rule_fires_again_html :
  let first := auto_fix_html_code None (py "<p>Hi</p>") in
  let second := auto_fix_html_code None (fst first) in
  snd first = [py "Added complete HTML5 document structure"] /\
  In smart_quotes_fix (snd second).
Proof. split; vm_compute; auto. Qed.

(** The identifier rules, for comparison, find nothing on their own output. *)
Example identifier_rules_settle :
  let c := py "fileName = 'a.pdf'" in
  let first := auto_fix_python_code None c in
  let second := auto_fix_python_code None (fst first) in
  In (py "Fixed variable name: fileName → file_name") (snd first) /\
  snd second = [].
Proof. split; vm_compute; auto. Qed.

(* ================================================================== *)
(** * The temporary file of the strategies *)
(* ================================================================== *)




(** C6, evaluated.  Neither markup path removes its temporary file when
    rendering fails: [os.unlink] comes after the renderer call and no
    handler repeats it (lines 1018-1019 and 1032-1033), unlike the handler of
    [execute_python_code] (line 1005). *)
Theorem markup_strategy_leaves_temp_file :
  (exists w', execute_html_code failing_renderer_env (py "<h1>Hi</h1>") empty_world
              = (Raises called_process_error, w') /\
              temp_exists (next_temp empty_world) w' = true) /\
  (exists e w', execute_html_code failing_weasyprint_env (py "<h1>Hi</h1>") empty_world
                = (Raises e, w') /\
                is_Exception e = true /\
                temp_exists (next_temp empty_world) w' = true).
Proof.
  split.
  - eexists. split; vm_compute; reflexivity.
  - eexists. eexists. split; [vm_compute; reflexivity | split; reflexivity].
Qed.

(** The same in general: when a renderer raises, the world the strategy
    leaves is the world the renderer left, temporary file included. *)
Lemma wkhtmltopdf_failure_skips_unlink (E : env) (c : str) (w w2 : world) (e : exn) :
  wkhtmltopdf E c (snd (named_temporary_file (py ".html") c w)) = (w2, Some e) ->
  execute_html_with_wkhtmltopdf E c w = (Raises e, w2).
Proof.
  intros H. unfold execute_html_with_wkhtmltopdf.
  destruct (named_temporary_file (py ".html") c w) as [t w1]. cbn [snd] in H.
  rewrite H. reflexivity.
Qed.

Lemma weasyprint_failure_skips_unlink (E : env) (c : str) (w w2 : world) (e : exn) :
  weasyprint_installed E = true -> is_ImportError e = false ->
  weasyprint_write_pdf E c (snd (named_temporary_file (py ".html") c w)) = (w2, Some e) ->
  execute_html_code E c w = (Raises e, w2).
Proof.
  intros Hi He H. unfold execute_html_code. rewrite Hi. cbn [negb].
  destruct (named_temporary_file (py ".html") c w) as [t w1]. cbn [snd] in H.
  rewrite H, He. reflexivity.
Qed.

(* ================================================================== *)
(** * The coordinator *)
(* ================================================================== *)

Lemma eqb_str_true (a b : str) : eqb_str a b = true <-> a = b.
Proof.
  unfold eqb_str. destruct (list_eq_dec N.eq_dec a b); split; congruence.
Qed.

Lemma eqb_str_refl (a : str) : eqb_str a a = true.
Proof. apply eqb_str_true. reflexivity. Qed.

Lemma logged_app (a b : list event) : logged (a ++ b) = logged a ++ logged b.
Proof. apply flat_map_app. Qed.

(** What a supported dialect calls: its rewrite function first, then, unless
    the rewrite function was left by an exception, its strategy; the
    recorder is not called in between. *)
Lemma rewrite_and_execute_calls (E : env) (l c : str) (w : world) :
  existsb (eqb_str l) supported_languages = true ->
  exists fixes r rest w1,
    rewrite_and_execute E l c w = (fixes, r, Rewrote l :: rest, w1) /\
    logged (Rewrote l :: rest) = [].
Proof.
  intros Hsup. unfold rewrite_and_execute.
  destruct (eqb_str l (py "python")) eqn:H1.
  { destruct (auto_fix_python_code _ c) as [fixed fixes].
    destruct (execute_python_code E fixed w) as [r w'].
    exists fixes, r, [Executed l fixed], w'. split; reflexivity. }
  destruct (eqb_str l (py "html")) eqn:H2.
  { destruct (auto_fix_html_code _ c) as [fixed fixes].
    destruct (execute_html_code E fixed w) as [r w'].
    exists fixes, r, [Executed l fixed], w'. split; reflexivity. }
  destruct (eqb_str l (py "matplotlib")) eqn:H3.
  { destruct (auto_fix_matplotlib_code _ c) as [fixed fixes].
    destruct (execute_python_code E fixed w) as [r w'].
    exists fixes, r, [Executed l fixed], w'. split; reflexivity. }
  destruct (eqb_str l (py "javascript")) eqn:H4.
  { destruct (auto_fix_javascript_code _ c) as [[fixed fixes]|e].
    - eexists fixes, _, [Executed l fixed], w. split; reflexivity.
    - exists [], (Raises e), [], w. split; reflexivity. }
  cbn [existsb supported_languages] in Hsup.
  rewrite H1, H2, H3, H4 in Hsup. discriminate.
Qed.

Lemma path_exists_getsize (p : str) (w : world) :
  path_exists p w = true -> exists size, getsize p w = Some size.
Proof.
  unfold path_exists, getsize. induction (cwd w) as [|f l IH]; simpl; [discriminate|].
  destruct (eqb_str (f_name f) p); simpl; [intros _; eexists; reflexivity | exact IH].
Qed.

Lemma truthy_spec (pdf_file : option str) :
  truthy pdf_file = true <-> exists p, pdf_file = Some p /\ p <> [].
Proof.
  destruct pdf_file as [[|c s]|]; simpl; split.
  - discriminate.
  - intros [p [H Hp]]. injection H as <-. congruence.
  - intros _. exists (c :: s). split; [reflexivity | discriminate].
  - reflexivity.
  - discriminate.
  - intros [p [H _]]. discriminate.
Qed.

(** The records of [respond]: one with [success = True] exactly when the
    strategy returned the name of a file that is there; it holds the size
    of that file. *)
Lemma respond_success (E : env) (l c ip : str) (fixes : list str)
      (r : outcome (option str)) (called : list event) (w1 : world) :
  logged called = [] ->
  let es := logged (trace (respond E l c ip (fixes, r, called, w1))) in
  ((exists e, In e es /\ l_success e = true) <->
   (exists p size, r = Returned (Some p) /\ p <> [] /\ path_exists p w1 = true /\
                   getsize p w1 = Some size)) /\
  (forall e, In e es -> l_success e = true ->
     exists p size, r = Returned (Some p) /\ p <> [] /\ path_exists p w1 = true /\
                    getsize p w1 = Some size /\ l_file_size e = Some size).
Proof.
  intros Hc. cbv zeta. unfold respond.
  assert (forall e0 : log_entry, l_success e0 = false ->
            forall e, In e [e0] -> l_success e = true -> False) as Hone.
  { intros e0 H0 e [<- | []] He. congruence. }
  destruct r as [pdf_file | err].
  2:{ destruct (is_Exception err); cbn [trace]; rewrite ?logged_app, ?Hc;
        cbn [logged flat_map app]; (split; [split|]).
      - intros [e [[<- | []] He]]. discriminate.
      - intros [p [size [H _]]]. discriminate.
      - intros e [<- | []] He. discriminate.
      - intros [e [[] _]].
      - intros [p [size [H _]]]. discriminate.
      - intros e []. }
  destruct (truthy pdf_file && path_exists (get pdf_file []) w1) eqn:Hok.
  2:{ cbn [trace]. rewrite logged_app, Hc. cbn [logged flat_map app]. split; [split|].
      - intros [e [[<- | []] He]]. discriminate.
      - intros [p [size [[= ->] [Hp [Hex _]]]]]. cbn [get truthy] in Hok.
        rewrite Hex, andb_true_r in Hok. destruct p; [congruence | discriminate].
      - intros e [<- | []] He. discriminate. }
  apply andb_true_iff in Hok. destruct Hok as [Ht Hex].
  apply truthy_spec in Ht. destruct Ht as [p [-> Hp]]. cbn [get] in *.
  destruct (path_exists_getsize _ _ Hex) as [size Hsize]. rewrite Hsize.
  assert (exists p0 size0, Returned (Some p) = Returned (Some p0) /\ p0 <> [] /\
            path_exists p0 w1 = true /\ getsize p0 w1 = Some size0) as Hrhs.
  { exists p, size. auto. }
  destruct (send_file E p w1) as [file_error|].
  - destruct (is_Exception file_error); cbn [trace];
      rewrite ?logged_app, ?Hc; cbn [logged flat_map app]; (split; [split|]).
    + intros _. exact Hrhs.
    + intros _. eexists. split; [left; reflexivity | reflexivity].
    + intros e [<- | [<- | []]] He; [|discriminate].
      exists p, size. cbn [l_file_size]. auto 6.
    + intros _. exact Hrhs.
    + intros _. eexists. split; [left; reflexivity | reflexivity].
    + intros e [<- | []] He. exists p, size. cbn [l_file_size]. auto 6.
  - cbn [trace]. rewrite logged_app, Hc. cbn [logged flat_map app]. split; [split|].
    + intros _. exact Hrhs.
    + intros _. eexists. split; [left; reflexivity | reflexivity].
    + intros e [<- | []] He. exists p, size. cbn [l_file_size]. auto 6.
Qed.

(** How [generate_pdf] goes on once a request has passed validation and the
    safety filter. *)
Lemma generate_pdf_processed (E : env) (rq : request) (w : world) :
  validated rq -> passes_filter rq ->
  generate_pdf E rq w
  = respond E (language_of rq) (user_code_of rq) (user_ip_of rq)
      (rewrite_and_execute E (language_of rq) (user_code_of rq) w).
Proof.
  intros [Hsup Hcode] Hpass. unfold generate_pdf.
  fold (language_of rq). fold (user_code_of rq). fold (user_ip_of rq).
  rewrite Hsup. cbn [negb].
  unfold passes_filter in Hpass.
  destruct (user_code_of rq) as [|x c] eqn:Hc; [congruence|].
  rewrite Hpass. reflexivity.
Qed.

(** A request stopped by validation or by the filter: one record, of a
    failure. *)
Lemma generate_pdf_stopped (E : env) (rq : request) (w : world) :
  ~ (validated rq /\ passes_filter rq) ->
  exists e, trace (generate_pdf E rq w) = [Logged e] /\ l_success e = false /\
            l_fixes_applied e = None /\
            (exists body, reply (generate_pdf E rq w) = Returned (Response body 400)) /\
            after (generate_pdf E rq w) = w.
Proof.
  intros Hnot. unfold generate_pdf.
  fold (language_of rq). fold (user_code_of rq). fold (user_ip_of rq).
  destruct (existsb (eqb_str (language_of rq)) supported_languages) eqn:Hsup; cbn [negb].
  2:{ eexists. repeat split. eexists. reflexivity. }
  destruct (user_code_of rq) as [|x c] eqn:Hc.
  { eexists. repeat split. eexists. reflexivity. }
  destruct (security_check dangerous_patterns (x :: c) (lower (x :: c))) eqn:Hs.
  { eexists. repeat split. eexists. reflexivity. }
  exfalso. apply Hnot. unfold validated, passes_filter. rewrite Hc.
  repeat split; [exact Hsup | discriminate | exact Hs].
Qed.

(** C1, as amended.  A record with [success = True] is handed to the
    recorder if and only if the request reached a strategy, the strategy
    returned a non-empty name and a file of that name was there when the
    answer was prepared; that record carries the size of the file, which is
    not null and may be zero. *)
Theorem success_recorded_iff_artifact_found (E : env) (rq : request) (w : world) :
  success_iff_artifact E rq w.
Proof.
  unfold success_iff_artifact, entries.
  assert ((validated rq /\ passes_filter rq) \/ ~ (validated rq /\ passes_filter rq)) as [Hv | Hv].
  { unfold validated, passes_filter.
    destruct (existsb (eqb_str (language_of rq)) supported_languages);
      destruct (user_code_of rq) as [|x c];
      try (right; intros [[H1 H2] _]; congruence).
    destruct (security_check dangerous_patterns (x :: c) (lower (x :: c)));
      [right; intros [_ H]; discriminate | left].
    repeat split; discriminate || reflexivity. }
  - destruct Hv as [Hval Hpass].
    rewrite (generate_pdf_processed E rq w Hval Hpass).
    destruct (rewrite_and_execute_calls E (language_of rq) (user_code_of rq) w (proj1 Hval))
      as [fixes [r [rest [w1 [Hre Hlog]]]]].
    rewrite Hre.
    destruct (respond_success E (language_of rq) (user_code_of rq) (user_ip_of rq)
                fixes r (Rewrote (language_of rq) :: rest) w1 Hlog) as [G1 G2].
    cbv zeta in G1, G2. split.
    + rewrite G1. split.
      * intros [p [size [-> [Hp [Hex Hsz]]]]]. exists size.
        split; [exact Hval | split; [exact Hpass|]].
        exists fixes, p, (Rewrote (language_of rq) :: rest), w1. auto.
      * intros [size [_ [_ [fixes' [p [called [w1' [Heq [Hp [Hex Hsz]]]]]]]]]].
        rewrite Hre in Heq. injection Heq as _ -> _ <-. exists p, size. auto.
    + intros e He Hs. destruct (G2 e He Hs) as [p [size [-> [Hp [Hex [Hsz Hf]]]]]].
      exists size. split; [|exact Hf].
      split; [exact Hval | split; [exact Hpass|]].
      exists fixes, p, (Rewrote (language_of rq) :: rest), w1. auto.
  - destruct (generate_pdf_stopped E rq w Hv) as [e0 [Ht [Hs0 _]]]. rewrite Ht.
    cbn [logged flat_map app]. split; [split|].
    + intros [e [[<- | []] He]]. congruence.
    + intros [size [Hval [Hpass _]]]. exfalso. apply Hv. split; assumption.
    + intros e [<- | []] He. congruence.
Qed.

(** C1, as stated, fails: when the snippet leaves an empty file, success is
    recorded with size zero. *)
Lemma empty_artifact_recorded_as_success :
  validated touch_request /\ passes_filter touch_request /\
  ~ success_iff_nonempty_artifact touch_env touch_request empty_world.
Proof.
  split; [split; [reflexivity | discriminate]|]. split; [reflexivity|].
  intros [_ H].
  remember (entries touch_env touch_request empty_world) as es eqn:Hes.
  vm_compute in Hes. subst es.
  destruct (H _ (or_introl eq_refl) eq_refl) as [size [Hsz Hpos]].
  injection Hsz as <-. discriminate Hpos.
Qed.

(** ** The javascript dialect *)

Lemma javascript_rewrite_returns (c : str) :
  exists r, auto_fix_javascript_code None c = Returned r.
Proof.
  assert (hoare (fun _ => True) auto_fix_javascript_body (fun _ _ => True)) as H.
  { unfold auto_fix_javascript_body.
    eapply hoare_bind with (R := fun _ _ => True); [apply hoare_rule; auto|].
    intros _. apply hoare_rule; auto. }
  destruct (H (init c) I) as [[] [s' [E _]]].
  exists (result s'). unfold auto_fix_javascript_code. cbn [option_map]. rewrite E.
  reflexivity.
Qed.

Lemma rewrite_and_execute_javascript (E : env) (c : str) (w : world) :
  rewrite_and_execute E (py "javascript") c w
  = match auto_fix_javascript_code (rewrite_fault E) c with
    | Returned (fixed_code, fixes_applied) =>
      (fixes_applied, Raises (mkExn ExceptionClass javascript_advice),
       [Rewrote (py "javascript"); Executed (py "javascript") fixed_code], w)
    | Raises e => ([], Raises e, [Rewrote (py "javascript")], w)
    end.
Proof.
  unfold rewrite_and_execute.
  change (eqb_str (py "javascript") (py "python")) with false.
  change (eqb_str (py "javascript") (py "html")) with false.
  change (eqb_str (py "javascript") (py "matplotlib")) with false.
  change (eqb_str (py "javascript") (py "javascript")) with true.
  cbv iota. destruct (auto_fix_javascript_code (rewrite_fault E) c) as [[fixed fixes]|e];
    reflexivity.
Qed.

Lemma javascript_rewrite_exception (fault : option (nat * str)) (c : str) (e : exn) :
  auto_fix_javascript_code fault c = Raises e -> is_Exception e = true.
Proof.
  unfold auto_fix_javascript_code.
  destruct (auto_fix_javascript_body _ _); intros H; [discriminate|].
  injection H as <-. reflexivity.
Qed.

(** C7.  A javascript request that passes validation and the filter is
    answered with status 500; no file is sent and the host is left as it
    was; one record is handed over, with [success = False] and a null
    size.  The message is that of the exception; when the rewrite call
    raises nothing, which is so on every snippet, it is the fixed advice of
    [execute_javascript_code]. *)
Theorem javascript_always_fails (E : env) (rq : request) (w : world) :
  language_of rq = py "javascript" -> user_code_of rq <> [] -> passes_filter rq ->
  exists msg entry called,
    reply (generate_pdf E rq w)
      = Returned (Response (py "Code execution error: " ++ msg) 500) /\
    (rewrite_fault E = None -> msg = javascript_advice) /\
    trace (generate_pdf E rq w) = called ++ [Logged entry] /\
    logged called = [] /\
    l_success entry = false /\ l_file_size entry = None /\
    l_error_message entry = Some (py "Code execution error: " ++ msg) /\
    after (generate_pdf E rq w) = w.
Proof.
  intros Hl Hc Hp.
  assert (validated rq) as Hv.
  { split; [rewrite Hl; reflexivity | exact Hc]. }
  rewrite (generate_pdf_processed E rq w Hv Hp), Hl, rewrite_and_execute_javascript.
  destruct (auto_fix_javascript_code (rewrite_fault E) (user_code_of rq))
    as [[fixed fixes]|e] eqn:Hr.
  - exists javascript_advice. eexists. eexists. cbn [respond is_Exception exn_cls].
    repeat split.
  - pose proof (javascript_rewrite_exception _ _ _ Hr) as He.
    exists (exn_str e). eexists. eexists. unfold respond. rewrite He.
    repeat split.
    intros Hf. rewrite Hf in Hr.
    destruct (javascript_rewrite_returns (user_code_of rq)) as [r Hr'].
    congruence.
Qed.

Lemma javascript_always_fails_witness :
  language_of javascript_request = py "javascript" /\
  user_code_of javascript_request <> [] /\
  passes_filter javascript_request /\
  exists msg entry called,
    reply (generate_pdf quiet_env javascript_request empty_world)
      = Returned (Response (py "Code execution error: " ++ msg) 500) /\
    (rewrite_fault quiet_env = None -> msg = javascript_advice) /\
    trace (generate_pdf quiet_env javascript_request empty_world)
      = called ++ [Logged entry] /\
    logged called = [] /\
    l_success entry = false /\ l_file_size entry = None /\
    l_error_message entry = Some (py "Code execution error: " ++ msg) /\
    after (generate_pdf quiet_env javascript_request empty_world) = empty_world.
Proof.
  split; [reflexivity|]. split; [discriminate|]. split; [reflexivity|].
  apply (javascript_always_fails quiet_env javascript_request empty_world);
    [reflexivity | discriminate | reflexivity].
Defined.

(** ** The safety filter *)

Lemma contains_strip_trimmed (p s : str) :
  trimmed p = true -> contains p (strip s) = contains p s.
Proof.
  unfold trimmed. destruct p as [|a p1] eqn:Hp; [discriminate|].
  destruct (rev (a :: p1)) as [|b p2] eqn:Hr; [discriminate|].
  rewrite andb_true_iff, !negb_true_iff. intros [Ha Hb].
  apply (contains_strip (a :: p1) s a b p1 p2); auto.
Qed.

Lemma carve_out_check (snippet : str) :
  existsb (fun safe => contains safe snippet) safe_contexts = true <-> has_carve_out snippet.
Proof. apply existsb_exists. Qed.

Lemma security_check_some (pats : list str) (uc cl p : str) :
  security_check pats uc cl = Some p ->
  existsb (fun safe => contains safe uc) safe_contexts = false /\
  exists before rest,
    pats = before ++ p :: rest /\ contains p cl = true /\
    forall q, In q before -> contains q cl = false.
Proof.
  induction pats as [|x pats IH]; cbn [security_check]; [discriminate|].
  destruct (contains x cl) eqn:Hx; cbn [andb].
  - destruct (existsb (fun safe => contains safe uc) safe_contexts) eqn:Hs; cbn [negb].
    + intros H. destruct (IH H) as [H1 _]. discriminate.
    + intros [= <-]. split; [reflexivity|]. exists [], pats.
      split; [reflexivity | split; [exact Hx | intros q []]].
  - intros H. destruct (IH H) as [H1 [before [rest [-> [Hp Hq]]]]].
    split; [exact H1|]. exists (x :: before), rest.
    split; [reflexivity | split; [exact Hp|]].
    intros q [<- | Hin]; [exact Hx | apply Hq, Hin].
Qed.

Lemma security_check_none (pats : list str) (uc cl : str) :
  security_check pats uc cl = None ->
  existsb (fun safe => contains safe uc) safe_contexts = true \/
  forall q, In q pats -> contains q cl = false.
Proof.
  induction pats as [|x pats IH]; cbn [security_check]; [right; intros q []|].
  destruct (contains x cl) eqn:Hx; cbn [andb].
  - destruct (existsb (fun safe => contains safe uc) safe_contexts); cbn [negb];
      [left; reflexivity | discriminate].
  - intros H. destruct (IH H) as [H1 | H1]; [left; exact H1 | right].
    intros q [<- | Hin]; [exact Hx | apply H1, Hin].
Qed.

(** The patterns and the allow-listed text are looked for in the stripped
    snippet; none of them begins or ends with white space, so this is the
    same as looking in the snippet as submitted. *)
Lemma pattern_in_stripped (raw p : str) :
  In p dangerous_patterns ->
  contains p (lower (strip raw)) = contains p (lower raw).
Proof.
  intros Hin. rewrite <- strip_lower. apply contains_strip_trimmed.
  assert (forallb trimmed dangerous_patterns = true) as H by (vm_compute; reflexivity).
  rewrite forallb_forall in H. apply H, Hin.
Qed.

Lemma carve_out_in_stripped (raw : str) :
  existsb (fun safe => contains safe (strip raw)) safe_contexts
  = existsb (fun safe => contains safe raw) safe_contexts.
Proof.
  cbn [existsb safe_contexts]. rewrite contains_strip_trimmed; [reflexivity|].
  vm_compute. reflexivity.
Qed.

(** The answer of a request that went past the filter is not the answer of
    the filter: its trace begins with the call of a rewrite function. *)
Lemma processed_trace (E : env) (rq : request) (w : world) :
  validated rq -> passes_filter rq ->
  exists rest, trace (generate_pdf E rq w) = Rewrote (language_of rq) :: rest.
Proof.
  intros Hv Hp. rewrite (generate_pdf_processed E rq w Hv Hp).
  destruct (rewrite_and_execute_calls E (language_of rq) (user_code_of rq) w (proj1 Hv))
    as [fixes [r [rest [w1 [Hre _]]]]].
  rewrite Hre. unfold respond.
  destruct r as [pdf_file|e].
  - destruct (truthy pdf_file && path_exists (get pdf_file []) w1).
    + destruct (getsize (get pdf_file []) w1).
      * destruct (send_file E (get pdf_file []) w1) as [fe|];
          [destruct (is_Exception fe)|]; eexists; reflexivity.
      * cbn [is_Exception file_not_found exn_cls]. eexists; reflexivity.
    + eexists; reflexivity.
  - destruct (is_Exception e); eexists; reflexivity.
Qed.

(** C2.  For a request that passed validation, the filter answers - status
    400, one failure record, no rewrite function and no strategy called - if
    and only if some disallowed pattern occurs, letter case apart, in the
    snippet as submitted and no allow-listed text occurs in it verbatim; the
    pattern named in the answer is the first of the list that occurs. *)
Theorem safety_filter_rejects_first_match (E : env) (rq : request) (w : world) :
  validated rq ->
  ((has_dangerous_pattern (raw_code_of rq) /\ ~ has_carve_out (raw_code_of rq)) <->
   (exists p, filter_rejects E rq w p)) /\
  (forall p, filter_rejects E rq w p -> first_match p (lower (raw_code_of rq))).
Proof.
  intros Hv.
  assert (forall p, security_check dangerous_patterns (user_code_of rq)
                      (lower (user_code_of rq)) = Some p ->
                    filter_rejects E rq w p) as Hrej.
  { intros p Hs. destruct Hv as [Hsup Hc]. unfold filter_rejects, generate_pdf.
    fold (language_of rq). fold (user_code_of rq). fold (user_ip_of rq).
    rewrite Hsup. cbn [negb]. destruct (user_code_of rq) as [|x c]; [congruence|].
    rewrite Hs. repeat split. eexists. split; reflexivity. }
  assert (forall p, filter_rejects E rq w p ->
            security_check dangerous_patterns (user_code_of rq)
              (lower (user_code_of rq)) = Some p) as Hinv.
  { intros p [Hr [[e [Ht _]] _]].
    destruct (security_check dangerous_patterns (user_code_of rq) (lower (user_code_of rq)))
      as [p0|] eqn:Hs.
    - destruct (Hrej p0 eq_refl) as [Hr0 _]. rewrite Hr0 in Hr.
      injection Hr as Hr. congruence.
    - destruct (processed_trace E rq w Hv Hs) as [rest Ht']. congruence. }
  assert (forall p, security_check dangerous_patterns (user_code_of rq)
                      (lower (user_code_of rq)) = Some p ->
                    ~ has_carve_out (raw_code_of rq) /\
                    first_match p (lower (raw_code_of rq))) as Hsome.
  { intros p Hs. apply security_check_some in Hs.
    destruct Hs as [Hsafe [before [rest [Hd [Hp Hq]]]]].
    unfold user_code_of in *. fold (raw_code_of rq) in *.
    rewrite carve_out_in_stripped in Hsafe. split.
    - intros Hco. apply carve_out_check in Hco. congruence.
    - exists before, rest. split; [exact Hd | split].
      + rewrite <- pattern_in_stripped; [exact Hp|].
        rewrite Hd. apply in_or_app. right. left. reflexivity.
      + intros q Hin. rewrite <- pattern_in_stripped; [apply Hq, Hin|].
        rewrite Hd. apply in_or_app. left. exact Hin. }
  split; [split|].
  - intros [[p [Hin Hp]] Hno].
    destruct (security_check dangerous_patterns (user_code_of rq) (lower (user_code_of rq)))
      as [p0|] eqn:Hs.
    + exists p0. apply Hrej. reflexivity.
    + exfalso. apply security_check_none in Hs.
      unfold user_code_of in Hs. fold (raw_code_of rq) in Hs.
      rewrite carve_out_in_stripped in Hs. destruct Hs as [Hs | Hs].
      * apply Hno, carve_out_check, Hs.
      * specialize (Hs p Hin). rewrite pattern_in_stripped in Hs by exact Hin. congruence.
  - intros [p Hp]. destruct (Hsome p (Hinv p Hp)) as [Hno [before [rest [Hd [Hc Hq]]]]].
    split; [|exact Hno]. exists p. split; [|exact Hc].
    rewrite Hd. apply in_or_app. right. left. reflexivity.
  - intros p Hp. apply (Hsome p (Hinv p Hp)).
Qed.

Lemma safety_filter_rejects_first_match_witness :
  validated eval_request /\
  ((has_dangerous_pattern (raw_code_of eval_request) /\
    ~ has_carve_out (raw_code_of eval_request)) <->
   (exists p, filter_rejects quiet_env eval_request empty_world p)) /\
  (forall p, filter_rejects quiet_env eval_request empty_world p ->
             first_match p (lower (raw_code_of eval_request))).
Proof.
  assert (validated eval_request) as Hv by (split; [reflexivity | discriminate]).
  split; [exact Hv|].
  exact (safety_filter_rejects_first_match quiet_env eval_request empty_world Hv).
Defined.

(** On that request the filter names [eval(], not [exec(]. *)
Example eval_named_first :
  filter_rejects quiet_env eval_request empty_world (py "eval(").
Proof.
  split; [vm_compute; reflexivity|].
  split; [eexists; split; vm_compute; reflexivity | reflexivity].
Qed.

(** ** The dialect tag *)

(** Telling two answers apart by status, by kind or by the first character
    of the message. *)
Ltac differ H :=
  first
    [ discriminate H
    | injection H as H;
      apply (f_equal (hd 0%N)) in H; vm_compute in H; discriminate H ].

Lemma supported_not_rejected (E : env) (rq : request) (w : world) :
  existsb (eqb_str (language_of rq)) supported_languages = true ->
  ~ rejected_as_unsupported E rq w.
Proof.
  intros Hsup [d H]. unfold generate_pdf in H.
  fold (language_of rq) in H. fold (user_code_of rq) in H. fold (user_ip_of rq) in H.
  rewrite Hsup in H. cbn [negb] in H.
  destruct (user_code_of rq) as [|x c]; [differ H|].
  destruct (security_check dangerous_patterns (x :: c) (lower (x :: c))); [differ H|].
  destruct (rewrite_and_execute E (language_of rq) (x :: c) w) as [[[fixes r] called] w1].
  unfold respond in H. destruct r as [pdf_file|e].
  - destruct (truthy pdf_file && path_exists (get pdf_file []) w1); [|differ H].
    destruct (getsize (get pdf_file []) w1).
    + destruct (send_file E (get pdf_file []) w1) as [fe|]; [|differ H].
      destruct (is_Exception fe); differ H.
    + cbn [is_Exception file_not_found exn_cls] in H. differ H.
  - destruct (is_Exception e); differ H.
Qed.

(** Every record of a request names the dialect read from the form. *)
Lemma recorded_language (E : env) (rq : request) (w : world) (e : log_entry) :
  In e (entries E rq w) -> l_language e = language_of rq.
Proof.
  unfold entries, generate_pdf.
  fold (language_of rq). fold (user_code_of rq). fold (user_ip_of rq).
  destruct (negb (existsb (eqb_str (language_of rq)) supported_languages)) eqn:Hsup.
  { intros [<- | []]. reflexivity. }
  apply negb_false_iff in Hsup.
  destruct (user_code_of rq) as [|x c]; [intros [<- | []]; reflexivity|].
  destruct (security_check dangerous_patterns (x :: c) (lower (x :: c)));
    [intros [<- | []]; reflexivity|].
  destruct (rewrite_and_execute_calls E (language_of rq) (x :: c) w Hsup)
    as [fixes [r [rest [w1 [Hre Hlog]]]]].
  rewrite Hre. unfold respond. destruct r as [pdf_file|err].
  - destruct (truthy pdf_file && path_exists (get pdf_file []) w1).
    + destruct (getsize (get pdf_file []) w1).
      * destruct (send_file E (get pdf_file []) w1) as [fe|];
          [destruct (is_Exception fe)|]; cbn [trace];
          rewrite ?logged_app, ?Hlog; cbn [logged flat_map app].
        -- intros [<- | [<- | []]]; reflexivity.
        -- intros [<- | []]; reflexivity.
        -- intros [<- | []]; reflexivity.
      * cbn [is_Exception file_not_found exn_cls trace].
        rewrite logged_app, Hlog. intros [<- | []]. reflexivity.
    + cbn [trace]. rewrite logged_app, Hlog. intros [<- | []]. reflexivity.
  - destruct (is_Exception err); cbn [trace]; rewrite ?logged_app, ?Hlog.
    + intros [<- | []]. reflexivity.
    + intros [].
Qed.

Lemma supported_trimmed (l : str) :
  In l supported_languages -> lstrip l = l /\ lstrip (rev l) = rev l.
Proof.
  cbn [In supported_languages].
  intros [<- | [<- | [<- | [<- | []]]]]; split; reflexivity.
Qed.

Lemma supported_check (l : str) :
  In l supported_languages -> existsb (eqb_str l) supported_languages = true.
Proof.
  intros H. apply existsb_exists. exists l. split; [exact H | apply eqb_str_refl].
Qed.

(** The run of a request depends on the form through the tag, the snippet
    and the address as [generate_pdf] reads them. *)
Lemma generate_pdf_same_reading (E : env) (rq rq' : request) (w : world) :
  language_of rq = language_of rq' -> user_code_of rq = user_code_of rq' ->
  user_ip_of rq = user_ip_of rq' ->
  generate_pdf E rq w = generate_pdf E rq' w.
Proof.
  unfold generate_pdf, language_of, user_code_of, user_ip_of.
  intros -> -> ->. reflexivity.
Qed.

Lemma supported_fixed (l : str) : In l supported_languages -> strip (lower l) = l.
Proof.
  cbn [In supported_languages].
  intros [<- | [<- | [<- | [<- | []]]]]; reflexivity.
Qed.

Lemma accepted_when_supported (E : env) (rq : request) (w : world) (l : str) :
  language_of rq = l -> In l supported_languages -> accepted_as E rq w l.
Proof.
  intros Hl Hin. split; [exact Hl | split; [|split; [|split]]].
  - apply supported_not_rejected. rewrite Hl. apply supported_check, Hin.
  - intros e He. rewrite <- Hl. apply (recorded_language E rq w e He).
  - apply generate_pdf_same_reading; [|reflexivity|reflexivity].
    rewrite Hl. unfold language_of, tagged. cbn [form_language get].
    symmetry. apply supported_fixed, Hin.
  - intros Hcode Hpass. rewrite <- Hl. apply processed_trace; [|exact Hpass].
    split; [rewrite Hl; apply supported_check, Hin | exact Hcode].
Qed.

(** C9.  A request without a [language] field is processed as dialect
    [python]; a tag that is a supported dialect up to letter case, with
    white space around it, is processed as that dialect.  Processed as a
    dialect: the request is not turned down as an unknown dialect, its run
    is the run of the same request with the dialect written out, every
    record it leaves names the dialect, and when its snippet is not blank
    and passes the safety filter the rewrite function of the dialect is
    called first. *)
Theorem language_tag_normalised (E : env) (rq : request) (w : world) :
  (form_language rq = None -> accepted_as E rq w (py "python")) /\
  (forall pre tag post,
     form_language rq = Some (pre ++ tag ++ post) ->
     forallb is_space pre = true -> forallb is_space post = true ->
     In (lower tag) supported_languages ->
     accepted_as E rq w (lower tag)).
Proof.
  split.
  - intros Hnone. apply accepted_when_supported.
    + unfold language_of. rewrite Hnone. reflexivity.
    + left. reflexivity.
  - intros pre tag post Hform Hpre Hpost Hin. apply accepted_when_supported; [|exact Hin].
    unfold language_of. rewrite Hform. cbn [get]. unfold lower. rewrite !map_app.
    fold (lower pre). fold (lower tag). fold (lower post).
    destruct (supported_trimmed _ Hin) as [H1 H2].
    apply strip_core; [apply lower_spaces, Hpre | apply lower_spaces, Hpost | exact H1 | exact H2].
Qed.

Lemma language_tag_normalised_witness :
  form_language shouted_request = Some (py " " ++ py "PYTHON" ++ py " ") /\
  accepted_as quiet_env shouted_request empty_world (py "python").
Proof.
  split; [reflexivity|].
  apply (proj2 (language_tag_normalised quiet_env shouted_request empty_world)
           (py " ") (py "PYTHON") (py " "));
    [reflexivity | reflexivity | reflexivity | left; reflexivity].
Defined.

(** A tag outside the list is turned down, with one failure record. *)
Example unknown_tag_rejected :
  rejected_as_unsupported quiet_env (form (py "ruby") (py "puts 1")) empty_world.
Proof. eexists. vm_compute. reflexivity. Qed.

(** ** Failures inside a rewrite call *)

Lemma try_body_raised (body : M unit) (n : nat) (msg c : str) (s : st) :
  body (init c) (Some n) = Raised s ->
  try_body body (Some (n, msg)) c
  = (code s, fixes_applied s ++ [rewrite_failure_record msg]).
Proof.
  intros H. unfold try_body, rewrite_failure_record. cbn [option_map fst].
  rewrite H. cbv beta iota zeta. reflexivity.
Qed.

Lemma try_body_done (body : M unit) (fault : option (nat * str)) (c : str)
      (s : st) (f : option nat) :
  body (init c) (option_map fst fault) = Done tt s f ->
  try_body body fault c = (code s, fixes_applied s).
Proof. intros H. unfold try_body. rewrite H. reflexivity. Qed.

Lemma respond_trace (E : env) (l c ip : str) (fixes : list str)
      (r : outcome (option str)) (called : list event) (w1 : world) :
  exists extra, trace (respond E l c ip (fixes, r, called, w1)) = called ++ extra.
Proof.
  unfold respond. destruct r as [pdf_file|e].
  - destruct (truthy pdf_file && path_exists (get pdf_file []) w1).
    + destruct (getsize (get pdf_file []) w1).
      * destruct (send_file E (get pdf_file []) w1) as [fe|];
          [destruct (is_Exception fe)|]; cbn [trace]; rewrite <- ?app_assoc;
          eexists; reflexivity.
      * cbn [is_Exception file_not_found exn_cls trace]. eexists; reflexivity.
    + eexists; reflexivity.
  - destruct (is_Exception e); cbn [trace]; [eexists; reflexivity|].
    exists []. rewrite app_nil_r. reflexivity.
Qed.

(** The three dialects whose rewrite function has a handler: whatever the
    rewrite call met, its strategy is called on the code it returned. *)
Lemma guarded_dialect_executes (E : env) (l c : str) (w : world) (body : M unit) :
  l <> py "javascript" -> rewrite_body l = Some body ->
  auto_fix l (rewrite_fault E) c = Returned (try_body body (rewrite_fault E) c) /\
  exists r w1,
    rewrite_and_execute E l c w
    = (snd (try_body body (rewrite_fault E) c), r,
       [Rewrote l; Executed l (fst (try_body body (rewrite_fault E) c))], w1).
Proof.
  intros Hjs. unfold rewrite_body, auto_fix, rewrite_and_execute.
  destruct (eqb_str l (py "python")).
  { intros [= <-]. split; [reflexivity|].
    unfold auto_fix_python_code.
    destruct (try_body auto_fix_python_body (rewrite_fault E) c) as [fixed fixes].
    destruct (execute_python_code E fixed w) as [r w']. exists r, w'. reflexivity. }
  destruct (eqb_str l (py "html")).
  { intros [= <-]. split; [reflexivity|].
    unfold auto_fix_html_code.
    destruct (try_body auto_fix_html_body (rewrite_fault E) c) as [fixed fixes].
    destruct (execute_html_code E fixed w) as [r w']. exists r, w'. reflexivity. }
  destruct (eqb_str l (py "matplotlib")).
  { intros [= <-]. split; [reflexivity|].
    unfold auto_fix_matplotlib_code.
    destruct (try_body auto_fix_matplotlib_body (rewrite_fault E) c) as [fixed fixes].
    destruct (execute_python_code E fixed w) as [r w']. exists r, w'. reflexivity. }
  destruct (eqb_str l (py "javascript")) eqn:H4; [|discriminate].
  apply eqb_str_true in H4. congruence.
Qed.

(** C5, as amended.  For the python, html and matplotlib dialects an
    exception raised by a statement of the rewrite body is caught in the
    rewrite function: the function returns the code reached and the records
    made so far with exactly one record of the failure added, and the
    strategy is then called on that code.  [auto_fix_javascript_code] has no
    handler: an exception raised in it leaves it, the coordinator answers
    with status 500 and records a failure with no fix, and no strategy is
    called. *)
Theorem rewrite_failure_handling (E : env) (rq : request) (w : world) :
  validated rq -> passes_filter rq ->
  (language_of rq <> py "javascript" -> failure_contained E rq w) /\
  (language_of rq = py "javascript" -> failure_escapes E rq w).
Proof.
  intros Hv Hp. split.
  - intros Hjs body n msg s Hbody Hfault Hraised.
    destruct (guarded_dialect_executes E (language_of rq) (user_code_of rq) w body Hjs Hbody)
      as [Hfix [r [w1 Hre]]].
    rewrite Hfault in Hfix, Hre.
    rewrite (try_body_raised body n msg _ s Hraised) in Hfix, Hre. cbn [fst snd] in Hre.
    split; [rewrite Hfault; exact Hfix|].
    rewrite (generate_pdf_processed E rq w Hv Hp), Hre.
    destruct (respond_trace E (language_of rq) (user_code_of rq) (user_ip_of rq)
                (fixes_applied s ++ [rewrite_failure_record msg]) r
                [Rewrote (language_of rq); Executed (language_of rq) (code s)] w1)
      as [extra Ht].
    exists extra. rewrite Ht. reflexivity.
  - intros Hjs body n msg s Hbody Hfault Hraised.
    rewrite Hjs in Hbody. injection Hbody as <-.
    assert (auto_fix_javascript_code (rewrite_fault E) (user_code_of rq)
            = Raises (mkExn ExceptionClass msg)) as Hr.
    { unfold auto_fix_javascript_code. rewrite Hfault. cbn [option_map fst].
      rewrite Hraised. reflexivity. }
    split; [rewrite Hjs; exact Hr|].
    rewrite (generate_pdf_processed E rq w Hv Hp), Hjs, rewrite_and_execute_javascript, Hr.
    split; [reflexivity|]. eexists. split; [reflexivity | split; reflexivity].
Qed.

Lemma rewrite_failure_handling_witness :
  validated matplotlib_request /\ passes_filter matplotlib_request /\
  (language_of matplotlib_request <> py "javascript" ->
   failure_contained (faulty_env 3) matplotlib_request empty_world).
Proof.
  assert (validated matplotlib_request) as Hv by (split; [reflexivity | discriminate]).
  assert (passes_filter matplotlib_request) as Hp by reflexivity.
  split; [exact Hv | split; [exact Hp|]].
  exact (proj1 (rewrite_failure_handling (faulty_env 3) matplotlib_request empty_world Hv Hp)).
Defined.

(** On that request the statement that raises is the append of the import
    rule: the imports are in the code handed to the strategy, their record
    is not among the fixes. *)
Example matplotlib_failure_contained :
  auto_fix_matplotlib_code (Some (3, py "boom")) (py "plt.plot([1, 2])")
  = (matplotlib_imports ++ py "plt.plot([1, 2])",
     [py "Auto-fix encountered error: boom"]).
Proof. vm_compute. reflexivity. Qed.

(** C5, as stated, fails for the javascript dialect: the exception leaves
    the rewrite function and no strategy is called. *)
Lemma javascript_failure_not_contained :
  validated javascript_request /\ passes_filter javascript_request /\
  ~ failure_contained (faulty_env 0) javascript_request empty_world.
Proof.
  split; [split; [reflexivity | discriminate]|]. split; [reflexivity|].
  intros H.
  destruct (H auto_fix_javascript_body 0 (py "boom") (init (user_code_of javascript_request))
              eq_refl eq_refl eq_refl) as [Hfix _].
  vm_compute in Hfix. discriminate Hfix.
Qed.

(* ================================================================== *)
(** * Further properties of the coordinator *)
(* ================================================================== *)

Lemma validated_or_not (rq : request) :
  (validated rq /\ passes_filter rq) \/ ~ (validated rq /\ passes_filter rq).
Proof.
  unfold validated, passes_filter.
  destruct (existsb (eqb_str (language_of rq)) supported_languages);
    destruct (user_code_of rq) as [|x c];
    try (right; intros [[H1 H2] _]; congruence).
  destruct (security_check dangerous_patterns (x :: c) (lower (x :: c)));
    [right; intros [_ H]; discriminate | left].
  repeat split; discriminate || reflexivity.
Qed.

Lemma strip_blank (s : str) : forallb is_space s = true -> strip s = [].
Proof.
  intros H. pose proof (strip_core s [] [] H eq_refl eq_refl eq_refl) as E.
  rewrite app_nil_r in E. exact E.
Qed.

(** X1.  A snippet that is missing or holds white space only counts as
    empty: with a supported dialect the answer is status 400 with the
    request to enter some code, the one record has length 0 and no fix
    list, nothing is rewritten or run and the host is left as it was. *)
Theorem blank_snippet_rejected (E : env) (rq : request) (w : world) :
  In (language_of rq) supported_languages ->
  forallb is_space (raw_code_of rq) = true ->
  generate_pdf E rq w
  = mkRun (Returned (Response (py "Please enter some code to generate PDF") 400))
          [Logged (mkLog (language_of rq) 0 false
                     (Some (py "Please enter some code to generate PDF"))
                     None None None (user_ip_of rq))]
          w.
Proof.
  intros Hin Hblank. unfold generate_pdf.
  fold (language_of rq). fold (raw_code_of rq). fold (user_ip_of rq).
  rewrite (supported_check _ Hin), (strip_blank _ Hblank). reflexivity.
Qed.

Lemma blank_snippet_rejected_witness :
  In (language_of blank_request) supported_languages /\
  forallb is_space (raw_code_of blank_request) = true /\
  reply (generate_pdf quiet_env blank_request empty_world)
  = Returned (Response (py "Please enter some code to generate PDF") 400).
Proof.
  assert (In (language_of blank_request) supported_languages) as H1
    by (right; left; reflexivity).
  assert (forallb is_space (raw_code_of blank_request) = true) as H2 by reflexivity.
  split; [exact H1 | split; [exact H2|]].
  rewrite (blank_snippet_rejected quiet_env blank_request empty_world H1 H2).
  reflexivity.
Defined.

(** X2.  An unknown dialect is turned down before anything else is looked
    at.  For a tag of ASCII characters, on which [lower] is [str.lower]:
    whatever the snippet field holds - nothing, or a disallowed pattern -
    the answer is status 400 naming the tag, in lower case and stripped,
    and the four dialects, with one failure record, and the filter's answer
    is not given. *)
Theorem unknown_dialect_rejected_first (E : env) (rq : request) (w : world) :
  is_ascii (get (form_language rq) (py "python")) = true ->
  ~ In (language_of rq) supported_languages ->
  reply (generate_pdf E rq w)
  = Returned (Response (py "Unsupported language: " ++ language_of rq
                          ++ py ". Supported: python, html, matplotlib, javascript") 400) /\
  (exists e, trace (generate_pdf E rq w) = [Logged e] /\ l_success e = false /\
             l_code_length e = length (user_code_of rq)) /\
  after (generate_pdf E rq w) = w /\
  forall p, ~ filter_rejects E rq w p.
Proof.
  intros _ Hnot.
  assert (existsb (eqb_str (language_of rq)) supported_languages = false) as Hsup.
  { destruct (existsb (eqb_str (language_of rq)) supported_languages) eqn:H; [|reflexivity].
    exfalso. apply Hnot. apply existsb_exists in H. destruct H as [l [Hin Heq]].
    apply eqb_str_true in Heq. rewrite Heq. exact Hin. }
  assert (generate_pdf E rq w
          = mkRun (Returned (Response (py "Unsupported language: " ++ language_of rq
                                         ++ py ". Supported: "
                                         ++ join (py ", ") supported_languages) 400))
                  [Logged (mkLog (language_of rq) (length (user_code_of rq)) false
                             (Some (py "Unsupported language: " ++ language_of rq
                                      ++ py ". Supported: "
                                      ++ join (py ", ") supported_languages))
                             None None None (user_ip_of rq))] w) as Hrun.
  { unfold generate_pdf.
    fold (language_of rq). fold (user_code_of rq). fold (user_ip_of rq).
    rewrite Hsup. reflexivity. }
  rewrite Hrun. cbn [reply trace after]. split; [|split; [|split]].
  - assert (py ". Supported: " ++ join (py ", ") supported_languages
            = py ". Supported: python, html, matplotlib, javascript") as Hlist
      by (vm_compute; reflexivity).
    rewrite Hlist. reflexivity.
  - eexists. repeat split.
  - reflexivity.
  - intros p [Hr _]. rewrite Hrun in Hr. cbn [reply] in Hr. differ Hr.
Qed.

Lemma unknown_dialect_rejected_first_witness :
  is_ascii (get (form_language (form (py " Ruby ") (py "eval('1')"))) (py "python")) = true /\
  ~ In (language_of (form (py " Ruby ") (py "eval('1')"))) supported_languages /\
  reply (generate_pdf quiet_env (form (py " Ruby ") (py "eval('1')")) empty_world)
  = Returned (Response (py "Unsupported language: ruby. Supported: python, html, matplotlib, javascript") 400).
Proof.
  assert (~ In (language_of (form (py " Ruby ") (py "eval('1')"))) supported_languages) as H.
  { cbn [In supported_languages]. intros [H | [H | [H | [H | []]]]]; discriminate H. }
  split; [reflexivity|]. split; [exact H|].
  rewrite (proj1 (unknown_dialect_rejected_first quiet_env
                    (form (py " Ruby ") (py "eval('1')")) empty_world eq_refl H)).
  vm_compute. reflexivity.
Defined.

Lemma security_check_carve_out (pats : list str) (uc cl : str) :
  existsb (fun safe => contains safe uc) safe_contexts = true ->
  security_check pats uc cl = None.
Proof.
  intros H. induction pats as [|x l IH]; [reflexivity|].
  cbn [security_check]. rewrite H. cbn [negb]. rewrite andb_false_r. exact IH.
Qed.

(** X3.  The allow-listed text switches the whole filter off: a snippet that
    holds it verbatim anywhere passes the filter whatever disallowed
    patterns it holds besides, and goes on to be rewritten. *)
Theorem carve_out_disables_filter (E : env) (rq : request) (w : world) :
  validated rq -> has_carve_out (raw_code_of rq) ->
  passes_filter rq /\
  exists rest, trace (generate_pdf E rq w) = Rewrote (language_of rq) :: rest.
Proof.
  intros Hv Hco.
  assert (passes_filter rq) as Hp.
  { unfold passes_filter.
    apply carve_out_check in Hco. rewrite <- carve_out_in_stripped in Hco.
    change (strip (raw_code_of rq)) with (user_code_of rq) in Hco.
    apply security_check_carve_out, Hco. }
  split; [exact Hp | apply processed_trace; assumption].
Qed.

Lemma carve_out_disables_filter_witness :
  validated carve_out_request /\ has_carve_out (raw_code_of carve_out_request) /\
  has_dangerous_pattern (raw_code_of carve_out_request) /\
  passes_filter carve_out_request.
Proof.
  assert (validated carve_out_request) as Hv by (split; [reflexivity | discriminate]).
  assert (has_carve_out (raw_code_of carve_out_request)) as Hco.
  { eexists. split; [left; reflexivity | reflexivity]. }
  split; [exact Hv | split; [exact Hco | split]].
  - exists (py "eval("). split; [|reflexivity]. cbn [dangerous_patterns In]. auto.
  - exact (proj1 (carve_out_disables_filter quiet_env carve_out_request empty_world Hv Hco)).
Defined.

(** X4.  When the artifact was found and sending it raises, success has
    already been recorded: the recorder gets two records for the one
    request, the first with [success = True] and the size, the second with
    [success = False] and the text of the exception, and the answer is
    status 500. *)
Theorem send_failure_recorded_after_success (E : env) (rq : request) (w : world)
        (size : N) (file_error : exn) :
  artifact_confirmed E rq w size ->
  (forall p w1, send_file E p w1 = Some file_error) ->
  is_Exception file_error = true ->
  reply (generate_pdf E rq w)
  = Returned (Response (py "Error sending file: " ++ exn_str file_error) 500) /\
  exists e1 e2,
    entries E rq w = [e1; e2] /\
    l_success e1 = true /\ l_file_size e1 = Some size /\ l_error_message e1 = None /\
    l_success e2 = false /\ l_file_size e2 = None /\
    l_error_message e2 = Some (py "Error sending file: " ++ exn_str file_error).
Proof.
  intros [Hv [Hp [fixes [p [called [w1 [Hre [Hne [Hex Hsz]]]]]]]]] Hsend He.
  unfold entries. rewrite (generate_pdf_processed E rq w Hv Hp), Hre.
  destruct (rewrite_and_execute_calls E (language_of rq) (user_code_of rq) w (proj1 Hv))
    as [fixes' [r' [rest [w1' [Hre' Hlog]]]]].
  rewrite Hre in Hre'. injection Hre' as _ _ Hcalled _. rewrite <- Hcalled in Hlog.
  unfold respond. destruct p as [|x p]; [congruence|].
  cbn [truthy get andb]. rewrite Hex, Hsz, Hsend, He. cbn [reply trace].
  split; [reflexivity|].
  rewrite !logged_app, Hlog. cbn [logged flat_map app].
  eexists. eexists. repeat split.
Qed.

Lemma send_failure_recorded_after_success_witness :
  artifact_confirmed broken_pipe_env print_request world_with_pdf 1024 /\
  length (entries broken_pipe_env print_request world_with_pdf) = 2.
Proof.
  assert (artifact_confirmed broken_pipe_env print_request world_with_pdf 1024) as Ha.
  { split; [split; [reflexivity | discriminate]|]. split; [reflexivity|].
    eexists. eexists. eexists. eexists.
    split; [vm_compute; reflexivity|].
    split; [discriminate | split; reflexivity]. }
  split; [exact Ha|].
  destruct (send_failure_recorded_after_success broken_pipe_env print_request world_with_pdf
              1024 broken_pipe Ha (fun _ _ => eq_refl) eq_refl)
    as [_ [e1 [e2 [Hes _]]]].
  rewrite Hes. reflexivity.
Defined.

(** X5.  A file is sent only after success was recorded: when the answer is
    the file [p], that file is in the working directory, the request left
    exactly one record, with [success = True], no error text and the size
    of [p]. *)
Theorem sent_file_means_recorded_success (E : env) (rq : request) (w : world) (p : str) :
  reply (generate_pdf E rq w) = Returned (SentFile p) ->
  path_exists p (after (generate_pdf E rq w)) = true /\
  exists e size,
    entries E rq w = [e] /\ l_success e = true /\ l_error_message e = None /\
    getsize p (after (generate_pdf E rq w)) = Some size /\ l_file_size e = Some size.
Proof.
  destruct (validated_or_not rq) as [[Hv Hp] | Hnot].
  2:{ destruct (generate_pdf_stopped E rq w Hnot) as [e [_ [_ [_ [[body Hr] _]]]]].
      rewrite Hr. discriminate. }
  unfold entries. rewrite (generate_pdf_processed E rq w Hv Hp).
  destruct (rewrite_and_execute_calls E (language_of rq) (user_code_of rq) w (proj1 Hv))
    as [fixes [r [rest [w1 [Hre Hlog]]]]].
  rewrite Hre. unfold respond. destruct r as [pdf_file|err].
  2:{ destruct (is_Exception err); discriminate. }
  destruct (truthy pdf_file && path_exists (get pdf_file []) w1) eqn:Hok; [|discriminate].
  apply andb_true_iff in Hok. destruct Hok as [_ Hex].
  destruct (getsize (get pdf_file []) w1) as [size|] eqn:Hsz.
  2:{ cbn [is_Exception file_not_found exn_cls]. discriminate. }
  destruct (send_file E (get pdf_file []) w1) as [fe|].
  { destruct (is_Exception fe); discriminate. }
  cbn [reply trace after]. intros [= <-]. split; [exact Hex|].
  rewrite logged_app, Hlog. cbn [logged flat_map app].
  eexists. exists size. repeat split. exact Hsz.
Qed.

Lemma sent_file_means_recorded_success_witness :
  reply (generate_pdf quiet_env print_request world_with_pdf)
    = Returned (SentFile (py "report.pdf")) /\
  exists e, entries quiet_env print_request world_with_pdf = [e] /\ l_success e = true.
Proof.
  assert (reply (generate_pdf quiet_env print_request world_with_pdf)
          = Returned (SentFile (py "report.pdf"))) as H by (vm_compute; reflexivity).
  split; [exact H|].
  destruct (sent_file_means_recorded_success quiet_env print_request world_with_pdf _ H)
    as [_ [e [size [Hes [Hs _]]]]].
  exists e. split; assumption.
Defined.

(** ** The python strategy *)

Lemma read_fresh_temp (suffix text : str) (w : world) :
  read_temp (next_temp w) (snd (named_temporary_file suffix text w)) = Returned text.
Proof.
  unfold read_temp, named_temporary_file. cbn [snd temps List.find t_id].
  rewrite N.eqb_refl. reflexivity.
Qed.

Lemma rewrite_and_execute_python (E : env) (c : str) (w : world) :
  rewrite_and_execute E (py "python") c w
  = (snd (auto_fix_python_code (rewrite_fault E) c),
     fst (execute_python_code E (fst (auto_fix_python_code (rewrite_fault E) c)) w),
     [Rewrote (py "python");
      Executed (py "python") (fst (auto_fix_python_code (rewrite_fault E) c))],
     snd (execute_python_code E (fst (auto_fix_python_code (rewrite_fault E) c)) w)).
Proof.
  unfold rewrite_and_execute. change (eqb_str (py "python") (py "python")) with true.
  cbv iota.
  destruct (auto_fix_python_code (rewrite_fault E) c) as [fixed fixes]. cbn [fst snd].
  destruct (execute_python_code E fixed w) as [r w']. reflexivity.
Qed.

(** X6.  What is not an [Exception] goes through every handler: when the
    snippet of a python request stops the interpreter ([SystemExit],
    [KeyboardInterrupt]), [generate_pdf] is left by that exception, no
    record is handed to the recorder, and the host is as the snippet left
    it - the strategy has not removed its temporary file. *)
Theorem interpreter_exit_unrecorded (E : env) (rq : request) (w w2 : world) (e : exn) :
  validated rq -> passes_filter rq -> language_of rq = py "python" ->
  run_snippet E (fst (auto_fix_python_code (rewrite_fault E) (user_code_of rq)))
    (snd (named_temporary_file (py ".py")
            (fst (auto_fix_python_code (rewrite_fault E) (user_code_of rq))) w))
  = (w2, Some e) ->
  is_Exception e = false ->
  reply (generate_pdf E rq w) = Raises e /\
  entries E rq w = [] /\
  after (generate_pdf E rq w) = w2.
Proof.
  intros Hv Hp Hl Hrun He. unfold entries.
  rewrite (generate_pdf_processed E rq w Hv Hp), Hl, rewrite_and_execute_python.
  set (fixed := fst (auto_fix_python_code (rewrite_fault E) (user_code_of rq))) in *.
  assert (execute_python_code E fixed w = (Raises e, w2)) as Hx.
  { unfold execute_python_code, python_try_block.
    pose proof (read_fresh_temp (py ".py") fixed w) as Hread.
    destruct (named_temporary_file (py ".py") fixed w) as [t w1] eqn:Hnt.
    unfold named_temporary_file in Hnt. injection Hnt as <- <-.
    cbn [snd] in Hread, Hrun. unfold named_temporary_file in Hrun. cbn [snd] in Hrun.
    rewrite Hread, Hrun, He. reflexivity. }
  rewrite Hx. cbn [fst snd respond]. rewrite He. cbn [reply trace after logged flat_map app].
  repeat split.
Qed.

Lemma interpreter_exit_unrecorded_witness :
  validated print_request /\ passes_filter print_request /\
  reply (generate_pdf exiting_env print_request empty_world) = Raises system_exit /\
  entries exiting_env print_request empty_world = [] /\
  temp_exists (temp_of empty_world)
              (after (generate_pdf exiting_env print_request empty_world)) = true.
Proof.
  assert (validated print_request) as Hv by (split; [reflexivity | discriminate]).
  assert (passes_filter print_request) as Hp by reflexivity.
  split; [exact Hv | split; [exact Hp|]].
  destruct (interpreter_exit_unrecorded exiting_env print_request empty_world
              (snd (named_temporary_file (py ".py")
                      (fst (auto_fix_python_code None (user_code_of print_request)))
                      empty_world))
              system_exit Hv Hp eq_refl eq_refl eq_refl) as [H1 [H2 H3]].
  split; [exact H1 | split; [exact H2|]]. rewrite H3. reflexivity.
Defined.



Lemma max_by_ctime_spec (l : list file) (best : file) :
  In (max_by_ctime best l) (best :: l) /\
  forall g, In g (best :: l) -> (f_ctime g <= f_ctime (max_by_ctime best l))%N.
Proof.
  revert best. induction l as [|f l IH]; intros best; cbn [max_by_ctime].
  - split; [left; reflexivity|]. intros g [<- | []]. apply N.le_refl.
  - destruct (f_ctime best <? f_ctime f)%N eqn:Hlt.
    + apply N.ltb_lt in Hlt. destruct (IH f) as [Hin Hmax]. split.
      * right. exact Hin.
      * intros g [<- | Hg]; [|apply Hmax, Hg].
        apply N.le_trans with (f_ctime f); [apply N.lt_le_incl, Hlt|].
        apply Hmax. left. reflexivity.
    + apply N.ltb_ge in Hlt. destruct (IH best) as [Hin Hmax]. split.
      * destruct Hin as [Hin | Hin]; [left; exact Hin | right; right; exact Hin].
      * intros g [<- | [<- | Hg]].
        -- apply Hmax. left. reflexivity.
        -- apply N.le_trans with (f_ctime best); [exact Hlt|]. apply Hmax. left. reflexivity.
        -- apply Hmax. right. exact Hg.
Qed.

(** X8.  What the python strategy returns does not depend on what the
    snippet wrote: when it returns a name, that is the name of a [.pdf]
    file of the working directory than which no [.pdf] file there is more
    recent; it returns [None] only when the directory holds no [.pdf]
    file. *)
Theorem python_strategy_returns_latest_pdf (E : env) (c : str) (w w' : world)
        (r : option str) :
  execute_python_code E c w = (Returned r, w') ->
  match r with
  | Some name =>
    exists f, In f (cwd w') /\ is_pdf f = true /\ f_name f = name /\
              forall g, In g (cwd w') -> is_pdf g = true -> (f_ctime g <= f_ctime f)%N
  | None => forall g, In g (cwd w') -> is_pdf g = false
  end.
Proof.
  unfold execute_python_code, python_try_block.
  destruct (named_temporary_file (py ".py") c w) as [t w1].
  assert (forall e wx, unlink_and_raise t e wx <> (Returned r, w')) as Hno.
  { intros e wx. unfold unlink_and_raise. destruct (unlink t wx) as [wy [ey|]]; discriminate. }
  destruct (read_temp t w1) as [source|e0]; [|intros H; destruct (Hno _ _ H)].
  destruct (run_snippet E source w1) as [w2 [e|]].
  { destruct (is_Exception e); [intros H; destruct (Hno _ _ H) | discriminate]. }
  destruct (unlink t w2) as [w3 [e|]]; [intros H; destruct (Hno _ _ H)|].
  fold is_pdf.
  destruct (filter is_pdf (cwd w3)) as [|f l] eqn:Hf; intros [= <- <-].
  - intros g Hg. destruct (is_pdf g) eqn:Hp; [|reflexivity].
    assert (In g (filter is_pdf (cwd w3))) as Hin by (apply filter_In; auto).
    rewrite Hf in Hin. destruct Hin.
  - destruct (max_by_ctime_spec l f) as [Hin Hmax].
    rewrite <- Hf in Hin. apply filter_In in Hin. destruct Hin as [Hin Hp].
    exists (max_by_ctime f l). split; [exact Hin | split; [exact Hp | split; [reflexivity|]]].
    intros g Hg Hgp. apply Hmax. rewrite <- Hf. apply filter_In. auto.
Qed.

Lemma python_strategy_returns_latest_pdf_witness :
  execute_python_code quiet_env (py "print(1)") world_with_pdf
  = (Returned (Some (py "report.pdf")),
     snd (execute_python_code quiet_env (py "print(1)") world_with_pdf)) /\
  exists f, In f (cwd (snd (execute_python_code quiet_env (py "print(1)") world_with_pdf))) /\
            f_name f = py "report.pdf".
Proof.
  assert (execute_python_code quiet_env (py "print(1)") world_with_pdf
          = (Returned (Some (py "report.pdf")),
             snd (execute_python_code quiet_env (py "print(1)") world_with_pdf))) as H
    by (vm_compute; reflexivity).
  split; [exact H|].
  destruct (python_strategy_returns_latest_pdf quiet_env (py "print(1)") world_with_pdf _ _ H)
    as [f [Hin [_ [Hn _]]]].
  exists f. split; assumption.
Defined.





(* ================================================================== *)
(** * Further facts about occurrences *)
(* ================================================================== *)

Lemma startswith_app_cases (u y p : str) :
  startswith (u ++ y) p = true ->
  startswith u p = true \/ exists v, v <> [] /\ p = u ++ v /\ startswith y v = true.
Proof.
  revert p. induction u as [|c u IH]; intros p.
  - destruct p as [|a p]; [left; reflexivity|].
    intros H. right. exists (a :: p). split; [discriminate | split; [reflexivity | exact H]].
  - destruct p as [|a p]; [left; reflexivity|].
    cbn [app startswith]. rewrite andb_true_iff. intros [Ha H].
    destruct (IH p H) as [H1 | [v [Hv [Hp Hs]]]].
    + left. rewrite Ha, H1. reflexivity.
    + right. apply N.eqb_eq in Ha. exists v. rewrite Ha, Hp. auto.
Qed.

Lemma reach_free_suffix (p x u v : str) :
  reach_free p x = true -> p = u ++ v -> u <> [] -> v <> [] -> clash v x = true.
Proof.
  revert p. induction u as [|c u IH]; intros p Hr Hp Hu Hv; [congruence|].
  rewrite Hp in Hr. cbn [app reach_free] in Hr. apply andb_true_iff in Hr.
  destruct Hr as [H1 H2]. destruct u as [|d u].
  - cbn [app] in *. destruct v; [congruence | exact H1].
  - apply (IH ((d :: u) ++ v)); [exact H2 | reflexivity | discriminate | exact Hv].
Qed.

Lemma occ_cons (p s : str) (c : char) : occ p s -> occ p (c :: s).
Proof. intros H. apply (occ_app_r p [c] s H). Qed.

(** An occurrence of [p] next to a copy of a text it is apart from lies
    before or after the copy. *)
Lemma occ_apart (p x a b : str) :
  apart p x = true -> occ p (a ++ x ++ b) -> occ p a \/ occ p b.
Proof.
  unfold apart. rewrite andb_true_iff. intros [Hc Hr].
  induction a as [|c a IH]; intros H.
  - right. apply contains_spec. rewrite <- (clear_of_contains p x b Hc).
    apply contains_spec, H.
  - apply contains_spec in H. change ((c :: a) ++ x ++ b) with (c :: (a ++ x ++ b)) in H.
    cbn [contains] in H. apply orb_true_iff in H. destruct H as [H | H].
    + change (c :: (a ++ x ++ b)) with ((c :: a) ++ (x ++ b)) in H.
      apply startswith_app_cases in H. destruct H as [H | [v [Hv [Hp Hs]]]].
      * left. apply startswith_spec in H. destruct H as [r Hre].
        exists [], r. exact Hre.
      * pose proof (reach_free_suffix p x (c :: a) v Hr Hp ltac:(discriminate) Hv) as Hcl.
        rewrite (clash_startswith v x b Hcl) in Hs. discriminate.
    + apply contains_spec, IH in H. destruct H as [H | H]; [left | right; exact H].
      apply occ_cons, H.
Qed.

Lemma replace_keeps_absent_apart (p s old new : str) :
  old <> [] -> apart p new = true ->
  contains p s = false -> contains p (replace s old new) = false.
Proof.
  intros Hold Hnew H. apply contains_false. apply contains_false in H.
  assert (forall a, ~ occ p (a ++ s) -> ~ occ p (a ++ replace s old new)) as G.
  { apply (replace_rel old new
             (fun s t => forall a, ~ occ p (a ++ s) -> ~ occ p (a ++ t))); try exact Hold.
    - auto.
    - intros c s0 t _ IH a Ha.
      change (a ++ c :: t) with (a ++ [c] ++ t). rewrite app_assoc.
      apply IH. rewrite <- app_assoc. exact Ha.
    - intros s0 t IH a Ha Ho.
      apply (occ_apart _ _ _ _ Hnew) in Ho. destruct Ho as [Ho | Ho].
      + apply Ha, occ_app_l, Ho.
      + apply (IH []); [|exact Ho]. simpl. intros Hs.
        apply Ha, occ_app_r, occ_app_r, Hs. }
  apply (G []). exact H.
Qed.

Lemma replace_keeps_present_apart (p s old new : str) :
  old <> [] -> apart p old = true ->
  contains p s = true -> contains p (replace s old new) = true.
Proof.
  intros Hold Hp H. apply contains_spec. apply contains_spec in H.
  assert (forall a, occ p (a ++ s) -> occ p (a ++ replace s old new)) as G.
  { apply (replace_rel old new
             (fun s t => forall a, occ p (a ++ s) -> occ p (a ++ t))); try exact Hold.
    - auto.
    - intros c s0 t _ IH a Ha.
      change (a ++ c :: t) with (a ++ [c] ++ t). rewrite app_assoc.
      apply IH. rewrite <- app_assoc. exact Ha.
    - intros s0 t IH a Ha.
      apply (occ_apart _ _ _ _ Hp) in Ha. destruct Ha as [Ha | Ha].
      + apply occ_app_l, Ha.
      + apply occ_app_r, occ_app_r. apply (IH []), Ha. }
  apply (G []). exact H.
Qed.

(** Where [old] occurred, [new] occurs after the replacement. *)
Lemma replace_puts_new (s old new : str) :
  old <> [] -> contains old s = true -> contains new (replace s old new) = true.
Proof.
  intros Hold H. apply contains_spec. apply contains_spec in H. revert H.
  apply (replace_rel old new (fun s t => occ old s -> occ new t)); try exact Hold.
  - intros [pre [post H]]. destruct pre; destruct old; try congruence; discriminate.
  - intros c s0 t Hs IH Ho. apply occ_cons, IH.
    apply contains_spec in Ho. cbn [contains] in Ho. rewrite Hs in Ho.
    apply contains_spec, Ho.
  - intros s0 t _ _. exists [], t. reflexivity.
Qed.

Lemma contains_nil_false (p : str) : p <> [] -> contains p [] = false.
Proof. destruct p; [congruence | reflexivity]. Qed.

(** A text appended at the end brings no occurrence of a text it is apart
    from. *)
Lemma contains_append_apart (p s tail : str) :
  p <> [] -> apart p tail = true -> contains p (s ++ tail) = contains p s.
Proof.
  intros Hp Ht. destruct (contains p s) eqn:Hs; [apply contains_app_l, Hs|].
  apply contains_false. intros Ho. rewrite <- (app_nil_r tail) in Ho.
  apply (occ_apart _ _ _ _ Ht) in Ho. destruct Ho as [Ho | Ho].
  - apply contains_spec in Ho. congruence.
  - apply contains_spec in Ho. rewrite (contains_nil_false p Hp) in Ho. discriminate.
Qed.

(* ================================================================== *)
(** * Further properties of the javascript rule set *)
(* ================================================================== *)

Section Javascript.
Local Open Scope rw_scope.

Lemma javascript_code_returned (c : str) (s : st) :
  auto_fix_javascript_body (init c) None = Done tt s None ->
  auto_fix_javascript_code None c = Returned (code s, fixes_applied s).
Proof.
  intros H. unfold auto_fix_javascript_code. cbn [option_map]. rewrite H. reflexivity.
Qed.

Lemma wants_require_append (c : str) :
  wants_require c = false -> wants_require (c ++ jspdf_save) = false.
Proof.
  unfold wants_require. intros H.
  rewrite (contains_append_apart (py "jsPDF") c jspdf_save)
    by (discriminate || (vm_compute; reflexivity)).
  destruct (contains (py "jsPDF") c); [|reflexivity]. cbn [andb] in *.
  destruct (contains (py "require(") c) eqn:Hr.
  - rewrite (contains_app_l _ _ jspdf_save Hr). reflexivity.
  - cbn [negb andb] in H. apply negb_false_iff in H.
    rewrite (contains_app_l _ _ jspdf_save H). apply andb_false_r.
Qed.

(** What one call does: it puts the require line in front when the first
    test holds, the save line at the end when the second test holds on the
    result, and makes one record for each line; after it neither test
    holds any more. *)
Lemma javascript_body_frames (c : str) :
  hoare (fun s => s = init c) auto_fix_javascript_body
        (fun _ s =>
           exists pre post,
             code s = pre ++ c ++ post /\
             (pre = [] \/ pre = jspdf_require) /\ (post = [] \/ post = jspdf_save) /\
             length (fixes_applied s)
             = (if wants_require c then 1 else 0) + (if wants_save (pre ++ c) then 1 else 0) /\
             (pre = jspdf_require <-> wants_require c = true) /\
             (post = jspdf_save <-> wants_save (pre ++ c) = true) /\
             wants_require (code s) = false /\ wants_save (code s) = false).
Proof.
  unfold auto_fix_javascript_body.
  eapply hoare_bind with
    (R := fun _ s => exists pre, code s = pre ++ c /\
                     (pre = [] \/ pre = jspdf_require) /\
                     (pre = jspdf_require <-> wants_require c = true) /\
                     length (fixes_applied s) = (if wants_require c then 1 else 0) /\
                     wants_require (code s) = false).
  { apply hoare_rule.
    - intros s -> Hc. cbn [init code fixes_applied] in *. fold (wants_require c) in Hc.
      assert (py "const { jsPDF } = require('jspdf');" ++ nl ++ c = jspdf_require ++ c)
        as Heq by (unfold jspdf_require; rewrite <- app_assoc; reflexivity).
      exists jspdf_require. rewrite Hc. cbn [code fixes_applied app length]. rewrite Heq.
      split; [reflexivity|]. split; [right; reflexivity|]. split; [tauto|].
      split; [reflexivity|]. unfold wants_require.
      rewrite (contains_app_l (py "require(") jspdf_require c) by (vm_compute; reflexivity).
      cbn [negb]. rewrite andb_false_r. reflexivity.
    - intros s -> Hc. cbn [init code fixes_applied] in *. fold (wants_require c) in Hc.
      exists []. rewrite Hc. cbn [app length]. split; [reflexivity|].
      split; [left; reflexivity|]. split; [|split; reflexivity].
      split; discriminate. }
  step.
  apply hoare_rule.
  - intros s [pre [Hcode [Hpre [Hiff [Hlen Hreq]]]]] Hc.
    rewrite Hcode in Hc. fold (wants_save (pre ++ c)) in Hc.
    exists pre, jspdf_save. cbn [code fixes_applied]. rewrite Hcode, Hc.
    split; [unfold jspdf_save; rewrite <- !app_assoc; reflexivity|].
    split; [exact Hpre|]. split; [right; reflexivity|].
    split; [rewrite length_app, Hlen; reflexivity|].
    split; [exact Hiff|]. split; [tauto|]. split.
    + rewrite <- Hcode in *. apply (wants_require_append (code s) Hreq).
    + unfold wants_save.
      rewrite (contains_app_r (py "doc.save(") (pre ++ c) (nl ++ py "doc.save('document.pdf');"))
        by (vm_compute; reflexivity).
      reflexivity.
  - intros s [pre [Hcode [Hpre [Hiff [Hlen Hreq]]]]] Hc.
    assert (wants_save (pre ++ c) = false) as Hc' by (rewrite <- Hcode; exact Hc).
    exists pre, []. rewrite Hc', Hcode, app_nil_r, Hlen, Nat.add_0_r.
    split; [reflexivity|]. split; [exact Hpre|]. split; [left; reflexivity|].
    split; [reflexivity|]. split; [exact Hiff|].
    split; [split; discriminate|]. split; [rewrite <- Hcode; exact Hreq | exact Hc'].
Qed.

(** When neither test holds, a call changes nothing and records nothing. *)
Lemma javascript_body_settled (c : str) :
  wants_require c = false -> wants_save c = false ->
  hoare (fun s => s = init c) auto_fix_javascript_body (fun _ s => s = init c).
Proof.
  intros H1 H2. unfold auto_fix_javascript_body.
  eapply hoare_bind with (R := fun _ s => s = init c).
  { apply hoare_rule; [|auto]. intros s -> Hc. cbn [init code] in Hc.
    fold (wants_require c) in Hc. congruence. }
  step. apply hoare_rule; [|auto]. intros s -> Hc. cbn [init code] in Hc.
  fold (wants_save c) in Hc. congruence.
Qed.

End Javascript.

(** X11.  The javascript rewrite settles in one call: applied to its own
    result it returns that result unchanged and records nothing. *)
Theorem javascript_rewrite_idempotent (c fixed : str) (fixes : list str) :
  auto_fix_javascript_code None c = Returned (fixed, fixes) ->
  auto_fix_javascript_code None fixed = Returned (fixed, []).
Proof.
  intros H.
  destruct (javascript_body_frames c (init c) eq_refl)
    as [[] [s [Hrun [pre [post [_ [_ [_ [_ [_ [_ [H1 H2]]]]]]]]]]]].
  rewrite (javascript_code_returned c s Hrun) in H. injection H as <- _.
  destruct (javascript_body_settled (code s) H1 H2 (init (code s)) eq_refl)
    as [[] [s' [Hrun' ->]]].
  apply (javascript_code_returned (code s) _ Hrun').
Qed.

Lemma javascript_rewrite_idempotent_witness :
  auto_fix_javascript_code None (py "const doc = new jsPDF();")
  = Returned (jspdf_require ++ py "const doc = new jsPDF();" ++ jspdf_save,
              [py "Added jsPDF import"; py "Added missing doc.save()"]) /\
  auto_fix_javascript_code None
    (jspdf_require ++ py "const doc = new jsPDF();" ++ jspdf_save)
  = Returned (jspdf_require ++ py "const doc = new jsPDF();" ++ jspdf_save, []).
Proof.
  assert (auto_fix_javascript_code None (py "const doc = new jsPDF();")
          = Returned (jspdf_require ++ py "const doc = new jsPDF();" ++ jspdf_save,
                      [py "Added jsPDF import"; py "Added missing doc.save()"])) as H
    by (vm_compute; reflexivity).
  split; [exact H|].
  exact (javascript_rewrite_idempotent _ _ _ H).
Defined.

(* ================================================================== *)
(** * Further properties of the matplotlib rule set *)
(* ================================================================== *)

Section MatplotlibMore.
Local Open Scope rw_scope.

Let anything (s : st) : Prop := True.

(** After the save rule: a snippet that plots saves. *)
Let saves (s : st) : Prop :=
  contains (py "plt.") (code s) = true ->
  contains (py "savefig(") (code s) || contains (py "save(") (code s) = true.

Lemma matplotlib_body_saves :
  hoare anything auto_fix_matplotlib_body (fun _ => saves).
Proof.
  unfold auto_fix_matplotlib_body.
  eapply hoare_bind with (R := fun _ => anything); [apply hoare_rule; unfold anything; auto|].
  step.
  eapply hoare_bind with (R := fun _ => anything); [apply hoare_rule; unfold anything; auto|].
  step.
  eapply hoare_bind with (R := fun _ => anything); [apply hoare_rule; unfold anything; auto|].
  step.
  eapply hoare_bind with (R := fun _ => anything); [apply hoare_rule; unfold anything; auto|].
  step.
  eapply hoare_bind with (R := fun _ => anything); [apply hoare_rule; unfold anything; auto|].
  step.
  eapply hoare_bind with (R := fun _ => anything);
    [apply hoare_fix_table; unfold anything; auto|].
  step.
  (* Add savefig if missing *)
  eapply hoare_bind with (R := fun _ => saves).
  { apply hoare_rule.
    - intros s _ _ _. cbn [code].
      rewrite (contains_app_r (py "savefig(") (code s) save_commands)
        by (vm_compute; reflexivity).
      reflexivity.
    - intros s _ Hc Hp. rewrite Hp in Hc. cbn [andb] in Hc.
      destruct (contains (py "savefig(") (code s)); [reflexivity|].
      destruct (contains (py "save(") (code s)); [reflexivity | discriminate]. }
  step.
  (* Fix file paths *)
  apply hoare_when; [|intros s Hs _; exact Hs].
  apply hoare_ifM.
  - apply hoare_fix. intros s [[_ Hsave] _] _. cbn [code].
    rewrite (replace_keeps_present (py "savefig(") (code s) (py ".png") (py ".pdf"));
      [reflexivity | discriminate | vm_compute; reflexivity | exact Hsave].
  - apply hoare_rule; [|intros s [[Hs _] _] _; exact Hs].
    intros s [[_ Hsave] _] _ _. cbn [code].
    rewrite (replace_keeps_present (py "savefig(") _ (py ".jpeg") (py ".pdf"));
      [reflexivity | discriminate | vm_compute; reflexivity |].
    apply replace_keeps_present;
      [discriminate | vm_compute; reflexivity | exact Hsave].
Qed.

Let show : str := py "plt.show()".
Let show_comment : str := py "# plt.show() removed for PDF generation".

Variable n : nat.

Let shown (s : st) : Prop :=
  contains show (code s) = true /\ n <= count_char hash (code s).

Let commented (s : st) : Prop :=
  contains show (code s) = true /\ In show_fix (fixes_applied s) /\
  n < count_char hash (code s).

Lemma shown_replace (old new m : str) (s : st) :
  old <> [] -> apart show old = true ->
  count_char hash old <= count_char hash new ->
  shown s -> shown (mkSt (replace (code s) old new) (fixes_applied s ++ [m])).
Proof.
  intros Hold Hp Hc [H1 H2]. split; cbn [code].
  - apply replace_keeps_present_apart; assumption.
  - pose proof (count_char_replace hash (code s) old new Hold Hc). lia.
Qed.

Lemma commented_replace (old new m : str) (s : st) :
  old <> [] -> apart show old = true ->
  count_char hash old <= count_char hash new ->
  commented s -> commented (mkSt (replace (code s) old new) (fixes_applied s ++ [m])).
Proof.
  intros Hold Hp Hc [H1 [H2 H3]]. split; [|split]; cbn [code fixes_applied].
  - apply replace_keeps_present_apart; assumption.
  - apply in_or_app. left. exact H2.
  - pose proof (count_char_replace hash (code s) old new Hold Hc). lia.
Qed.

Lemma matplotlib_body_show :
  hoare shown auto_fix_matplotlib_body (fun _ => commented).
Proof.
  unfold auto_fix_matplotlib_body.
  (* Fix smart quotes *)
  eapply hoare_bind with (R := fun _ => shown).
  { apply hoare_rule; [|auto]. intros s Hs _. rewrite quote_assignment.
    apply shown_replace;
      [discriminate | vm_compute; reflexivity | vm_compute; lia | exact Hs]. }
  step.
  (* Add comprehensive imports if missing *)
  eapply hoare_bind with (R := fun _ => shown).
  { apply hoare_rule; [|auto]. intros s [H1 H2] _. split; cbn [code].
    - apply contains_app_r, H1.
    - rewrite count_char_app. lia. }
  step.
  (* Add backend setting if missing *)
  eapply hoare_bind with (R := fun _ => shown).
  { apply hoare_rule; [|auto]. intros s Hs _.
    apply shown_replace;
      [discriminate | vm_compute; reflexivity | vm_compute; lia | exact Hs]. }
  step.
  (* Add numpy import if array operations detected *)
  eapply hoare_bind with (R := fun _ => shown).
  { apply hoare_rule; [|auto]. intros s [H1 H2] _. split; cbn [code].
    - rewrite app_assoc. apply contains_app_r, H1.
    - rewrite app_assoc, count_char_app. lia. }
  step.
  (* Add pandas import if DataFrame operations detected *)
  eapply hoare_bind with (R := fun _ => shown).
  { apply hoare_rule; [|auto]. intros s [H1 H2] _. split; cbn [code].
    - rewrite app_assoc. apply contains_app_r, H1.
    - rewrite app_assoc, count_char_app. lia. }
  step.
  (* Fix common matplotlib issues *)
  eapply hoare_bind with (R := fun _ => commented).
  { unfold fix_table. cbn [for_each mpl_fixes].
    eapply hoare_bind with (R := fun _ => commented).
    { apply hoare_rule.
      - intros s [H1 H2] _. split; [|split]; cbn [code fixes_applied].
        + apply contains_spec. apply (occ_trans show show_comment).
          * apply contains_spec. vm_compute. reflexivity.
          * apply contains_spec, replace_puts_new; [discriminate | exact H1].
        + apply in_or_app. right. left. vm_compute. reflexivity.
        + pose proof (count_char_replace_lt hash (code s) show show_comment) as L.
          specialize (L ltac:(discriminate) ltac:(vm_compute; lia) H1).
          unfold show, show_comment in L. lia.
      - intros s [H1 _] Hc. unfold show in H1. congruence. }
    step.
    eapply hoare_bind with (R := fun _ => commented).
    { apply hoare_rule; [|auto]. intros s Hs _.
      apply commented_replace;
        [discriminate | vm_compute; reflexivity | vm_compute; lia | exact Hs]. }
    step.
    eapply hoare_bind with (R := fun _ => commented).
    { apply hoare_rule; [|auto]. intros s Hs _.
      apply commented_replace;
        [discriminate | vm_compute; reflexivity | vm_compute; lia | exact Hs]. }
    step.
    eapply hoare_bind with (R := fun _ => commented).
    { apply hoare_rule; [|auto]. intros s Hs _.
      apply commented_replace;
        [discriminate | vm_compute; reflexivity | vm_compute; lia | exact Hs]. }
    step. apply hoare_ret. auto. }
  step.
  (* Add savefig if missing *)
  eapply hoare_bind with (R := fun _ => commented).
  { apply hoare_rule; [|auto]. intros s [H1 [H2 H3]] _.
    split; [|split]; cbn [code fixes_applied].
    - apply contains_app_l, H1.
    - apply in_or_app. left. exact H2.
    - rewrite count_char_app. lia. }
  step.
  (* Fix file paths *)
  apply hoare_when; [|intros s Hs _; exact Hs].
  apply hoare_ifM.
  - apply hoare_fix. intros s [[Hs _] _].
    apply commented_replace;
      [discriminate | vm_compute; reflexivity | vm_compute; lia | exact Hs].
  - apply hoare_rule; [|intros s [[Hs _] _] _; exact Hs].
    intros s [[Hs _] _] _.
    pose proof (commented_replace (py ".jpg") (py ".pdf") [] s) as H1.
    specialize (H1 ltac:(discriminate) ltac:(vm_compute; reflexivity)
                   ltac:(vm_compute; lia) Hs).
    pose proof (commented_replace (py ".jpeg") (py ".pdf")
                  (py "Changed output format from JPEG to PDF") _
                  ltac:(discriminate) ltac:(vm_compute; reflexivity)
                  ltac:(vm_compute; lia) H1) as H2.
    destruct H2 as [G1 [G2 G3]]. cbn [code fixes_applied] in G1, G2, G3.
    split; [exact G1 | split; [|exact G3]]. cbn [fixes_applied].
    apply in_app_or in G2. destruct G2 as [G2 | G2]; [|apply in_or_app; right; exact G2].
    apply in_app_or in G2. destruct G2 as [G2 | [G2 | []]].
    + apply in_or_app. left. exact G2.
    + exfalso. assert (show_fix <> []) as Hne by discriminate. congruence.
Qed.

End MatplotlibMore.

(** X12.  A rewritten matplotlib snippet that plots also saves: whenever the
    result holds [plt.], it holds [savefig(] or [save(]. *)
Theorem matplotlib_rewrite_always_saves (c : str) :
  let out := fst (auto_fix_matplotlib_code None c) in
  contains (py "plt.") out = true ->
  contains (py "savefig(") out || contains (py "save(") out = true.
Proof.
  cbv zeta. unfold auto_fix_matplotlib_code.
  destruct (try_body_hoare _ _ _ c matplotlib_body_saves I) as [s' [E Hs]].
  rewrite E. exact Hs.
Qed.

Lemma matplotlib_rewrite_always_saves_witness :
  contains (py "plt.") (fst (auto_fix_matplotlib_code None (py "plt.plot([1, 2])"))) = true /\
  contains (py "savefig(") (fst (auto_fix_matplotlib_code None (py "plt.plot([1, 2])")))
  || contains (py "save(") (fst (auto_fix_matplotlib_code None (py "plt.plot([1, 2])")))
  = true.
Proof.
  assert (contains (py "plt.") (fst (auto_fix_matplotlib_code None (py "plt.plot([1, 2])")))
          = true) as H by (vm_compute; reflexivity).
  split; [exact H|].
  exact (matplotlib_rewrite_always_saves (py "plt.plot([1, 2])") H).
Defined.

Lemma matplotlib_show_pass (c : str) :
  contains (py "plt.show()") c = true ->
  let r := auto_fix_matplotlib_code None c in
  contains (py "plt.show()") (fst r) = true /\ In show_fix (snd r) /\
  count_char hash c < count_char hash (fst r).
Proof.
  intros Hc. cbv zeta. unfold auto_fix_matplotlib_code.
  destruct (try_body_hoare _ _ _ c (matplotlib_body_show (count_char hash c)))
    as [s' [E Hs]].
  - split; [exact Hc | cbn [init code]; lia].
  - rewrite E. exact Hs.
Qed.

(** X13.  The rule that comments [plt.show()] out leaves the call text in
    its comment, so it does not settle: for every snippet that holds
    [plt.show()] the result still holds it, and rewriting the result once
    more changes the text again and appends the same record again. *)
Theorem matplotlib_show_rule_not_idempotent (c : str) :
  contains (py "plt.show()") c = true ->
  let c1 := fst (auto_fix_matplotlib_code None c) in
  let again := auto_fix_matplotlib_code None c1 in
  In show_fix (snd (auto_fix_matplotlib_code None c)) /\
  contains (py "plt.show()") c1 = true /\
  fst again <> c1 /\ In show_fix (snd again).
Proof.
  intros Hc. cbv zeta.
  destruct (matplotlib_show_pass c Hc) as [H1 [H2 _]].
  destruct (matplotlib_show_pass _ H1) as [G1 [G2 G3]].
  split; [exact H2 | split; [exact H1 | split; [|exact G2]]].
  intros E. rewrite E in G3. lia.
Qed.

Lemma matplotlib_show_rule_not_idempotent_witness :
  contains (py "plt.show()") (py "plt.show()") = true /\
  fst (auto_fix_matplotlib_code None (fst (auto_fix_matplotlib_code None (py "plt.show()"))))
  <> fst (auto_fix_matplotlib_code None (py "plt.show()")).
Proof.
  split; [reflexivity|].
  exact (proj1 (proj2 (proj2 (matplotlib_show_rule_not_idempotent (py "plt.show()") eq_refl)))).
Defined.

(* ================================================================== *)
(** * Properties every rule keeps *)
(* ================================================================== *)

Section Invariants.
Local Open Scope rw_scope.
Variable I : st -> Prop.

Lemma hoare_seq_inv (a b : M unit) :
  hoare I a (fun _ => I) -> hoare I b (fun _ => I) -> hoare I (a ;; b) (fun _ => I).
Proof. intros Ha Hb. apply (hoare_bind I (fun _ => I)); [exact Ha | intros _; exact Hb]. Qed.

Lemma hoare_ret_inv : hoare I (ret tt) (fun _ => I).
Proof. apply hoare_ret. auto. Qed.

Lemma hoare_when_inv (c : str -> bool) (t : M unit) :
  hoare I t (fun _ => I) -> hoare I (when c t) (fun _ => I).
Proof.
  intros Ht. apply hoare_when; [|auto].
  apply (hoare_conseq _ I _ (fun _ => I)); [exact Ht | intros s [H _]; exact H | auto].
Qed.

Lemma hoare_ifM_inv (c : str -> bool) (t e : M unit) :
  hoare I t (fun _ => I) -> hoare I e (fun _ => I) -> hoare I (ifM c t e) (fun _ => I).
Proof.
  intros Ht He. apply hoare_ifM;
    [apply (hoare_conseq _ I _ (fun _ => I)); [exact Ht | intros s [H _]; exact H | auto]
    |apply (hoare_conseq _ I _ (fun _ => I)); [exact He | intros s [H _]; exact H | auto]].
Qed.

Lemma hoare_eval_inv {A} (e : st -> A) (k : A -> M unit) :
  (forall a, hoare I (k a) (fun _ => I)) -> hoare I (bind (eval e) k) (fun _ => I).
Proof.
  intros Hk. apply (hoare_bind I (fun _ => I)); [apply hoare_eval; auto | exact Hk].
Qed.

(** A property kept by every step that changes the code and makes a record
    is kept by each of the shapes the bodies are made of. *)
Hypothesis kept : forall s c' m, I s -> I (mkSt c' (fixes_applied s ++ [m])).

Lemma hoare_fix_inv (g : str -> str) (m : str) :
  hoare I (assign g ;; append_fix m) (fun _ => I).
Proof. apply hoare_fix. intros s Hs. apply kept, Hs. Qed.

Lemma hoare_table_inv (table : list (str * str)) (msg : str -> str -> str) :
  hoare I (fix_table table msg) (fun _ => I).
Proof. apply hoare_fix_table. intros old new s _ Hs _. apply kept, Hs. Qed.

End Invariants.

(** Going through a body with a property kept by every recorded change. *)
Ltac walk kept :=
  repeat first
    [ apply (hoare_fix_inv _ kept)
    | apply (hoare_table_inv _ kept)
    | apply hoare_ret_inv
    | apply hoare_when_inv
    | apply hoare_ifM_inv
    | apply hoare_seq_inv
    | apply hoare_for_each; intros [? ?] _; cbv beta iota
    | apply hoare_eval_inv; let x := fresh "x" in (intros x; destruct x) ].

Section Kept.
Local Open Scope rw_scope.
Variable I : st -> Prop.
Hypothesis kept : forall s c' m, I s -> I (mkSt c' (fixes_applied s ++ [m])).

Lemma python_body_keeps : hoare I auto_fix_python_body (fun _ => I).
Proof. unfold auto_fix_python_body, fix_smart_quotes. walk kept. Qed.

Lemma html_body_keeps : hoare I auto_fix_html_body (fun _ => I).
Proof. unfold auto_fix_html_body, fix_smart_quotes. walk kept. Qed.

Lemma matplotlib_body_keeps : hoare I auto_fix_matplotlib_body (fun _ => I).
Proof. unfold auto_fix_matplotlib_body, fix_smart_quotes. walk kept. Qed.

Lemma javascript_body_keeps : hoare I auto_fix_javascript_body (fun _ => I).
Proof. unfold auto_fix_javascript_body. walk kept. Qed.

End Kept.

Lemma quiet_kept (c : str) (s : st) (c' m : str) :
  quiet_means_unchanged c s ->
  quiet_means_unchanged c (mkSt c' (fixes_applied s ++ [m])).
Proof.
  intros _ H. cbn [fixes_applied] in H. destruct (fixes_applied s); discriminate H.
Qed.

(** X14.  No rule changes the code without making a record: for each of the
    four dialects, when the rewrite function returns an empty fix list the
    code it returns is the snippet it was given. *)
Theorem empty_fix_list_means_unchanged (c : str) :
  (snd (auto_fix_python_code None c) = [] -> fst (auto_fix_python_code None c) = c) /\
  (snd (auto_fix_html_code None c) = [] -> fst (auto_fix_html_code None c) = c) /\
  (snd (auto_fix_matplotlib_code None c) = [] -> fst (auto_fix_matplotlib_code None c) = c) /\
  (forall fixed, auto_fix_javascript_code None c = Returned (fixed, []) -> fixed = c).
Proof.
  assert (quiet_means_unchanged c (init c)) as H0 by (intros _; reflexivity).
  split; [|split; [|split]].
  - unfold auto_fix_python_code.
    destruct (try_body_hoare _ _ _ c
                (python_body_keeps _ (fun s c' m => quiet_kept c s c' m)) H0) as [s [E Hs]].
    rewrite E. exact Hs.
  - unfold auto_fix_html_code.
    destruct (try_body_hoare _ _ _ c
                (html_body_keeps _ (fun s c' m => quiet_kept c s c' m)) H0) as [s [E Hs]].
    rewrite E. exact Hs.
  - unfold auto_fix_matplotlib_code.
    destruct (try_body_hoare _ _ _ c
                (matplotlib_body_keeps _ (fun s c' m => quiet_kept c s c' m)) H0)
      as [s [E Hs]].
    rewrite E. exact Hs.
  - intros fixed Hr.
    destruct (javascript_body_keeps _ (fun s c' m => quiet_kept c s c' m) (init c) H0)
      as [[] [s [E Hs]]].
    rewrite (javascript_code_returned c s E) in Hr. injection Hr as <- Hf.
    apply Hs, Hf.
Qed.

Lemma empty_fix_list_means_unchanged_witness :
  snd (auto_fix_python_code None (py "from reportlab.lib import colors")) = [] /\
  fst (auto_fix_python_code None (py "from reportlab.lib import colors"))
  = py "from reportlab.lib import colors".
Proof.
  assert (snd (auto_fix_python_code None (py "from reportlab.lib import colors")) = [])
    as H by (vm_compute; reflexivity).
  split; [exact H|].
  exact (proj1 (empty_fix_list_means_unchanged (py "from reportlab.lib import colors")) H).
Defined.

(* ================================================================== *)
(** * Further properties of the HTML rule set *)
(* ================================================================== *)

Section HtmlMore.
Local Open Scope rw_scope.

Let doctype : str := py "<!DOCTYPE".
Let html : str := py "<html".

Let anything (s : st) : Prop := True.

(** After the DOCTYPE rule. *)
Let declared_if_html (s : st) : Prop :=
  contains html (code s) = true -> contains doctype (code s) = true.

(** After the structure rule. *)
Let complete (s : st) : Prop :=
  contains doctype (code s) = true /\ contains html (code s) = true.

Lemma declared_replace (old new m : str) (s : st) :
  old <> [] -> apart doctype old = true -> apart html new = true ->
  declared_if_html s ->
  declared_if_html (mkSt (replace (code s) old new) (fixes_applied s ++ [m])).
Proof.
  intros Hold Hd Hh Hs Hhtml. cbn [code] in *.
  apply replace_keeps_present_apart; [exact Hold | exact Hd|]. apply Hs.
  destruct (contains html (code s)) eqn:E; [reflexivity|].
  rewrite (replace_keeps_absent_apart html (code s) old new Hold Hh E) in Hhtml.
  discriminate.
Qed.

Lemma complete_replace (old new m : str) (s : st) :
  old <> [] -> apart doctype old = true -> apart html old = true ->
  complete s -> complete (mkSt (replace (code s) old new) (fixes_applied s ++ [m])).
Proof.
  intros Hold Hd Hh [H1 H2]. split; cbn [code];
    apply replace_keeps_present_apart; assumption.
Qed.

Lemma html_body_complete :
  hoare anything auto_fix_html_body (fun _ => complete).
Proof.
  unfold auto_fix_html_body.
  eapply hoare_bind with (R := fun _ => anything); [apply hoare_rule; unfold anything; auto|].
  step.
  (* Add DOCTYPE if missing *)
  eapply hoare_bind with (R := fun _ => declared_if_html).
  { apply hoare_rule.
    - intros s _ _ _. cbn [code].
      apply (contains_app_l doctype (py "<!DOCTYPE html>")). vm_compute. reflexivity.
    - intros s _ Hc Hh. fold doctype html in Hc. rewrite Hh, andb_true_r in Hc.
      apply negb_false_iff, Hc. }
  step.
  (* Add charset if missing *)
  eapply hoare_bind with (R := fun _ => declared_if_html).
  { apply hoare_rule; [|auto]. intros s Hs _.
    apply declared_replace;
      [discriminate | vm_compute; reflexivity | vm_compute; reflexivity | exact Hs]. }
  step.
  (* Add viewport if missing *)
  eapply hoare_bind with (R := fun _ => declared_if_html).
  { apply hoare_rule; [|auto]. intros s Hs _.
    apply declared_replace;
      [discriminate | vm_compute; reflexivity | vm_compute; reflexivity | exact Hs]. }
  step.
  (* Add basic structure if missing *)
  eapply hoare_bind with (R := fun _ => complete).
  { apply hoare_rule.
    - intros s _ _. unfold html_document. split; cbn [code];
        apply contains_app_l; vm_compute; reflexivity.
    - intros s Hs Hc. fold html in Hc. apply negb_false_iff in Hc.
      split; [apply Hs, Hc | exact Hc]. }
  step.
  (* Fix common HTML issues *)
  eapply hoare_bind with (R := fun _ => complete).
  { apply hoare_for_each. intros [old new] Hin. apply hoare_rule; [|auto].
    intros s Hs _. cbn [In html_fixes] in Hin.
    destruct Hin as [H | [H | [H | [H | []]]]]; injection H as E1 E2; subst old new;
      (apply complete_replace;
       [discriminate | vm_compute; reflexivity | vm_compute; reflexivity | exact Hs]). }
  step.
  (* Add title if missing *)
  apply hoare_rule; [|auto]. intros s Hs _.
  apply complete_replace;
    [discriminate | vm_compute; reflexivity | vm_compute; reflexivity | exact Hs].
Qed.

(** Before the structure rule of a fragment: no [<html] yet. *)
Let fragment (s : st) : Prop := contains html (code s) = false.

(** After it: the opening of the template, then the rest. *)
Let wrapped (s : st) : Prop :=
  (exists x, code s = html_open ++ x) /\ In structure_fix (fixes_applied s).

Lemma fragment_replace (old new m : str) (s : st) :
  old <> [] -> apart html new = true ->
  fragment s -> fragment (mkSt (replace (code s) old new) (fixes_applied s ++ [m])).
Proof. intros Hold Hn Hs. apply replace_keeps_absent_apart; assumption. Qed.

Lemma wrapped_replace (old new m : str) (s : st) :
  old <> [] -> clear_of old html_open = true ->
  wrapped s -> wrapped (mkSt (replace (code s) old new) (fixes_applied s ++ [m])).
Proof.
  intros Hold Hc [[x Hx] Hin]. split; cbn [code fixes_applied].
  - exists (replace x old new). rewrite Hx. apply replace_prefix; assumption.
  - apply in_or_app. left. exact Hin.
Qed.

Lemma html_body_wraps_fragment :
  hoare fragment auto_fix_html_body (fun _ => wrapped).
Proof.
  unfold auto_fix_html_body.
  (* Fix smart quotes *)
  eapply hoare_bind with (R := fun _ => fragment).
  { apply hoare_rule; [|auto]. intros s Hs _. unfold fragment. cbn [code].
    rewrite quote_assignment.
    apply replace_keeps_absent_apart;
      [discriminate | vm_compute; reflexivity | exact Hs]. }
  step.
  (* Add DOCTYPE if missing *)
  eapply hoare_bind with (R := fun _ => fragment).
  { apply hoare_rule; [|auto]. intros s Hs Hc. fold html in Hc.
    unfold fragment in Hs. rewrite Hs, andb_false_r in Hc. discriminate. }
  step.
  (* Add charset if missing *)
  eapply hoare_bind with (R := fun _ => fragment).
  { apply hoare_rule; [|auto]. intros s Hs _.
    apply fragment_replace; [discriminate | vm_compute; reflexivity | exact Hs]. }
  step.
  (* Add viewport if missing *)
  eapply hoare_bind with (R := fun _ => fragment).
  { apply hoare_rule; [|auto]. intros s Hs _.
    apply fragment_replace; [discriminate | vm_compute; reflexivity | exact Hs]. }
  step.
  (* Add basic structure if missing *)
  eapply hoare_bind with (R := fun _ => wrapped).
  { apply hoare_rule.
    - intros s _ _. split; cbn [code fixes_applied].
      + exists (code s ++ html_close). reflexivity.
      + apply in_or_app. right. left. unfold structure_fix. reflexivity.
    - intros s Hs Hc. fold html in Hc. unfold fragment in Hs.
      rewrite Hs in Hc. discriminate. }
  step.
  (* Fix common HTML issues *)
  eapply hoare_bind with (R := fun _ => wrapped).
  { apply hoare_for_each. intros [old new] Hin. apply hoare_rule; [|auto].
    intros s Hs _. cbn [In html_fixes] in Hin.
    destruct Hin as [H | [H | [H | [H | []]]]]; injection H as E1 E2; subst old new;
      (apply wrapped_replace; [discriminate | vm_compute; reflexivity | exact Hs]). }
  step.
  (* Add title if missing *)
  apply hoare_rule; [|auto]. intros s [[x Hx] _] Hc. rewrite Hx in Hc.
  rewrite (contains_app_l (py "<title>") html_open x) in Hc by (vm_compute; reflexivity).
  discriminate.
Qed.

End HtmlMore.

(** X15.  Whatever the snippet, the rewritten HTML holds a [<!DOCTYPE]
    declaration and an [<html] element. *)
Theorem html_rewrite_yields_document (c : str) :
  contains (py "<!DOCTYPE") (fst (auto_fix_html_code None c)) = true /\
  contains (py "<html") (fst (auto_fix_html_code None c)) = true.
Proof.
  unfold auto_fix_html_code.
  destruct (try_body_hoare _ _ _ c html_body_complete I) as [s' [E Hs]].
  rewrite E. exact Hs.
Qed.

(** X16.  A fragment - a snippet without [<html] - is put into the template:
    the rewritten text begins with the opening of the template (DOCTYPE,
    [<html lang="en">], the head with charset, viewport, title and style,
    the opening of the body and of the container) and the record of the
    structure rule is in the fix list. *)
Theorem html_fragment_wrapped (c : str) :
  contains (py "<html") c = false ->
  startswith (fst (auto_fix_html_code None c)) html_open = true /\
  In structure_fix (snd (auto_fix_html_code None c)).
Proof.
  intros Hc. unfold auto_fix_html_code.
  destruct (try_body_hoare _ _ _ c html_body_wraps_fragment Hc) as [s' [E [[x Hx] Hin]]].
  rewrite E. cbn [result fst snd]. split; [|exact Hin].
  rewrite Hx. apply startswith_app.
Qed.

Lemma html_fragment_wrapped_witness :
  contains (py "<html") (py "<h1>Hi</h1>") = false /\
  startswith (fst (auto_fix_html_code None (py "<h1>Hi</h1>"))) html_open = true /\
  In structure_fix (snd (auto_fix_html_code None (py "<h1>Hi</h1>"))).
Proof.
  split; [reflexivity|].
  exact (html_fragment_wrapped (py "<h1>Hi</h1>") eq_refl).
Defined.

(* ================================================================== *)
(** * Further properties of the python rule set *)
(* ================================================================== *)

Lemma firstn_exact {A} (x y : list A) : firstn (length x) (x ++ y) = x.
Proof. induction x as [|a x IH]; simpl; [reflexivity | rewrite IH; reflexivity]. Qed.

Lemma skipn_exact {A} (x y : list A) : skipn (length x) (x ++ y) = y.
Proof. induction x as [|a x IH]; simpl; [reflexivity | exact IH]. Qed.

(** [find_at] from an offset: -1 when [sub] does not occur, otherwise the
    offset plus the length of what precedes an occurrence. *)
Lemma find_at_spec (s sub : str) (k : Z) :
  (find_at s sub k = (-1)%Z /\ contains sub s = false) \/
  (exists a b, s = a ++ sub ++ b /\ find_at s sub k = (k + Z.of_nat (length a))%Z).
Proof.
  revert k. induction s as [|c s IH]; intros k; cbn [find_at contains].
  - destruct (startswith [] sub) eqn:Hs.
    + right. apply startswith_spec in Hs. destruct Hs as [r Hr].
      exists [], r. split; [exact Hr | cbn [length]; lia].
    + left. split; reflexivity.
  - destruct (startswith (c :: s) sub) eqn:Hs.
    + right. apply startswith_spec in Hs. destruct Hs as [r Hr].
      exists [], r. split; [exact Hr | cbn [length]; lia].
    + destruct (IH (k + 1)%Z) as [[H1 H2] | [a [b [H1 H2]]]].
      * left. cbn [orb]. split; assumption.
      * right. exists (c :: a), b. split; [rewrite H1; reflexivity|].
        rewrite H2. cbn [length]. lia.
Qed.

(** Lines 767-771: when the story list is inserted, it is inserted as a
    line of its own in front of a line feed that follows an occurrence of
    the template call. *)
Lemma insert_story_spec (c c' : str) :
  contains template_call c = true ->
  insert_story c = Some c' ->
  exists a0 a1 b0 b,
    c = a0 ++ template_call ++ b0 /\
    c = (a0 ++ a1) ++ nl ++ b /\
    c' = (a0 ++ a1) ++ story_line ++ nl ++ b.
Proof.
  unfold template_call, story_line, insert_story, find, find_from.
  set (tc := py "pdf = SimpleDocTemplate("). intros Hc.
  destruct (find_at_spec c tc 0) as [[_ H] | [a0 [b0 [Hc0 Hi0]]]]; [congruence|].
  rewrite Hi0. cbn [Z.add]. set (i0 := Z.of_nat (length a0)).
  destruct (Z.of_nat (length c) <? i0)%Z eqn:Hlen; [cbn; discriminate|].
  assert (skipn (Z.to_nat i0) c = tc ++ b0) as Hskip.
  { unfold i0. rewrite Nat2Z.id, Hc0. apply skipn_exact. }
  rewrite Hskip.
  destruct (find_at_spec (tc ++ b0) nl i0) as [[H _] | [a1 [b1 [Hc1 Hi1]]]].
  { rewrite H. cbn. discriminate. }
  rewrite Hi1.
  destruct ((i0 + Z.of_nat (length a1))%Z =? -1)%Z eqn:Hneg; [discriminate|].
  intros [= <-]. exists a0, a1, b0, b1.
  assert (c = (a0 ++ a1) ++ nl ++ b1) as Hsplit.
  { rewrite Hc0 at 1. rewrite Hc1, <- app_assoc. reflexivity. }
  split; [exact Hc0|]. split; [exact Hsplit|].
  assert (Z.to_nat (i0 + Z.of_nat (length a1)) = length (a0 ++ a1)) as Hn.
  { unfold i0. rewrite length_app. lia. }
  unfold slice_to, slice_from. rewrite Hn.
  rewrite Hsplit at 1 2. rewrite firstn_exact, skipn_exact.
  rewrite <- !app_assoc. reflexivity.
Qed.

(** A text that cannot start inside [x] starts, in [x ++ r], after [x]. *)
Lemma clear_of_after (p x r a b : str) :
  clear_of p x = true -> x ++ r = a ++ p ++ b -> exists a', a = x ++ a'.
Proof.
  revert a. induction x as [|c x IH]; intros a; [intros _ _; exists a; reflexivity|].
  cbn [clear_of]. rewrite andb_true_iff. intros [Hc Hx] E.
  destruct a as [|c' a].
  - exfalso. pose proof (clash_startswith p (c :: x) r Hc) as F.
    rewrite E in F. cbn [app] in F. rewrite startswith_app in F. discriminate.
  - cbn [app] in E. injection E as <- E.
    destruct (IH a Hx E) as [a' ->]. exists a'. reflexivity.
Qed.

Lemma later_olds_nonempty (old : str) : In old python_later_olds -> old <> [].
Proof.
  assert (forallb (fun o => negb (Nat.eqb (length o) 0)) python_later_olds = true) as H
    by (vm_compute; reflexivity).
  rewrite forallb_forall in H. intros Hin E. specialize (H old Hin).
  rewrite E in H. discriminate.
Qed.

(** A record that differs from the import record at its seventh character. *)
Ltac other_record :=
  let E := fresh "E" in
  intros E; apply (f_equal (fun m => nth 6 m 0%N)) in E; vm_compute in E; discriminate.

Section PythonLater.
Local Open Scope rw_scope.

(** A property kept by the three kinds of change the later rules make:
    replacing one of their texts, appending to the code, inserting the
    story line. *)
Variable I : st -> Prop.
Hypothesis I_replace : forall s old new m,
  In old python_later_olds -> m <> python_import_record -> I s ->
  I (mkSt (replace (code s) old new) (fixes_applied s ++ [m])).
Hypothesis I_append : forall s tail m,
  m <> python_import_record -> I s ->
  I (mkSt (code s ++ tail) (fixes_applied s ++ [m])).
Hypothesis I_insert : forall s a0 a1 b0 b m,
  m <> python_import_record ->
  code s = a0 ++ template_call ++ b0 -> code s = (a0 ++ a1) ++ nl ++ b -> I s ->
  I (mkSt ((a0 ++ a1) ++ story_line ++ nl ++ b) (fixes_applied s ++ [m])).

Lemma later_table (table : list (str * str)) (msg : str -> str -> str) :
  (forall old new, In (old, new) table ->
     In old python_later_olds /\ msg old new <> python_import_record) ->
  hoare I (fix_table table msg) (fun _ => I).
Proof.
  intros H. apply hoare_fix_table. intros old new s Hin Hs _.
  destruct (H old new Hin) as [Hl Hm]. apply I_replace; assumption.
Qed.

Lemma in_later (old new : str) (table : list (str * str)) (pre post : list str) :
  python_later_olds = pre ++ map fst table ++ post ->
  In (old, new) table -> In old python_later_olds.
Proof.
  intros E Hin. rewrite E. apply in_or_app. right. apply in_or_app. left.
  apply in_map_iff. exists (old, new). split; [reflexivity | exact Hin].
Qed.

(** The rules after the import rule (lines 720-818) keep [I]. *)
Lemma python_later_rules_keep :
  hoare I
    (fix_table path_fixes
       (fun old new => py "Fixed file path: " ++ old ++ py " → " ++ new) ;;
     for_each var_fixes (fun '(old, new) =>
       when (fun code => contains (old ++ py " =") code)
         (assign (fun code => replace code (old ++ py " =") (new ++ py " =")) ;;
          append_fix (py "Fixed variable name: " ++ old ++ py " → " ++ new))) ;;
     ifM (fun code => contains (py "def build_pdf(") code && contains main_guard code)
       (when (fun code => negb (contains (py "build_pdf(") (nth 1 (split code main_guard) [])))
          (assign (fun code =>
             code ++ nl ++ nl ++ py "# Auto-added function call" ++ nl ++ py "build_pdf()") ;;
           append_fix (py "Added missing function call")))
     (ifM (fun code => contains (py "def ") code
                       && (contains (py "build") code || contains (py "generate") code
                           || contains (py "create") code))
       (names <- eval (fun s => function_names (code s)) ;;
        match names with
        | [] => ret tt
        | first :: _ =>
          assign (fun code =>
            code ++ nl ++ nl ++ py "# Auto-added function call" ++ nl ++ first ++ py "()") ;;
          append_fix (py "Added missing " ++ first ++ py "() call")
        end)
     (when (fun code => (contains (py "Paragraph(") code || contains (py "Spacer(") code)
                        && negb (contains (py "story = []") code))
       (when (fun code => contains (py "pdf = SimpleDocTemplate(") code)
          (next <- eval (fun s => insert_story (code s)) ;;
           match next with
           | None => ret tt
           | Some c' => assign (fun _ => c') ;; append_fix (py "Added missing story list")
           end) ;;
        when (fun code => contains (py "story.append(") code
                          && negb (contains (py "pdf.build(") code)
                          && negb (contains (py "doc.build(") code))
          (assign (fun code => code ++ nl ++ nl ++ py "pdf.build(story)") ;;
           append_fix (py "Added missing pdf.build(story)"))))) ;;
     fix_table alignment_fixes
       (fun old new => py "Fixed alignment: " ++ old ++ py " → " ++ new) ;;
     fix_table syntax_fixes
       (fun old new => py "Fixed syntax: " ++ old ++ py " → " ++ new) ;;
     when (fun code => contains (py "def ") code && negb (contains (py "try:") code)
                       && negb (contains (py "except") code))
       (when (fun code => contains (py "build_pdf()") code)
          (assign (fun code => replace code (py "build_pdf()") error_wrapper) ;;
           append_fix (py "Added error handling"))))
    (fun _ => I).
Proof.
  (* Fix file paths *)
  apply hoare_seq_inv.
  { apply later_table. intros old new Hin. split; [|other_record].
    apply (in_later old new path_fixes [] _ eq_refl Hin). }
  (* Fix common variable naming issues *)
  apply hoare_seq_inv.
  { apply hoare_for_each. intros [old new] Hin. apply hoare_rule; [|auto].
    intros s Hs _. apply I_replace; [|other_record|exact Hs].
    unfold python_later_olds. apply in_or_app. right. apply in_or_app. left.
    apply in_map_iff. exists (old, new). split; [reflexivity | exact Hin]. }
  (* Ensure the main function gets called *)
  apply hoare_seq_inv.
  { apply hoare_ifM_inv.
    { apply hoare_when_inv, hoare_fix. intros s Hs.
      apply I_append; [other_record | exact Hs]. }
    apply hoare_ifM_inv.
    { apply hoare_eval_inv. intros [|first rest]; [apply hoare_ret_inv|].
      apply hoare_fix. intros s Hs. apply I_append; [other_record | exact Hs]. }
    apply hoare_when_inv. apply hoare_seq_inv.
    - apply hoare_when; [|auto].
      eapply hoare_bind with
        (R := fun next s => I s /\ contains template_call (code s) = true /\
                            next = insert_story (code s)).
      { apply hoare_eval. intros s [Hs Hc]. auto. }
      intros [c'|]; [|apply hoare_ret; intros s [Hs _]; exact Hs].
      apply hoare_fix. intros s [Hs [Hc Hn]]. cbn [code].
      symmetry in Hn.
      destruct (insert_story_spec _ _ Hc Hn) as [a0 [a1 [b0 [b [H0 [H1 ->]]]]]].
      apply (I_insert s a0 a1 b0 b); [other_record | exact H0 | exact H1 | exact Hs].
    - apply hoare_when_inv, hoare_fix. intros s Hs.
      apply I_append; [other_record | exact Hs]. }
  (* Fix alignment values *)
  apply hoare_seq_inv.
  { apply later_table. intros old new Hin. split; [|other_record].
    apply (in_later old new alignment_fixes
             (map fst path_fixes ++ map (fun entry => fst entry ++ py " =") var_fixes)
             (map fst syntax_fixes ++ [py "build_pdf()"])); [|exact Hin].
    unfold python_later_olds. rewrite <- !app_assoc. reflexivity. }
  (* Fix common syntax errors *)
  apply hoare_seq_inv.
  { apply later_table. intros old new Hin. split; [|other_record].
    apply (in_later old new syntax_fixes
             (map fst path_fixes ++ map (fun entry => fst entry ++ py " =") var_fixes
              ++ map fst alignment_fixes)
             [py "build_pdf()"]); [|exact Hin].
    unfold python_later_olds. rewrite <- !app_assoc. reflexivity. }
  (* Add missing error handling *)
  apply hoare_when_inv, hoare_rule; [|auto]. intros s Hs _.
  apply I_replace; [|other_record|exact Hs].
  unfold python_later_olds. rewrite !app_assoc. apply in_or_app. right. left. reflexivity.
Qed.

End PythonLater.

Section PythonImportRule.
Local Open Scope rw_scope.

Let from_reportlab : str := py "from reportlab".
Let import_reportlab : str := py "import reportlab".

Let unimported (s : st) : Prop :=
  contains from_reportlab (code s) = false /\ contains import_reportlab (code s) = false.

Let imported (s : st) : Prop :=
  contains from_reportlab (code s) = true \/ contains import_reportlab (code s) = true.

Let headed (s : st) : Prop :=
  (exists x, code s = reportlab_imports ++ x) /\
  In python_import_record (fixes_applied s).

Let unrecorded (s : st) : Prop := ~ In python_import_record (fixes_applied s).

Lemma later_olds_clear (old : str) :
  In old python_later_olds -> clear_of old reportlab_imports = true.
Proof.
  assert (forallb (fun o => clear_of o reportlab_imports) python_later_olds = true) as H
    by (vm_compute; reflexivity).
  rewrite forallb_forall in H. apply H.
Qed.

Lemma recorded_more (m : str) (s : st) :
  In python_import_record (fixes_applied s) ->
  In python_import_record (fixes_applied s ++ [m]).
Proof. intros H. apply in_or_app. left. exact H. Qed.

Lemma unrecorded_more (m : str) (s : st) :
  m <> python_import_record -> unrecorded s ->
  ~ In python_import_record (fixes_applied s ++ [m]).
Proof.
  intros Hm Hs Hin. apply in_app_or in Hin. destruct Hin as [Hin | [Hin | []]].
  - apply Hs, Hin.
  - apply Hm, Hin.
Qed.

(** The rules after the import rule leave the import block at the head of
    the code and its record in the list. *)
Lemma python_later_rules_keep_head :
  forall s old new m, In old python_later_olds -> m <> python_import_record ->
    headed s -> headed (mkSt (replace (code s) old new) (fixes_applied s ++ [m])).
Proof.
  intros s old new m Hin _ [[x Hx] Hrec]. split; [|apply recorded_more, Hrec].
  cbn [code]. exists (replace x old new). rewrite Hx.
  apply replace_prefix; [apply later_olds_nonempty, Hin | apply later_olds_clear, Hin].
Qed.

Lemma python_story_keeps_head :
  forall s a0 a1 b0 b m, m <> python_import_record ->
    code s = a0 ++ template_call ++ b0 -> code s = (a0 ++ a1) ++ nl ++ b -> headed s ->
    headed (mkSt ((a0 ++ a1) ++ story_line ++ nl ++ b) (fixes_applied s ++ [m])).
Proof.
  intros s a0 a1 b0 b m _ H0 _ [[x Hx] Hrec]. split; [|apply recorded_more, Hrec].
  cbn [code]. rewrite Hx in H0.
  assert (clear_of template_call reportlab_imports = true) as Hclear
    by (vm_compute; reflexivity).
  destruct (clear_of_after _ _ _ _ _ Hclear H0) as [a' ->].
  exists (a' ++ a1 ++ story_line ++ nl ++ b). rewrite <- !app_assoc. reflexivity.
Qed.

Lemma python_body_headed : hoare unimported auto_fix_python_body (fun _ => headed).
Proof.
  unfold auto_fix_python_body.
  (* Fix smart quotes *)
  apply (hoare_bind _ (fun _ => unimported)).
  { unfold fix_smart_quotes. apply hoare_rule; [|auto].
    intros s [H1 H2] _. unfold unimported. cbn [code].
    rewrite !replace_same by discriminate.
    split; apply replace_keeps_absent_apart;
      solve [discriminate | vm_compute; reflexivity | assumption]. }
  (* Fix common unicode issues *)
  step. apply (hoare_bind _ (fun _ => unimported)).
  { apply hoare_fix_table. intros old new s Hin [H1 H2] _. unfold unimported. cbn [code].
    cbn [In unicode_fixes] in Hin.
    destruct Hin as [H | [H | [H | [H | []]]]]; injection H as <- <-;
      (split; apply replace_keeps_absent_apart;
         solve [discriminate | vm_compute; reflexivity | assumption]). }
  (* Add missing imports *)
  step. apply (hoare_bind _ (fun _ => headed)).
  { apply hoare_rule.
    - intros s _ _. split; cbn [code fixes_applied].
      + exists (code s). reflexivity.
      + apply in_or_app. right. left. unfold python_import_record. reflexivity.
    - intros s [H1 H2]. unfold from_reportlab, import_reportlab in H1, H2.
      rewrite H1, H2. discriminate. }
  step. apply python_later_rules_keep.
  - exact python_later_rules_keep_head.
  - intros s tail m _ [[x Hx] Hrec]. split; [|apply recorded_more, Hrec].
    cbn [code]. exists (x ++ tail). rewrite Hx, <- app_assoc. reflexivity.
  - exact python_story_keeps_head.
Qed.

Lemma python_body_unrecorded :
  hoare (fun s => imported s /\ unrecorded s) auto_fix_python_body (fun _ => unrecorded).
Proof.
  unfold auto_fix_python_body.
  (* Fix smart quotes *)
  apply (hoare_bind _ (fun _ s => imported s /\ unrecorded s)).
  { unfold fix_smart_quotes. apply hoare_rule; [|auto].
    intros s [Hi Hu] _. split; [|apply unrecorded_more; [other_record | exact Hu]].
    unfold imported. cbn [code]. rewrite !replace_same by discriminate.
    destruct Hi as [Hi | Hi]; [left | right]; apply replace_keeps_present_apart;
      solve [discriminate | vm_compute; reflexivity | assumption]. }
  (* Fix common unicode issues *)
  step. apply (hoare_bind _ (fun _ s => imported s /\ unrecorded s)).
  { apply hoare_fix_table. intros old new s Hin [Hi Hu] _.
    split; [|apply unrecorded_more; [other_record | exact Hu]].
    unfold imported. cbn [code]. cbn [In unicode_fixes] in Hin.
    destruct Hin as [H | [H | [H | [H | []]]]]; injection H as <- <-;
      (destruct Hi as [Hi | Hi]; [left | right]; apply replace_keeps_present_apart;
         solve [discriminate | vm_compute; reflexivity | assumption]). }
  (* Add missing imports *)
  step. apply (hoare_bind _ (fun _ => unrecorded)).
  { apply hoare_rule.
    - intros s [Hi _] Hc. exfalso.
      apply andb_true_iff in Hc. destruct Hc as [H1 H2].
      apply negb_true_iff in H1, H2. unfold imported, from_reportlab, import_reportlab in Hi.
      destruct Hi as [Hi | Hi]; congruence.
    - intros s [_ Hu] _. exact Hu. }
  step. apply python_later_rules_keep.
  - intros s old new m _ Hm Hu. apply unrecorded_more; assumption.
  - intros s tail m Hm Hu. apply unrecorded_more; assumption.
  - intros s a0 a1 b0 b m Hm _ _ Hu. apply unrecorded_more; assumption.
Qed.

End PythonImportRule.

(** X17 (auto_fix_python_code, lines 675-823).  The import rule is decided
    by the snippet as given and its effect lasts: the record [Added
    comprehensive ReportLab imports] is in the returned list exactly when
    neither [from reportlab] nor [import reportlab] occurs in the snippet,
    and then the returned code begins with the import block.  The rules in
    front of the import rule can neither bring such a text in nor take it
    out, and no later rule changes the block. *)
Theorem python_import_rule_exact (c : str) :
  (In python_import_record (snd (auto_fix_python_code None c)) <->
   contains (py "from reportlab") c = false /\
   contains (py "import reportlab") c = false) /\
  (In python_import_record (snd (auto_fix_python_code None c)) ->
   startswith (fst (auto_fix_python_code None c)) reportlab_imports = true).
Proof.
  unfold auto_fix_python_code.
  destruct (contains (py "from reportlab") c) eqn:H1.
  - destruct (try_body_hoare _ _ _ c python_body_unrecorded) as [s' [E Hs]].
    { split; [left; exact H1 | intros []]. }
    rewrite E. cbn [result fst snd]. split.
    + split; [intros H; elim (Hs H) | intros [H _]; discriminate H].
    + intros H. elim (Hs H).
  - destruct (contains (py "import reportlab") c) eqn:H2.
    + destruct (try_body_hoare _ _ _ c python_body_unrecorded) as [s' [E Hs]].
      { split; [right; exact H2 | intros []]. }
      rewrite E. cbn [result fst snd]. split.
      * split; [intros H; elim (Hs H) | intros [_ H]; discriminate H].
      * intros H. elim (Hs H).
    + destruct (try_body_hoare _ _ _ c python_body_headed) as [s' [E [[x Hx] Hrec]]].
      { split; assumption. }
      rewrite E. cbn [result fst snd]. split.
      * split; [intros _; split; reflexivity | intros _; exact Hrec].
      * intros _. rewrite Hx. apply startswith_app.
Qed.
